(** * homopy: Mori-Tanaka homogenisation, orientation averaging and the
      symmetry check of [homopy/methods.py]

The arithmetic of the Python program is IEEE double precision; this
development reads it over the real numbers (no rounding, no overflow).
What Python does beyond arithmetic is kept: a division by zero raises
[ZeroDivisionError], [numpy.linalg.inv] raises [LinAlgError] on a
singular matrix, a failed [assert] raises [AssertionError], and an
expression that leaves the reals (a fractional power of a negative
number, [arccosh] below 1) yields no real tensor. *)

From Stdlib Require Import Reals Lra Lia Psatz List String.
From Stdlib Require Import FunctionalExtensionality ClassicalEpsilon.
From Stdlib Require Import Permutation.
Import ListNotations.

Set Implicit Arguments.
Open Scope R_scope.

(* ================================================================== *)
(** ** Indices and finite sums *)

(** Python indices 0,1,2 of a 3x3 or 3x3x3x3 array. *)
Inductive I3 : Set := i0 | i1 | i2.

(** Python indices 0..5 of a 6x6 array (normalized Voigt / Mandel). *)
Inductive I6 : Set := m0 | m1 | m2 | m3 | m4 | m5.

Definition I3_eq_dec (x y : I3) : {x = y} + {x <> y}.
Proof. decide equality. Defined.

Definition I6_eq_dec (x y : I6) : {x = y} + {x <> y}.
Proof. decide equality. Defined.

Definition sum3 (f : I3 -> R) : R := f i0 + f i1 + f i2.

Definition sum6 (f : I6 -> R) : R :=
  f m0 + f m1 + f m2 + f m3 + f m4 + f m5.

(** ndarray of shape (3, 3) *)
Definition M33 : Type := I3 -> I3 -> R.
(** ndarray of shape (6, 6) *)
Definition M66 : Type := I6 -> I6 -> R.
(** ndarray of shape (3, 3, 3, 3) *)
Definition T3333 : Type := I3 -> I3 -> I3 -> I3 -> R.

(* ================================================================== *)
(** ** numpy array arithmetic on 6x6 arrays *)

Module Mat.

(** [np.zeros((6, 6))] *)
Definition zeros : M66 := fun _ _ => 0.

(** [np.eye(6)] *)
Definition eye : M66 := fun i j => if I6_eq_dec i j then 1 else 0.

(** [A + B], [A - B] elementwise, [c * A] scalar broadcast *)
Definition add (A B : M66) : M66 := fun i j => A i j + B i j.
Definition sub (A B : M66) : M66 := fun i j => A i j - B i j.
Definition scal (c : R) (A : M66) : M66 := fun i j => c * A i j.

(** [A.T] *)
Definition transpose (A : M66) : M66 := fun i j => A j i.

Definition symmetric (A : M66) : Prop := forall i j, A i j = A j i.

(** the matrix product [np.einsum("ij,jk->ik", A, B)] *)
Definition mul (A B : M66) : M66 :=
  fun i k => sum6 (fun j => A i j * B j k).

(** diagonal matrix, used for concrete inputs *)
Definition diag (d : I6 -> R) : M66 :=
  fun i j => if I6_eq_dec i j then d i else 0.

End Mat.

Declare Scope mat_scope.
Delimit Scope mat_scope with M.
Infix "+" := Mat.add : mat_scope.
Infix "-" := Mat.sub : mat_scope.
Infix "*" := Mat.mul : mat_scope.
Notation "c .* A" := (Mat.scal c A) (at level 39, right associativity) : mat_scope.

(* ================================================================== *)
(** ** numpy array arithmetic on 3x3x3x3 arrays *)

Module Ten.

(** [np.zeros((3, 3, 3, 3))] *)
Definition zeros : T3333 := fun _ _ _ _ => 0.

Definition add (A B : T3333) : T3333 :=
  fun i j k l => A i j k l + B i j k l.
Definition sub (A B : T3333) : T3333 :=
  fun i j k l => A i j k l - B i j k l.
Definition scal (c : R) (A : T3333) : T3333 :=
  fun i j k l => c * A i j k l.

(** item assignment [S[i, j, k, l] = v] on an array, as a functional
    update *)
Definition set (S : T3333) (i j k l : I3) (v : R) : T3333 :=
  fun i' j' k' l' =>
    if I3_eq_dec i i' then
      if I3_eq_dec j j' then
        if I3_eq_dec k k' then
          if I3_eq_dec l l' then v else S i' j' k' l'
        else S i' j' k' l'
      else S i' j' k' l'
    else S i' j' k' l'.

Definition sum_all (f : I3 -> I3 -> I3 -> I3 -> R) : R :=
  sum3 (fun i => sum3 (fun j => sum3 (fun k => sum3 (fun l => f i j k l)))).

(** [np.linalg.norm(T)] with default arguments on an n-dimensional
    array: the 2-norm of the flattened array (Frobenius norm). *)
Definition norm (T : T3333) : R :=
  sqrt (sum_all (fun i j k l => T i j k l * T i j k l)).

End Ten.

Declare Scope ten_scope.
Delimit Scope ten_scope with T.
Infix "+" := Ten.add : ten_scope.
Infix "-" := Ten.sub : ten_scope.
Notation "c .* A" := (Ten.scal c A) (at level 39, right associativity) : ten_scope.

(** [np.eye(3)] *)
Definition eye3 : M33 := fun i j => if I3_eq_dec i j then 1 else 0.

(* ================================================================== *)
(** ** Exceptions and results

    Doubles are read as real numbers: there is no rounding and no
    overflow. [NotReal] is no Python exception. It marks a float
    expression whose value is no real number: a complex number (a
    negative base under a fractional power), inf or NaN (numpy
    operations outside their domain). Python goes on with such a value
    and may return it, store it or raise later; a run that ends in
    [Raise NotReal] is followed no further here, and nothing is stated
    about how it ends. *)

Inductive exn : Set :=
| ZeroDivisionError
| LinAlgError
| IndexError
| AssertionError (msg : string)
| TypeError
| NotReal.   (* no exception: the value is complex, inf or NaN *)

Inductive result (A : Type) : Type :=
| Ok (a : A)
| Raise (e : exn).
Arguments Raise {A} e.

Definition bind {A B} (c : result A) (k : A -> result B) : result B :=
  match c with
  | Ok a => k a
  | Raise e => Raise e
  end.

Notation "x <- c ;; k" := (bind c (fun x => k))
  (at level 61, c at next level, right associativity).

(* ================================================================== *)
(** ** Python float expressions

Operands are evaluated left to right; the first exception wins. *)

Module PyFloat.

Definition t : Type := result R.

Definition const (x : R) : t := Ok x.

Definition lift2 (f : R -> R -> t) (x y : t) : t :=
  x' <- x ;; y' <- y ;; f x' y'.

Definition add : t -> t -> t := lift2 (fun x y => Ok (x + y)).
Definition sub : t -> t -> t := lift2 (fun x y => Ok (x - y)).
Definition mul : t -> t -> t := lift2 (fun x y => Ok (x * y)).

(** unary minus *)
Definition neg (x : t) : t := x' <- x ;; Ok (- x').

(** true division [x / y] *)
Definition truediv (x y : R) : t :=
  if Req_dec_T y 0 then Raise ZeroDivisionError else Ok (x / y).
Definition div : t -> t -> t := lift2 truediv.

(** [x ** y] with a float exponent: positive bases go through
    exp and log; [0.0 ** y] is 0, 1 or an error by the sign of [y]; a
    negative base with a fractional exponent has a complex result. *)
Definition float_pow (x y : R) : t :=
  if Rlt_dec 0 x then Ok (Rpower x y)
  else if Req_dec_T x 0 then
    if Rlt_dec 0 y then Ok 0
    else if Req_dec_T y 0 then Ok 1
    else Raise ZeroDivisionError
  else Raise NotReal.
Definition pow : t -> t -> t := lift2 float_pow.

(** inverse hyperbolic cosine on the reals *)
Definition arccosh (x : R) : R := ln (x + sqrt (x * x - 1)).

(** [np.arccosh(x)]: NaN (with a warning) below 1 *)
Definition np_arccosh (x : t) : t :=
  x' <- x ;; if Rle_dec 1 x' then Ok (arccosh x') else Raise NotReal.

End PyFloat.

Coercion PyFloat.const : R >-> PyFloat.t.

Declare Scope py_scope.
Delimit Scope py_scope with py.
Bind Scope py_scope with PyFloat.t.
Infix "+" := PyFloat.add : py_scope.
Infix "-" := PyFloat.sub : py_scope.
Infix "*" := PyFloat.mul : py_scope.
Infix "/" := PyFloat.div : py_scope.
Notation "- x" := (PyFloat.neg x) : py_scope.
Notation "x ** y" := (PyFloat.pow x y) (at level 30, right associativity) : py_scope.

(* ================================================================== *)
(** ** numpy.linalg.inv

The routine belongs to numpy, not to this repository. It is taken by
its specification: the two-sided inverse when there is one, and
[LinAlgError] ("Singular matrix") when there is none. *)

Definition is_inverse (A B : M66) : Prop :=
  (A * B)%M = Mat.eye /\ (B * A)%M = Mat.eye.

Definition invertible (A : M66) : Prop := exists B, is_inverse A B.

Definition inv (A : M66) : result M66 :=
  match excluded_middle_informative (invertible A) with
  | left H => Ok (proj1_sig (constructive_indefinite_description _ H))
  | right _ => Raise LinAlgError
  end.

(* ================================================================== *)
(** ** homopy.tensor.Tensor (the base class of [MoriTanaka]) *)

Module Tensor.

(** Modelled from the spec: [homopy/tensor.py] is not among the sources;
    the pairs (ij) are numbered in the order 11, 22, 33, 23, 13, 12. *)
Definition voigt (i j : I3) : I6 :=
  match i, j with
  | i0, i0 => m0
  | i1, i1 => m1
  | i2, i2 => m2
  | i1, i2 | i2, i1 => m3
  | i0, i2 | i2, i0 => m4
  | i0, i1 | i1, i0 => m5
  end.

(** Modelled from the spec: the index pair that the forward map reads
    for a reduced index (the other pair of a shear index is discarded). *)
Definition pair_of (m : I6) : I3 * I3 :=
  match m with
  | m0 => (i0, i0)
  | m1 => (i1, i1)
  | m2 => (i2, i2)
  | m3 => (i1, i2)
  | m4 => (i0, i2)
  | m5 => (i0, i1)
  end.

Definition is_shear (m : I6) : bool :=
  match m with
  | m0 | m1 | m2 => false
  | m3 | m4 | m5 => true
  end.

(** Modelled from the spec: shear-shear entries are scaled by 2,
    normal-shear entries by sqrt 2, normal-normal entries by 1. *)
Definition factor (m n : I6) : R :=
  match is_shear m, is_shear n with
  | false, false => 1
  | true, true => 2
  | _, _ => sqrt 2
  end.

(** Modelled from the spec: [Tensor.tensor2mandel], the map from the
    3x3x3x3 array to the normalized 6x6 matrix. *)
Definition tensor2mandel (T : T3333) : M66 :=
  fun m n =>
    factor m n * T (fst (pair_of m)) (snd (pair_of m))
                   (fst (pair_of n)) (snd (pair_of n)).

(** Modelled from the spec: [Tensor.mandel2tensor], the inverse map,
    which undoes the same scaling. *)
Definition mandel2tensor (M : M66) : T3333 :=
  fun i j k l =>
    M (voigt i j) (voigt k l) / factor (voigt i j) (voigt k l).

(** Modelled from the spec: [Tensor.tensor_product], the product of two
    tensors in the reduced form, that is the 6x6 matrix product. *)
Definition tensor_product (tensor_a tensor_b : M66) : M66 :=
  (tensor_a * tensor_b)%M.

End Tensor.

(* ================================================================== *)
(** ** Values handed across the Python interfaces *)

(** A constituent as the homogenizer reads it: the attributes
    [stiffness66] and [nu] of an Elasticity object. *)
Record Material : Type := {
  stiffness66 : M66;
  nu : R
}.

(** An array argument or result that may have shape (6,6) or (3,3,3,3). *)
Inductive ndarray : Type :=
| Arr66 (M : M66)
| Arr3333 (T : T3333).

(** [l[i]] on a Python list *)
Definition getitem {A} (l : list A) (i : nat) : result A :=
  match nth_error l i with
  | Some x => Ok x
  | None => Raise IndexError
  end.

(** [for i in range(...)] threading the variables the body assigns *)
Fixpoint for_each {St} (range : list nat) (body : nat -> St -> result St)
  (s : St) : result St :=
  match range with
  | [] => Ok s
  | i :: rest => s' <- body i s ;; for_each rest body s'
  end.

(** builtin [sum] of a list of floats *)
Definition py_sum (l : list R) : R := fold_left Rplus l 0.

(** einsum index patterns used by [methods.py]; the binders of each
    [fun] are the output subscripts in their order. *)
Module Einsum.

Definition ij_kl__ijkl (A B : M33) : T3333 := fun i j k l => A i j * B k l.
Definition ik_lj__ijkl (A B : M33) : T3333 := fun i j k l => A i k * B l j.
Definition ik_lj__ijlk (A B : M33) : T3333 := fun i j l k => A i k * B l j.
Definition ik_lj__klij (A B : M33) : T3333 := fun k l i j => A i k * B l j.

Definition ijkl__jikl (T : T3333) : T3333 := fun j i k l => T i j k l.
Definition ijkl__ijlk (T : T3333) : T3333 := fun i j l k => T i j k l.
Definition ijkl__klij (T : T3333) : T3333 := fun k l i j => T i j k l.

End Einsum.

(* ================================================================== *)
(** ** class MoriTanaka(Tensor) *)

Module MoriTanaka.

Import PyFloat.

(** The constructor arguments [fiber], [v_frac], [a_ratio]: one
    inclusion type, or lists for several types
    ([type(fiber) == list]). *)
Inductive inclusion_args : Type :=
| Single (fiber : Material) (v_frac a_ratio : R)
| Multi (fiber : list Material) (v_frac a_ratio : list R).

(** The attributes [__init__] sets in either branch. *)
Inductive inclusion_attrs : Type :=
| SingleAttrs (fiber : Material) (Cf : M66) (v_frac a_ratio : R)
              (eshelby66 : M66)
| MultiAttrs (fiber : list Material) (nr_constituents : nat)
             (A_f_alpha pol_alpha : list M66) (c_alpha : list R) (c_f : R).

(** [self] at the point where [get_effective_stiffness] is called. *)
Record attrs : Type := {
  matrix : Material;
  Cm : M66;
  eye : M66;
  inclusions : inclusion_attrs
}.

(** the constructed object *)
Record t : Type := {
  self : attrs;
  effective_stiffness66 : M66;
  effective_stiffness3333 : T3333
}.

(** [_get_eshelby(self, a_ratio, return_dim="66", shape="ellipsoid")];
    [shape] is not used by the body. [Ok None] is the Python value
    [None] of a function that ends without [return].

    For an aspect ratio strictly between -1 and 1 the power
    [(a2 - 1) ** (3 / 2)] is a complex number, and for one below -1
    [np.arccosh] gives NaN: these runs end here in [Raise NotReal] and
    are followed no further (Python goes on to the stores into the
    float array, where a complex number raises [TypeError] and NaN is
    stored). *)
Definition _get_eshelby (self_matrix : Material) (a_ratio : R)
  (return_dim : string) : result (option ndarray) :=
  let nu : R := nu self_matrix in
  let a : R := a_ratio in
  let a2 : R := a ^ 2 in
  g <- (a / (a2 - 1) ** (3 / 2) * (a * (a2 - 1) ** (1 / 2) - np_arccosh a))%py ;;
  let S := Ten.zeros in
  s <- (1
        / (2 * (1 - nu))
        * (
            1
            - 2 * nu
            + (3 * a2 - 1) / (a2 - 1)
            - (1 - 2 * nu + 3 * a2 / (a2 - 1)) * g
        ))%py ;;
  let S := Ten.set S i0 i0 i0 i0 s in
  s <- (3 / (8 * (1 - nu)) * a2 / (a2 - 1)
        + 1 / (4 * (1 - nu)) * (1 - 2 * nu - 9 / (4 * (a2 - 1))) * g)%py ;;
  let S := Ten.set S i1 i1 i1 i1 s in
  let S := Ten.set S i2 i2 i2 i2 (S i1 i1 i1 i1) in
  s <- (1
        / (4 * (1 - nu))
        * (a2 / (2 * (a2 - 1)) - (1 - 2 * nu + 3 / (4 * (a2 - 1))) * g))%py ;;
  let S := Ten.set S i1 i1 i2 i2 s in
  let S := Ten.set S i2 i2 i1 i1 (S i1 i1 i2 i2) in
  s <- (- 1 / (2 * (1 - nu)) * a2 / (a2 - 1)
        + 1 / (4 * (1 - nu)) * (3 * a2 / (a2 - 1) - (1 - 2 * nu)) * g)%py ;;
  let S := Ten.set S i1 i1 i0 i0 s in
  let S := Ten.set S i2 i2 i0 i0 (S i1 i1 i0 i0) in
  s <- (- 1 / (2 * (1 - nu)) * (1 - 2 * nu + 1 / (a2 - 1))
        + 1 / (2 * (1 - nu)) * (1 - 2 * nu + 3 / (2 * (a2 - 1))) * g)%py ;;
  let S := Ten.set S i0 i0 i1 i1 s in
  let S := Ten.set S i0 i0 i2 i2 (S i0 i0 i1 i1) in
  s <- (1
        / (4 * (1 - nu))
        * (a2 / (2 * (a2 - 1)) + (1 - 2 * nu - 3 / (4 * (a2 - 1))) * g))%py ;;
  let S := Ten.set S i1 i2 i1 i2 s in
  let S := Ten.set S i2 i1 i2 i1 (S i1 i2 i1 i2) in
  s <- (1
        / (4 * (1 - nu))
        * (
            1
            - 2 * nu
            - (a2 + 1) / (a2 - 1)
            - 1 / 2 * (1 - 2 * nu - 3 * (a2 + 1) / (a2 - 1)) * g
        ))%py ;;
  let S := Ten.set S i0 i1 i0 i1 s in
  let S := Ten.set S i0 i2 i0 i2 (S i0 i1 i0 i1) in
  if String.eqb return_dim "66" then
    Ok (Some (Arr66 (Tensor.tensor2mandel S)))
  else if String.eqb return_dim "3333" then
    Ok (Some (Arr3333 S))
  else Ok None.

(** a value used where a (6, 6) array is needed *)
Definition as_array66 (v : option ndarray) : result M66 :=
  match v with
  | Some (Arr66 M) => Ok M
  | _ => Raise TypeError
  end.

(** [get_effective_stiffness(self)] *)
Definition get_effective_stiffness (self : attrs) : result M66 :=
  match inclusions self with
  | SingleAttrs _ Cf v_frac _ eshelby66 =>
      Cm_inv <- inv (Cm self) ;;
      let pol := (Cf - Cm self)%M in
      let A_inv :=
        (eye self + Tensor.tensor_product
                      eshelby66 (Tensor.tensor_product Cm_inv pol))%M in
      X <- inv (v_frac .* eye self + (1 - v_frac) .* A_inv)%M ;;
      let C_eff := (Cm self + v_frac .* Tensor.tensor_product pol X)%M in
      Ok C_eff
  | MultiAttrs _ nr_constituents A_f_alpha pol_alpha c_alpha c_f =>
      let pol_A_ave := Mat.zeros in
      let A_ave := Mat.zeros in
(* calculating the averages *)
aves <- for_each (seq 0 nr_constituents)
  (fun i '(pol_A_ave, A_ave) =>
     c <- getitem c_alpha i ;;
     A <- getitem A_f_alpha i ;;
     let A_ave := (A_ave + c .* A)%M in
     c <- getitem c_alpha i ;;
     pol <- getitem pol_alpha i ;;
     A <- getitem A_f_alpha i ;;
     let pol_A_ave :=
       (pol_A_ave + c .* Tensor.tensor_product pol A)%M in
     Ok (pol_A_ave, A_ave))
  (pol_A_ave, A_ave) ;;
let '(pol_A_ave, A_ave) := aves in
X <- inv (c_f .* A_ave + (1 - c_f) .* eye self)%M ;;
let C_eff :=
  (Cm self + Tensor.tensor_product (c_f .* pol_A_ave) X)%M in
Ok C_eff
end.

Definition dimension_message : string :=
  "Dimensions of stiffnesses, v_fracs and a_ratios do not match!".

(** [__init__(self, matrix, fiber, v_frac, a_ratio)]; an exception
    leaves no object. *)
Definition __init__ (matrix : Material) (args : inclusion_args)
  : result t :=
  let Cm := stiffness66 matrix in
  let eye := Mat.eye in
(* when the fiber parameter is a list, different types of inclusions
   are considered *)
incl <-
  match args with
  | Single fiber v_frac a_ratio =>
      let Cf := stiffness66 fiber in
      S <- _get_eshelby matrix a_ratio "66" ;;
      eshelby66 <- as_array66 S ;;
      Ok (SingleAttrs fiber Cf v_frac a_ratio eshelby66)
  | Multi fiber v_frac a_ratio =>
      if (Nat.eqb (List.length fiber) (List.length v_frac)
          && Nat.eqb (List.length v_frac) (List.length a_ratio))%bool
      then
        let nr_constituents := List.length fiber in
        let A_f_alpha : list M66 := [] in
        let pol_alpha : list M66 := [] in
        let c_alpha : list R := [] in
        let c_f := py_sum v_frac in
        Cm_inv <- inv Cm ;;
        lists <- for_each (seq 0 nr_constituents)
          (fun i '(A_f_alpha, pol_alpha, c_alpha) =>
             f <- getitem fiber i ;;
             let Cf_alpha := stiffness66 f in
             let pol := (Cf_alpha - Cm)%M in
             let pol_alpha := pol_alpha ++ [pol] in
             a <- getitem a_ratio i ;;
             S <- _get_eshelby matrix a "66" ;;
             S <- as_array66 S ;;
             let A_inv :=
               (eye + Tensor.tensor_product
                        S (Tensor.tensor_product Cm_inv pol))%M in
             A <- inv A_inv ;;
             let A_f_alpha := A_f_alpha ++ [A] in
             v <- getitem v_frac i ;;
             c <- truediv v c_f ;;
             let c_alpha := c_alpha ++ [c] in
             Ok (A_f_alpha, pol_alpha, c_alpha))
          (A_f_alpha, pol_alpha, c_alpha) ;;
        let '(A_f_alpha, pol_alpha, c_alpha) := lists in
        Ok (MultiAttrs fiber nr_constituents A_f_alpha pol_alpha
                       c_alpha c_f)
      else Raise (AssertionError dimension_message)
  end ;;
let self := {| matrix := matrix; Cm := Cm; eye := eye;
               inclusions := incl |} in
effective_stiffness66 <- get_effective_stiffness self ;;
let effective_stiffness3333 :=
  Tensor.mandel2tensor effective_stiffness66 in
Ok {| self := self;
      effective_stiffness66 := effective_stiffness66;
      effective_stiffness3333 := effective_stiffness3333 |}.

(** [get_orientation_average(tensor, N2, N4)] (static method) *)
Definition get_orientation_average (tensor : T3333) (N2 : M33)
  (N4 : ndarray) : T3333 :=
  let N4 :=
    match N4 with
    | Arr66 M => Tensor.mandel2tensor M
    | Arr3333 T => T
    end in
  let b1 :=
    tensor i0 i0 i0 i0
    + tensor i1 i1 i1 i1
    - 2 * tensor i0 i0 i1 i1
    - 4 * tensor i0 i1 i0 i1 in
  let b2 := tensor i0 i0 i1 i1 - tensor i1 i1 i2 i2 in
  let b3 :=
    tensor i0 i1 i0 i1 + 1 / 2 * (tensor i1 i1 i2 i2 - tensor i1 i1 i1 i1) in
  let b4 := tensor i1 i1 i2 i2 in
  let b5 := 1 / 2 * (tensor i1 i1 i1 i1 - tensor i1 i1 i2 i2) in
  let ave_tensor :=
    (b1 .* N4
     + b2
       .* (Einsum.ij_kl__ijkl N2 eye3 + Einsum.ij_kl__ijkl eye3 N2)
     + b3
       .* (Einsum.ik_lj__ijkl N2 eye3
           + Einsum.ik_lj__ijlk N2 eye3
           + Einsum.ik_lj__klij eye3 N2
           + Einsum.ik_lj__ijlk eye3 N2)
     + b4 .* (Einsum.ij_kl__ijkl eye3 eye3)
     + (2 * b5 * 1 / 2)
       .* (Einsum.ik_lj__ijkl eye3 eye3
           + Einsum.ik_lj__ijlk eye3 eye3))%T in
  ave_tensor.

(** [get_average_stiffness(self, N2, N4, return_dim="66")] *)
Definition get_average_stiffness (self : t) (N2 : M33) (N4 : ndarray)
  (return_dim : string) : ndarray :=
  let N4 :=
    match N4 with
    | Arr66 M => Arr3333 (Tensor.mandel2tensor M)
    | Arr3333 _ => N4
    end in
  let C_eff_ave :=
    get_orientation_average (effective_stiffness3333 self) N2 N4 in
  if String.eqb return_dim "66" then
    Arr66 (Tensor.tensor2mandel C_eff_ave)
  else Arr3333 C_eff_ave.

(** What [print] writes: a line of text, or the line
    ["The residuum was: res = {}".format(res)]. *)
Inductive printed : Type :=
| Line (text : string)
| Residuum (res : R).

Definition newline : string := String (Ascii.ascii_of_nat 10) EmptyString.

(** the tolerance [1e-3] *)
Definition tolerance : R := 1 / 1000.

(** [is_symmetric(self)]: prints the report and returns [None]; the
    list is what was printed, in order. *)
Definition is_symmetric (self : t) : list printed :=
  let left_minor := Einsum.ijkl__jikl (effective_stiffness3333 self) in
  let right_minor := Einsum.ijkl__ijlk (effective_stiffness3333 self) in
  let major := Einsum.ijkl__klij (effective_stiffness3333 self) in
  (if Rlt_dec (Ten.norm (effective_stiffness3333 self - left_minor)%T)
              tolerance
   then [Line "Left minor symmetry: passed"]
   else [Line "Left minor symmetry: failed";
         Residuum (Ten.norm (effective_stiffness3333 self - left_minor)%T)])
  ++
  (if Rlt_dec (Ten.norm (effective_stiffness3333 self - right_minor)%T)
              tolerance
   then [Line "Right minor symmetry: passed"]
   else [Line "Right minor symmetry: failed";
         Residuum (Ten.norm (effective_stiffness3333 self - right_minor)%T)])
  ++
  (if Rlt_dec (Ten.norm (effective_stiffness3333 self - major)%T)
              tolerance
   then [Line "Major symmetry: passed"]
   else [Line "Major symmetry: failed";
         Residuum (Ten.norm (effective_stiffness3333 self - major)%T)])
  ++ [Line newline].

End MoriTanaka.

(* ================================================================== *)
(** ** The specification's formulas

Definitions in the words of the specification, against which the
program above is compared. *)

Module Spec.

(** Kronecker delta *)
Definition delta (i j : I3) : R := if I3_eq_dec i j then 1 else 0.

(** *** Eshelby tensor of a prolate spheroid *)

(** the shape function
    g(a) = a/(a^2-1)^(3/2) * (a*sqrt(a^2-1) - arccosh(a)) *)
Definition g (a : R) : R :=
  a / Rpower (a ^ 2 - 1) (3 / 2)
  * (a * sqrt (a ^ 2 - 1) - PyFloat.arccosh a).

Section Components.
Variables nu a : R.
Let A2 := a ^ 2.
Let G := g a.

Definition S1111 : R :=
  (1 - 2 * nu + (3 * A2 - 1) / (A2 - 1)
   - (1 - 2 * nu + 3 * A2 / (A2 - 1)) * G) / (2 * (1 - nu)).

Definition S2222 : R :=
  3 * A2 / (8 * (1 - nu) * (A2 - 1))
  + (1 - 2 * nu - 9 / (4 * (A2 - 1))) * G / (4 * (1 - nu)).

Definition S2233 : R :=
  (A2 / (2 * (A2 - 1)) - (1 - 2 * nu + 3 / (4 * (A2 - 1))) * G)
  / (4 * (1 - nu)).

Definition S2211 : R :=
  - A2 / (2 * (1 - nu) * (A2 - 1))
  + (3 * A2 / (A2 - 1) - (1 - 2 * nu)) * G / (4 * (1 - nu)).

Definition S1122 : R :=
  - (1 - 2 * nu + 1 / (A2 - 1)) / (2 * (1 - nu))
  + (1 - 2 * nu + 3 / (2 * (A2 - 1))) * G / (2 * (1 - nu)).

Definition S2323 : R :=
  (A2 / (2 * (A2 - 1)) + (1 - 2 * nu - 3 / (4 * (A2 - 1))) * G)
  / (4 * (1 - nu)).

Definition S1212 : R :=
  (1 - 2 * nu - (A2 + 1) / (A2 - 1)
   - (1 - 2 * nu - 3 * (A2 + 1) / (A2 - 1)) * G / 2)
  / (4 * (1 - nu)).

(** the full-form tensor: the listed components, zero elsewhere
    (indices 1,2,3 of the text are 0,1,2 here) *)
Definition eshelby3333 : T3333 :=
  fun i j k l =>
    match i, j, k, l with
    | i0, i0, i0, i0 => S1111
    | i1, i1, i1, i1 | i2, i2, i2, i2 => S2222
    | i1, i1, i2, i2 | i2, i2, i1, i1 => S2233
    | i1, i1, i0, i0 | i2, i2, i0, i0 => S2211
    | i0, i0, i1, i1 | i0, i0, i2, i2 => S1122
    | i1, i2, i1, i2 | i2, i1, i2, i1 => S2323
    | i0, i1, i0, i1 | i0, i2, i0, i2 => S1212
    | _, _, _, _ => 0
    end.

Definition eshelby66 : M66 := Tensor.tensor2mandel eshelby3333.

End Components.

(** the positions of the listed components *)
Definition eshelby_support : list (I3 * I3 * I3 * I3) :=
  [ (i0, i0, i0, i0);
    (i1, i1, i1, i1); (i2, i2, i2, i2);
    (i1, i1, i2, i2); (i2, i2, i1, i1);
    (i1, i1, i0, i0); (i2, i2, i0, i0);
    (i0, i0, i1, i1); (i0, i0, i2, i2);
    (i1, i2, i1, i2); (i2, i1, i2, i1);
    (i0, i1, i0, i1); (i0, i2, i0, i2) ].

(** *** Mori-Tanaka, one inclusion type *)

(** pol = Cf - Cm *)
Definition pol (Cm Cf : M66) : M66 := (Cf - Cm)%M.

(** Ainv = I + S (Cm^-1 pol) *)
Definition Ainv (S Cm_inv pol : M66) : M66 :=
  (Mat.eye + S * (Cm_inv * pol))%M.

(** Ceff = Cm + v pol X, with X the inverse of v I + (1-v) Ainv *)
Definition Ceff_single (Cm : M66) (v : R) (pol X : M66) : M66 :=
  (Cm + (v .* pol) * X)%M.

(** *** Mori-Tanaka, several inclusion types *)

(** one triple (material, volume fraction, aspect ratio) *)
Record inclusion : Type := {
  inc_fiber : Material;
  inc_v : R;
  inc_a : R
}.

Definition sumR (l : list R) : R := fold_right Rplus 0 l.
Definition sumM (l : list M66) : M66 := fold_right Mat.add Mat.zeros l.

Section Multi.
Variable matrix : Material.
Variable Cm_inv : M66.
Variable incs : list inclusion.

(** c_f, the sum of all volume fractions *)
Definition c_f : R := sumR (map inc_v incs).

(** pol_alpha = Cf_alpha - Cm *)
Definition pol_alpha (inc : inclusion) : M66 :=
  pol (stiffness66 matrix) (stiffness66 (inc_fiber inc)).

(** I + S_alpha Cm^-1 pol_alpha, whose inverse is A_alpha *)
Definition Ainv_alpha (inc : inclusion) : M66 :=
  (Mat.eye + eshelby66 (nu matrix) (inc_a inc) * Cm_inv * pol_alpha inc)%M.

(** c_alpha = v_alpha / c_f *)
Definition c_alpha (inc : inclusion) : R := inc_v inc / c_f.

(** A_ave = sum of c_alpha A_alpha, over the types paired with their
    strain concentration tensors *)
Definition A_ave (As : list M66) : M66 :=
  sumM (map (fun p => (c_alpha (fst p) .* snd p)%M) (combine incs As)).

(** polA_ave = sum of c_alpha (pol_alpha A_alpha) *)
Definition polA_ave (As : list M66) : M66 :=
  sumM (map (fun p => (c_alpha (fst p) .* (pol_alpha (fst p) * snd p))%M)
            (combine incs As)).

(** Ceff = Cm + c_f polA_ave X, with X the inverse of
    c_f A_ave + (1 - c_f) I *)
Definition Ceff_multi (As : list M66) (X : M66) : M66 :=
  (stiffness66 matrix + (c_f .* polA_ave As) * X)%M.

End Multi.

(** *** Elastic symmetries of a full-form tensor *)

Definition left_minor_symmetric (T : T3333) : Prop :=
  forall i j k l, T i j k l = T j i k l.
Definition right_minor_symmetric (T : T3333) : Prop :=
  forall i j k l, T i j k l = T i j l k.
Definition major_symmetric (T : T3333) : Prop :=
  forall i j k l, T i j k l = T k l i j.


(** Frobenius norms of T - swap(T) *)
Definition left_minor_residual (T : T3333) : R :=
  sqrt (Ten.sum_all (fun i j k l => (T i j k l - T j i k l) ^ 2)).
Definition right_minor_residual (T : T3333) : R :=
  sqrt (Ten.sum_all (fun i j k l => (T i j k l - T i j l k) ^ 2)).
Definition major_residual (T : T3333) : R :=
  sqrt (Ten.sum_all (fun i j k l => (T i j k l - T k l i j) ^ 2)).

(** the verdict printed for one symmetry *)
Definition verdict (name : string) (res : R) : list MoriTanaka.printed :=
  if Rlt_dec res (1 / 1000)
  then [MoriTanaka.Line (name ++ ": passed")%string]
  else [MoriTanaka.Line (name ++ ": failed")%string;
        MoriTanaka.Residuum res].

(** *** Orientation averaging *)

Definition symmetric2 (N2 : M33) : Prop := forall i j, N2 i j = N2 j i.

Section Coefficients.
Variable C : T3333.
(* C1111 is C[0,0,0,0], C2222 is C[1,1,1,1], C1122 is C[0,0,1,1],
   C2233 is C[1,1,2,2], C1212 is C[0,1,0,1] *)
Definition b1 : R :=
  C i0 i0 i0 i0 + C i1 i1 i1 i1 - 2 * C i0 i0 i1 i1 - 4 * C i0 i1 i0 i1.
Definition b2 : R := C i0 i0 i1 i1 - C i1 i1 i2 i2.
Definition b3 : R := C i0 i1 i0 i1 + (C i1 i1 i2 i2 - C i1 i1 i1 i1) / 2.
Definition b4 : R := C i1 i1 i2 i2.
Definition b5 : R := (C i1 i1 i1 i1 - C i1 i1 i2 i2) / 2.
End Coefficients.

(** the Advani-Tucker combination *)
Definition orientation_average (C : T3333) (N2 : M33) (N4 : T3333)
  : T3333 :=
  fun i j k l =>
    b1 C * N4 i j k l
    + b2 C * (N2 i j * delta k l + delta i j * N2 k l)
    + b3 C * (N2 i k * delta j l + N2 i l * delta j k
              + delta i k * N2 j l + delta i l * N2 j k)
    + b4 C * (delta i j * delta k l)
    + b5 C * (delta i k * delta j l + delta i l * delta j k).

(** perfectly aligned distribution along e1 *)
Definition N2_aligned : M33 :=
  fun i j => match i, j with i0, i0 => 1 | _, _ => 0 end.
Definition N4_aligned : T3333 :=
  fun i j k l => match i, j, k, l with i0, i0, i0, i0 => 1 | _, _, _, _ => 0 end.

(** an index occurs an odd number of times among i, j, k, l *)
Definition paired (i j k l : I3) : Prop :=
  (i = j /\ k = l) \/ (i = k /\ j = l) \/ (i = l /\ j = k).

(** transverse isotropy about the e1 axis, by components: the three
    elastic symmetries, equal behaviour of the axes e2 and e3, the
    isotropy relation in the e2-e3 plane, and no coupling between
    unpaired indices *)
Record transversely_isotropic_e1 (C : T3333) : Prop := {
  ti_left : left_minor_symmetric C;
  ti_right : right_minor_symmetric C;
  ti_major : major_symmetric C;
  ti_2222 : C i2 i2 i2 i2 = C i1 i1 i1 i1;
  ti_1133 : C i0 i0 i2 i2 = C i0 i0 i1 i1;
  ti_1313 : C i0 i2 i0 i2 = C i0 i1 i0 i1;
  ti_2323 : C i1 i2 i1 i2 = (C i1 i1 i1 i1 - C i1 i1 i2 i2) / 2;
  ti_zero : forall i j k l, ~ paired i j k l -> C i j k l = 0
}.

(** the transversely isotropic tensor with axis e1 and the five
    constants C1111, C2222, C1122, C2233, C1212 *)
Definition ti_form (c1111 c2222 c1122 c2233 c1212 : R) : T3333 :=
  fun i j k l =>
    match i, j, k, l with
    | i0, i0, i0, i0 => c1111
    | i1, i1, i1, i1 | i2, i2, i2, i2 => c2222
    | i0, i0, i1, i1 | i0, i0, i2, i2
    | i1, i1, i0, i0 | i2, i2, i0, i0 => c1122
    | i1, i1, i2, i2 | i2, i2, i1, i1 => c2233
    | i0, i1, i0, i1 | i0, i1, i1, i0 | i1, i0, i0, i1 | i1, i0, i1, i0
    | i0, i2, i0, i2 | i0, i2, i2, i0 | i2, i0, i0, i2 | i2, i0, i2, i0 =>
        c1212
    | i1, i2, i1, i2 | i1, i2, i2, i1 | i2, i1, i1, i2 | i2, i1, i2, i1 =>
        (c2222 - c2233) / 2
    | _, _, _, _ => 0
    end.

(** *** Isotropic matrix materials *)

(** the reduced stiffness of an isotropic material with Lame constants
    lambda and mu, in the normalized basis *)
Definition isotropic66 (lambda mu : R) : M66 :=
  fun m n =>
    match m, n with
    | m0, m0 | m1, m1 | m2, m2 => lambda + 2 * mu
    | m0, m1 | m0, m2 | m1, m0 | m1, m2 | m2, m0 | m2, m1 => lambda
    | m3, m3 | m4, m4 | m5, m5 => 2 * mu
    | _, _ => 0
    end.

(** the Poisson ratio that belongs to these constants *)
Definition poisson (lambda mu : R) : R := lambda / (2 * (lambda + mu)).

(** a matrix material as an isotropic elasticity object provides it:
    the attribute [nu] is the Poisson ratio of the isotropic stiffness,
    with positive shear and bulk moduli *)
Definition consistent_isotropic (matrix : Material) (lambda mu : R) : Prop :=
  stiffness66 matrix = isotropic66 lambda mu
  /\ nu matrix = poisson lambda mu
  /\ 0 < mu /\ 0 < 3 * lambda + 2 * mu.


End Spec.

(* ================================================================== *)
(** ** Outcomes of a call *)

(** the call does not end in an [AssertionError] *)
Definition no_assertion {A} (r : result A) : Prop :=
  forall msg, r <> Raise (AssertionError msg).

(** the call produces no value *)
Definition no_value {A} (r : result A) : Prop :=
  forall a, r <> Ok a.

(** a loop body applied to the items of a list in turn *)
Fixpoint fold_steps {X St} (step : X -> St -> result St) (l : list X)
  (s : St) : result St :=
  match l with
  | [] => Ok s
  | x :: rest => s' <- step x s ;; fold_steps step rest s'
  end.

(** The two loops of the multi-inclusion mode, as steps over the list
    of inclusion types. *)
Module Loop.

(** one pass of the loop of [__init__], where the Eshelby tensor of the
    type exists *)
Definition init_step (matrix : Material) (Cm_inv : M66)
  (incs : list Spec.inclusion) (inc : Spec.inclusion)
  (s : list M66 * list M66 * list R)
  : result (list M66 * list M66 * list R) :=
  let '(A_f_alpha, pol_alpha, c_alpha) := s in
  A <- inv (Spec.Ainv_alpha matrix Cm_inv inc) ;;
  Ok (A_f_alpha ++ [A],
      pol_alpha ++ [Spec.pol_alpha matrix inc],
      c_alpha ++ [Spec.c_alpha incs inc]).

(** one pass of the loop of [get_effective_stiffness] *)
Definition ave_step (matrix : Material) (incs : list Spec.inclusion)
  (p : Spec.inclusion * M66) (s : M66 * M66) : result (M66 * M66) :=
  let '(pol_A_ave, A_ave) := s in
  Ok ((pol_A_ave
       + Spec.c_alpha incs (fst p) .* (Spec.pol_alpha matrix (fst p) * snd p))%M,
      (A_ave + Spec.c_alpha incs (fst p) .* snd p)%M).

End Loop.

(* ================================================================== *)
(** ** Concrete inputs *)

Module Sample.

(** a matrix material with unit stiffness and Poisson ratio 0 *)
Definition unit_matrix : Material := {| stiffness66 := Mat.eye; nu := 0 |}.

(** a fiber twice as stiff *)
Definition stiff_fiber : Material :=
  {| stiffness66 := (2 .* Mat.eye)%M; nu := 0 |}.

(** a fiber with the stiffness of the matrix *)
Definition same_fiber : Material := {| stiffness66 := Mat.eye; nu := 0 |}.

(** an isotropic matrix material with Young's modulus 1000 and Poisson
    ratio 1/4, that is with Lame constants 400 and 400 *)
Definition soft_matrix : Material :=
  {| stiffness66 := Spec.isotropic66 400 400; nu := 1 / 4 |}.









(** the Poisson ratio at which S2211 vanishes for the aspect ratio
    13/5, and the isotropic matrix material with shear modulus 1/2 that
    has this Poisson ratio *)
Definition vanishing_nu : R :=
  (1 - 3 * (169 / 144) + 2 * (169 / 144) / Spec.g (13 / 5)) / 2.

Definition vanishing_matrix : Material :=
  {| stiffness66 :=
       Spec.isotropic66 (vanishing_nu / (1 - 2 * vanishing_nu)) (1 / 2);
     nu := vanishing_nu |}.

(** two inclusion types of aspect ratios 20 and 5 *)
Definition two_inclusions : list Spec.inclusion :=
  [ {| Spec.inc_fiber := same_fiber; Spec.inc_v := 1 / 4; Spec.inc_a := 20 |};
    {| Spec.inc_fiber := same_fiber; Spec.inc_v := 1 / 4; Spec.inc_a := 5 |} ].


(** inclusion lists of equal and of unequal lengths *)
Definition fibers1 : list Material := [stiff_fiber].
Definition v_fracs1 : list R := [1 / 2].
Definition v_fracs2 : list R := [1 / 4; 1 / 4].
Definition a_ratios1 : list R := [20].

End Sample.

(* ================================================================== *)
(** ** numpy scalars

    Operations whose operands or results are numpy floats do not raise:
    a division by zero, the logarithm of a number that is not positive
    and the square root of a negative number give inf or NaN, and the
    program goes on with that value. Here such a value ends the
    computation with [NotReal], which is no Python exception: it marks
    that the run has left the real numbers, where this development
    follows it no further and says nothing about its result. *)

Module NumPy.

(** [x / y] where an operand is a numpy float *)
Definition truediv (x y : R) : PyFloat.t :=
  if Req_dec_T y 0 then Raise NotReal else Ok (x / y).
Definition div : PyFloat.t -> PyFloat.t -> PyFloat.t :=
  PyFloat.lift2 truediv.

(** [np.log(x)] *)
Definition log (x : PyFloat.t) : PyFloat.t :=
  x' <- x ;; if Rlt_dec 0 x' then Ok (ln x') else Raise NotReal.

(** [np.sqrt(x)] *)
Definition sqrt (x : PyFloat.t) : PyFloat.t :=
  x' <- x ;; if Rle_dec 0 x' then Ok (R_sqrt.sqrt x') else Raise NotReal.

(** [np.tanh(x)] *)
Definition tanh (x : PyFloat.t) : PyFloat.t :=
  x' <- x ;; Ok (Rtrigo_def.tanh x').

End NumPy.

Infix "/~" := NumPy.div (at level 40, left associativity) : py_scope.

(* ================================================================== *)
(** ** class HalpinTsai *)

Module HalpinTsai.

Import PyFloat.

(** what a call can raise: [ValueError], or one of the exceptions
    above *)
Inductive error : Type :=
| ValueError (msg : string)
| Other (e : exn).

(** how a call ends: it returns, it raises, or a numpy operation has
    produced inf or NaN. In the last case the Python call goes on (it
    may return an object that holds inf or NaN, or a finite value, or
    raise later); [NotFollowed] claims none of these. *)
Inductive outcome (A : Type) : Type :=
| Done (a : A)
| Failed (e : error)
| NotFollowed.
Arguments Failed {A} e.
Arguments NotFollowed {A}.

Definition of_result {A} (r : result A) : outcome A :=
  match r with
  | Ok a => Done a
  | Raise NotReal => NotFollowed
  | Raise e => Failed (Other e)
  end.

(** the attributes [__init__] copies from its arguments *)
Record args : Type := {
  E_f : R;
  E_m : R;
  G_f : R;
  G_m : R;
  nu_f : R;
  nu_m : R;
  l_f : R;
  r_f : R;
  vol_f : R;
  package : string
}.

(** the attributes [_get_effective_parameters] adds *)
Record t : Type := {
  self : args;
  E11 : R;
  E22 : R;
  G12 : R;
  nu12 : R;
  nu21 : R
}.

(** the message [Package must be either "hex" or "square"!] *)
Definition package_message : string :=
  let quote := String (Ascii.ascii_of_nat 34) EmptyString in
  ("Package must be either " ++ quote ++ "hex" ++ quote ++ " or "
   ++ quote ++ "square" ++ quote ++ "!")%string.

(** [_get_effective_parameters(self)] *)
Definition _get_effective_parameters (self : args) : outcome t :=
  let E_f : R := E_f self in
  let E_m : R := E_m self in
  let G_f : R := G_f self in
  let G_m : R := G_m self in
  let nu_f : R := nu_f self in
  let nu_m : R := nu_m self in
  let l_f : R := l_f self in
  let r_f : R := r_f self in
  let vol_f : R := vol_f self in
  if (negb (String.eqb (package self) "hex")
      && negb (String.eqb (package self) "square"))%bool
  then Failed (ValueError package_message)
  else
    of_result (
      p <- (if String.eqb (package self) "hex"
            then (1 / 2 * NumPy.log (2 * PI /~ (NumPy.sqrt 3 * vol_f)))%py
            else (1 / 2 * NumPy.log (PI / vol_f))%py) ;;
      beta <- NumPy.sqrt
                (2 * PI * G_m /~ (E_f * (PI * (r_f ^ 2)%R) * p))%py ;;
      nu1 <- ((E_f / E_m - 1) / (E_f / E_m + 2))%py ;;
      nu2 <- ((G_f / G_m - 1) / (G_f / G_m + 1))%py ;;
      E11 <- (E_f * (
                1 - NumPy.tanh (beta * l_f /~ 2) /~ (beta * l_f /~ 2)
              ) * vol_f + E_m * (1 - vol_f))%py ;;
      E22 <- (E_m * (1 + 2 * nu1 * vol_f) / (1 - nu1 * vol_f))%py ;;
      G12 <- (G_m * (1 + 2 * nu2 * vol_f) / (1 - nu2 * vol_f))%py ;;
      nu12 <- (nu_f * vol_f + nu_m * (1 - vol_f))%py ;;
      nu21 <- (nu12 * E22 /~ E11)%py ;;
      Ok {| self := self; E11 := E11; E22 := E22; G12 := G12;
            nu12 := nu12; nu21 := nu21 |}).

(** [__init__(self, E_f, E_m, G_f, G_m, nu_f, nu_m, l_f, r_f, vol_f,
    package="hex")] *)
Definition __init__ (E_f E_m G_f G_m nu_f nu_m l_f r_f vol_f : R)
  (package : string) : outcome t :=
  _get_effective_parameters
    {| E_f := E_f; E_m := E_m; G_f := G_f; G_m := G_m; nu_f := nu_f;
       nu_m := nu_m; l_f := l_f; r_f := r_f; vol_f := vol_f;
       package := package |}.

(** [get_effective_stiffness(self)]: the planar stiffness of the
    lamina *)
Definition get_effective_stiffness (self : t) : result M33 :=
  Q11 <- (E11 self /~ (1 - nu12 self * nu21 self))%py ;;
  Q12 <- (nu21 self * Q11)%py ;;
  let Q16 := 0 in
  Q22 <- (E22 self /~ (1 - nu12 self * nu21 self))%py ;;
  let Q26 := 0 in
  let Q66 := G12 self in
  let C : M33 :=
    fun i j =>
      match i, j with
      | i0, i0 => Q11 | i0, i1 => Q12 | i0, i2 => Q16
      | i1, i0 => Q12 | i1, i1 => Q22 | i1, i2 => Q26
      | i2, i0 => Q16 | i2, i1 => Q26 | i2, i2 => Q66
      end in
  Ok C.

End HalpinTsai.

(* ================================================================== *)
(** ** class Laminate *)

(** indices 0..3 of an array of four entries *)
Inductive I4 : Set := f0 | f1 | f2 | f3.

Definition sum4 (f : I4 -> R) : R := f f0 + f f1 + f f2 + f f3.

(** ndarrays of shape (6,), (4,) and (6, 4) *)
Definition V6 : Type := I6 -> R.
Definition V4 : Type := I4 -> R.
Definition M64 : Type := I6 -> I4 -> R.

Module Laminate.

(** the attributes of the object *)
Record t : Type := {
  lamina_stiffnesses : list M33;
  angles : list R;
  vol_fracs : list R
}.

Definition dimension_message : string :=
  "Dimensions of lamina_stiffnesses, angles and vol_fracs do not match!".

(** [__init__(self, lamina_stiffnesses, angles, vol_fracs=None)] *)
Definition __init__ (lamina_stiffnesses : list M33) (angles : list R)
  (vol_fracs : option (list R)) : result t :=
  match vol_fracs with
  | Some vol_fracs =>
      if (Nat.eqb (List.length lamina_stiffnesses) (List.length angles)
          && Nat.eqb (List.length angles) (List.length vol_fracs))%bool
      then Ok {| lamina_stiffnesses := lamina_stiffnesses;
                 angles := angles;
                 vol_fracs := vol_fracs |}
      else Raise (AssertionError dimension_message)
  | None =>
      w <- PyFloat.truediv 1 (INR (List.length lamina_stiffnesses)) ;;
      Ok {| lamina_stiffnesses := lamina_stiffnesses;
            angles := angles;
            vol_fracs :=
              map (fun one => w * one)
                  (repeat 1 (List.length lamina_stiffnesses)) |}
  end.

(** [rotate_stiffness(lamina_stiffness, angle)] (static method); the
    result lists Q11, Q22, Q12, Q66, Q16, Q26 of the rotated lamina *)
Definition rotate_stiffness (lamina_stiffness : M33) (angle : R) : V6 :=
  let m := cos angle in
  let n := sin angle in
  let rot_mat : M64 :=
    fun i j =>
      match i, j with
      | m0, f0 => m ^ 4
      | m0, f1 => n ^ 4
      | m0, f2 => 2 * m ^ 2 * n ^ 2
      | m0, f3 => 4 * m ^ 2 * n ^ 2
      | m1, f0 => n ^ 4
      | m1, f1 => m ^ 4
      | m1, f2 => 2 * m ^ 2 * n ^ 2
      | m1, f3 => 4 * m ^ 2 * n ^ 2
      | m2, f0 => m ^ 2 * n ^ 2
      | m2, f1 => m ^ 2 * n ^ 2
      | m2, f2 => m ^ 4 + n ^ 4
      | m2, f3 => -4 * m ^ 2 * n ^ 2
      | m3, f0 => m ^ 2 * n ^ 2
      | m3, f1 => m ^ 2 * n ^ 2
      | m3, f2 => -2 * m ^ 2 * n ^ 2
      | m3, f3 => (m ^ 2 - n ^ 2) ^ 2
      | m4, f0 => m ^ 3 * n
      | m4, f1 => - m * n ^ 3
      | m4, f2 => m * n ^ 3 - m ^ 3 * n
      | m4, f3 => 2 * (m * n ^ 3 - m ^ 3 * n)
      | m5, f0 => m * n ^ 3
      | m5, f1 => - (m ^ 3) * n
      | m5, f2 => m ^ 3 * n - m * n ^ 3
      | m5, f3 => 2 * (m ^ 3 * n - m * n ^ 3)
      end in
  let Q := lamina_stiffness in
  let flat_stiffness : V4 :=
    fun j =>
      match j with
      | f0 => Q i0 i0
      | f1 => Q i1 i1
      | f2 => Q i0 i1
      | f3 => Q i2 i2
      end in
  (* np.einsum("ij,j->i", rot_mat, flat_stiffness) *)
  let rot_stiffness : V6 :=
    fun i => sum4 (fun j => rot_mat i j * flat_stiffness j) in
  rot_stiffness.

(** [get_effective_stiffness(self)] *)
Definition get_effective_stiffness (self : t) : result M33 :=
  let C_eff_temp : V6 := fun _ => 0 in
  C_eff_temp <- for_each (seq 0 (List.length (lamina_stiffnesses self)))
    (fun i (C_eff_temp : V6) =>
       (* rotate by angle *)
       Q <- getitem (lamina_stiffnesses self) i ;;
       a <- getitem (angles self) i ;;
       let Q_temp := rotate_stiffness Q a in
       w <- getitem (vol_fracs self) i ;;
       Ok (fun k => C_eff_temp k + w * Q_temp k))
    C_eff_temp ;;
  let C_eff : M33 :=
    fun i j =>
      match i, j with
      | i0, i0 => C_eff_temp m0 | i0, i1 => C_eff_temp m2
      | i0, i2 => C_eff_temp m4
      | i1, i0 => C_eff_temp m2 | i1, i1 => C_eff_temp m1
      | i1, i2 => C_eff_temp m5
      | i2, i0 => C_eff_temp m4 | i2, i1 => C_eff_temp m5
      | i2, i2 => C_eff_temp m3
      end in
  Ok C_eff.

End Laminate.

(* ================================================================== *)
(** ** Further notions used to state properties *)

Module Props.

(** the isotropic orientation distribution: N2 = I/3 and
    N4 = (d_ij d_kl + d_ik d_jl + d_il d_jk)/15 *)
Definition N2_isotropic : M33 := fun i j => Spec.delta i j / 3.
Definition N4_isotropic : T3333 :=
  fun i j k l =>
    (Spec.delta i j * Spec.delta k l + Spec.delta i k * Spec.delta j l
     + Spec.delta i l * Spec.delta j k) / 15.

(** the isotropic fourth-order tensor with constants lambda, mu *)
Definition isotropic_form (lambda mu : R) : T3333 :=
  fun i j k l =>
    lambda * (Spec.delta i j * Spec.delta k l)
    + mu * (Spec.delta i k * Spec.delta j l + Spec.delta i l * Spec.delta j k).

(** the quantity Q11 + Q22 + 2 Q12 and the quantity Q66 - Q12 of the six
    planar stiffness components *)
Definition invariant1 (q : V6) : R := q m0 + q m1 + 2 * q m2.
Definition invariant2 (q : V6) : R := q m3 - q m2.

(** the same two quantities of a 3x3 planar stiffness *)
Definition planar_invariant1 (C : M33) : R :=
  C i0 i0 + C i1 i1 + 2 * C i0 i1.
Definition planar_invariant2 (C : M33) : R := C i2 i2 - C i0 i1.

(** the weighted sum of a quantity over the laminas *)
Definition weighted_sum (f : M33 -> R) (ws : list R) (Qs : list M33) : R :=
  Spec.sumR (map (fun p => fst p * f (snd p)) (combine ws Qs)).

(** the Halpin-Tsai ratio (1 + 2 eta v) / (1 - eta v) *)
Definition halpin_tsai_ratio (eta v : R) : R :=
  (1 + 2 * eta * v) / (1 - eta * v).

(** moduli are positive, lengths are positive and the fiber volume
    fraction is in (0, 1] *)
Record physical (a : HalpinTsai.args) : Prop := {
  ph_E_f : 0 < HalpinTsai.E_f a;
  ph_E_m : 0 < HalpinTsai.E_m a;
  ph_G_f : 0 < HalpinTsai.G_f a;
  ph_G_m : 0 < HalpinTsai.G_m a;
  ph_l_f : 0 < HalpinTsai.l_f a;
  ph_r_f : 0 < HalpinTsai.r_f a;
  ph_vol_f : 0 < HalpinTsai.vol_f a <= 1;
  ph_package : HalpinTsai.package a = "hex"%string
               \/ HalpinTsai.package a = "square"%string
}.

(** one pass of the loop of [Laminate.get_effective_stiffness], on the
    lamina, its angle and its volume fraction *)
Definition laminate_step (p : M33 * (R * R)) (s : V6) : result V6 :=
  Ok (fun k =>
        s k + snd (snd p) * Laminate.rotate_stiffness (fst p) (fst (snd p)) k).

(** the packing parameter p of [_get_effective_parameters] *)
Definition packing (a : HalpinTsai.args) : R :=
  if String.eqb (HalpinTsai.package a) "hex"
  then 1 / 2 * ln (2 * PI / (sqrt 3 * HalpinTsai.vol_f a))
  else 1 / 2 * ln (PI / HalpinTsai.vol_f a).

(** the shear-lag argument beta l_f / 2 *)
Definition shear_lag (a : HalpinTsai.args) : R :=
  sqrt (2 * PI * HalpinTsai.G_m a
        / (HalpinTsai.E_f a * (PI * HalpinTsai.r_f a ^ 2) * packing a))
  * HalpinTsai.l_f a / 2.

(** the coefficients nu1 and nu2 *)
Definition eta_E (a : HalpinTsai.args) : R :=
  (HalpinTsai.E_f a / HalpinTsai.E_m a - 1)
  / (HalpinTsai.E_f a / HalpinTsai.E_m a + 2).
Definition eta_G (a : HalpinTsai.args) : R :=
  (HalpinTsai.G_f a / HalpinTsai.G_m a - 1)
  / (HalpinTsai.G_f a / HalpinTsai.G_m a + 1).

(** the rule of mixtures *)
Definition rule_of_mixtures (x_f x_m v : R) : R := x_f * v + x_m * (1 - v).

(** constituents of a glass fiber lamina, in GPa and mm *)
Definition glass_epoxy : HalpinTsai.args :=
  {| HalpinTsai.E_f := 70; HalpinTsai.E_m := 3;
     HalpinTsai.G_f := 30; HalpinTsai.G_m := 1;
     HalpinTsai.nu_f := 1 / 5; HalpinTsai.nu_m := 7 / 20;
     HalpinTsai.l_f := 1; HalpinTsai.r_f := 1 / 100;
     HalpinTsai.vol_f := 1 / 4; HalpinTsai.package := "hex" |}.

(** the same constituents at fiber volume fraction 1 *)
Definition pure_fiber : HalpinTsai.args :=
  {| HalpinTsai.E_f := 70; HalpinTsai.E_m := 3;
     HalpinTsai.G_f := 30; HalpinTsai.G_m := 1;
     HalpinTsai.nu_f := 1 / 5; HalpinTsai.nu_m := 7 / 20;
     HalpinTsai.l_f := 1; HalpinTsai.r_f := 1 / 100;
     HalpinTsai.vol_f := 1; HalpinTsai.package := "square" |}.

(** a planar stiffness without coupling terms *)
Definition ply : M33 :=
  fun i j =>
    match i, j with
    | i0, i0 => 10 | i1, i1 => 5 | i2, i2 => 2
    | i0, i1 | i1, i0 => 3
    | _, _ => 0
    end.

End Props.


(* ================================================================== *)
(** * Proofs *)

(** ** Matrix algebra on 6x6 arrays *)

Lemma mat_ext (A B : M66) : (forall i j, A i j = B i j) -> A = B.
Proof.
  intro H. apply functional_extensionality; intro i.
  apply functional_extensionality; intro j. apply H.
Qed.

Lemma ten_ext (A B : T3333) :
  (forall i j k l, A i j k l = B i j k l) -> A = B.
Proof.
  intro H. do 4 (apply functional_extensionality; intro). apply H.
Qed.

Ltac mat_unfold :=
  unfold Tensor.tensor_product, Mat.add, Mat.sub, Mat.scal, Mat.mul,
    Mat.zeros, Mat.transpose, sum6.

Ltac mat_ring := apply mat_ext; intros; mat_unfold; ring.

Ltac mat_cases :=
  apply mat_ext; intros i j; mat_unfold; unfold Mat.eye, Mat.diag;
  destruct i, j; simpl; try ring.

Lemma mul_assoc (A B C : M66) : (A * B * C = A * (B * C))%M.
Proof. mat_ring. Qed.

Lemma mul_eye_l (A : M66) : (Mat.eye * A)%M = A.
Proof. mat_cases. Qed.

Lemma mul_eye_r (A : M66) : (A * Mat.eye)%M = A.
Proof. mat_cases. Qed.

Lemma mul_add_l (A B C : M66) : (A * (B + C) = A * B + A * C)%M.
Proof. mat_ring. Qed.

Lemma mul_add_r (A B C : M66) : ((A + B) * C = A * C + B * C)%M.
Proof. mat_ring. Qed.

Lemma mul_scal_l (c : R) (A B : M66) : ((c .* A) * B = c .* (A * B))%M.
Proof. mat_ring. Qed.

Lemma mul_scal_r (c : R) (A B : M66) : (A * (c .* B) = c .* (A * B))%M.
Proof. mat_ring. Qed.

Lemma mul_zeros_l (A : M66) : (Mat.zeros * A)%M = Mat.zeros.
Proof. mat_ring. Qed.

Lemma mul_zeros_r (A : M66) : (A * Mat.zeros)%M = Mat.zeros.
Proof. mat_ring. Qed.

Lemma add_comm (A B : M66) : (A + B = B + A)%M.
Proof. mat_ring. Qed.

Lemma add_assoc (A B C : M66) : (A + B + C = A + (B + C))%M.
Proof. mat_ring. Qed.

Lemma add_zeros_l (A : M66) : (Mat.zeros + A)%M = A.
Proof. mat_ring. Qed.

Lemma add_zeros_r (A : M66) : (A + Mat.zeros)%M = A.
Proof. mat_ring. Qed.

Lemma sub_self (A : M66) : (A - A)%M = Mat.zeros.
Proof. mat_ring. Qed.

Lemma scal_one (A : M66) : (1 .* A)%M = A.
Proof. mat_ring. Qed.

Lemma scal_zero (A : M66) : (0 .* A)%M = Mat.zeros.
Proof. mat_ring. Qed.

Lemma scal_zeros (c : R) : (c .* Mat.zeros)%M = Mat.zeros.
Proof. mat_ring. Qed.

Lemma scal_add (c : R) (A B : M66) : (c .* (A + B) = c .* A + c .* B)%M.
Proof. mat_ring. Qed.









(** ** The inverse *)

Lemma is_inverse_unique (A B C : M66) :
  is_inverse A B -> is_inverse A C -> B = C.
Proof.
  intros [_ HBA] [HAC _].
  rewrite <- (mul_eye_r B), <- HAC, <- mul_assoc, HBA.
  apply mul_eye_l.
Qed.

Lemma inv_Ok (A B : M66) : inv A = Ok B -> is_inverse A B.
Proof.
  unfold inv.
  destruct (excluded_middle_informative (invertible A)) as [H | H];
    [| discriminate].
  destruct (constructive_indefinite_description _ H) as [B' HB'].
  simpl. intro E. injection E as <-. exact HB'.
Qed.

Lemma inv_intro (A B : M66) : is_inverse A B -> inv A = Ok B.
Proof.
  intro HB. unfold inv.
  destruct (excluded_middle_informative (invertible A)) as [H | H].
  - destruct (constructive_indefinite_description _ H) as [B' HB'].
    simpl. f_equal. exact (is_inverse_unique HB' HB).
  - exfalso. apply H. exists B. exact HB.
Qed.

Lemma inv_singular (A : M66) : ~ invertible A -> inv A = Raise LinAlgError.
Proof.
  intro HA. unfold inv.
  destruct (excluded_middle_informative (invertible A)) as [H | H];
    [contradiction | reflexivity].
Qed.

Lemma inv_eye : inv Mat.eye = Ok Mat.eye.
Proof. apply inv_intro. split; apply mul_eye_l. Qed.

Lemma is_inverse_sym (A B : M66) : is_inverse A B -> is_inverse B A.
Proof. intros [H1 H2]. split; assumption. Qed.

(* ================================================================== *)
(** ** Mori-Tanaka with one inclusion type *)

(** C1. With one inclusion type, [get_effective_stiffness] returns
    Cm + v pol X, where pol = Cf - Cm, Ainv = I + S (Cm^-1 pol) and X is
    the inverse of v I + (1 - v) Ainv, whenever Cm and that matrix have
    inverses. *)
Theorem single_inclusion_effective_stiffness :
  forall (matrix fiber : Material) (Cm Cf : M66) (v a : R)
         (S Cm_inv X : M66),
    inv Cm = Ok Cm_inv ->
    inv (v .* Mat.eye
         + (1 - v) .* Spec.Ainv S Cm_inv (Spec.pol Cm Cf))%M = Ok X ->
    MoriTanaka.get_effective_stiffness
      {| MoriTanaka.matrix := matrix;
         MoriTanaka.Cm := Cm;
         MoriTanaka.eye := Mat.eye;
         MoriTanaka.inclusions := MoriTanaka.SingleAttrs fiber Cf v a S |}
    = Ok (Spec.Ceff_single Cm v (Spec.pol Cm Cf) X).
Proof.
  intros matrix fiber Cm Cf v a S Cm_inv X HCm HX.
  unfold MoriTanaka.get_effective_stiffness; simpl.
  rewrite HCm; simpl.
  unfold Spec.Ainv, Spec.pol, Tensor.tensor_product in *.
  rewrite HX; simpl.
  unfold Spec.Ceff_single. now rewrite mul_scal_l.
Qed.

Lemma single_inclusion_effective_stiffness_witness :
  inv Mat.eye = Ok Mat.eye
  /\ inv ((1 / 2) .* Mat.eye
          + (1 - 1 / 2)
            .* Spec.Ainv Mat.zeros Mat.eye
                 (Spec.pol Mat.eye (2 .* Mat.eye)))%M = Ok Mat.eye
  /\ MoriTanaka.get_effective_stiffness
       {| MoriTanaka.matrix := Sample.unit_matrix;
          MoriTanaka.Cm := Mat.eye;
          MoriTanaka.eye := Mat.eye;
          MoriTanaka.inclusions :=
            MoriTanaka.SingleAttrs Sample.stiff_fiber (2 .* Mat.eye)%M
              (1 / 2) 20 Mat.zeros |}
     = Ok (Spec.Ceff_single Mat.eye (1 / 2)
             (Spec.pol Mat.eye (2 .* Mat.eye)%M) Mat.eye).
Proof.
  assert (E : ((1 / 2) .* Mat.eye
               + (1 - 1 / 2)
                 .* Spec.Ainv Mat.zeros Mat.eye
                      (Spec.pol Mat.eye (2 .* Mat.eye)))%M = Mat.eye).
  { unfold Spec.Ainv. rewrite mul_zeros_l, add_zeros_r. mat_ring. }
  split; [exact inv_eye |].
  split; [rewrite E; exact inv_eye |].
  apply (@single_inclusion_effective_stiffness
           Sample.unit_matrix Sample.stiff_fiber Mat.eye (2 .* Mat.eye)%M
           (1 / 2) 20 Mat.zeros Mat.eye Mat.eye).
  - exact inv_eye.
  - rewrite E; exact inv_eye.
Defined.

(* ================================================================== *)
(** ** Evaluating Python float expressions *)

Lemma py_add_ok (x y : R) : PyFloat.add (Ok x) (Ok y) = Ok (x + y).
Proof. reflexivity. Qed.

Lemma py_sub_ok (x y : R) : PyFloat.sub (Ok x) (Ok y) = Ok (x - y).
Proof. reflexivity. Qed.

Lemma py_mul_ok (x y : R) : PyFloat.mul (Ok x) (Ok y) = Ok (x * y).
Proof. reflexivity. Qed.

Lemma py_neg_ok (x : R) : PyFloat.neg (Ok x) = Ok (- x).
Proof. reflexivity. Qed.

Lemma truediv_ok (x y : R) : y <> 0 -> PyFloat.truediv x y = Ok (x / y).
Proof.
  intro H. unfold PyFloat.truediv.
  destruct (Req_dec_T y 0); [contradiction | reflexivity].
Qed.

Lemma truediv_zero (x : R) : PyFloat.truediv x 0 = Raise ZeroDivisionError.
Proof.
  unfold PyFloat.truediv.
  destruct (Req_dec_T 0 0) as [_ | H]; [reflexivity | now elim H].
Qed.

Lemma py_div_ok (x y : R) :
  y <> 0 -> PyFloat.div (Ok x) (Ok y) = Ok (x / y).
Proof. intro H. unfold PyFloat.div, PyFloat.lift2; simpl. now apply truediv_ok. Qed.

Lemma py_div_zero (x : R) :
  PyFloat.div (Ok x) (Ok 0) = Raise ZeroDivisionError.
Proof. unfold PyFloat.div, PyFloat.lift2; simpl. apply truediv_zero. Qed.

Lemma py_pow_ok (x y : R) :
  0 < x -> PyFloat.pow (Ok x) (Ok y) = Ok (Rpower x y).
Proof.
  intro H. unfold PyFloat.pow, PyFloat.lift2, PyFloat.float_pow; simpl.
  destruct (Rlt_dec 0 x); [reflexivity | contradiction].
Qed.

Lemma py_pow_zero (y : R) :
  0 < y -> PyFloat.pow (Ok 0) (Ok y) = Ok 0.
Proof.
  intro H. unfold PyFloat.pow, PyFloat.lift2, PyFloat.float_pow; simpl.
  destruct (Rlt_dec 0 0) as [F | _]; [lra |].
  destruct (Req_dec_T 0 0) as [_ | F]; [| now elim F].
  destruct (Rlt_dec 0 y); [reflexivity | contradiction].
Qed.

Lemma py_arccosh_ok (x : R) :
  1 <= x -> PyFloat.np_arccosh (Ok x) = Ok (PyFloat.arccosh x).
Proof.
  intro H. unfold PyFloat.np_arccosh; simpl.
  destruct (Rle_dec 1 x); [reflexivity | contradiction].
Qed.

Lemma Rpower_pos (x y : R) : 0 < Rpower x y.
Proof. unfold Rpower. apply exp_pos. Qed.

Lemma Rpower_half (x : R) : 0 < x -> Rpower x (1 / 2) = sqrt x.
Proof.
  intro H. replace (1 / 2) with (/ 2) by lra. now apply Rpower_sqrt.
Qed.

Lemma Rpower_three_halves (x : R) :
  0 < x -> Rpower x (3 / 2) = x * sqrt x.
Proof.
  intro H. replace (3 / 2) with (1 + / 2) by lra.
  rewrite Rpower_plus, Rpower_1, Rpower_sqrt by assumption. reflexivity.
Qed.

(** side conditions of the rewriting lemmas above *)
Ltac py_side :=
  match goal with
  | |- ?x * ?y <> 0 => apply Rmult_integral_contrapositive_currified; py_side
  | |- Rpower _ _ <> 0 => apply Rgt_not_eq, Rpower_pos
  | |- _ <> _ => first [assumption | lra]
  | |- _ => lra
  end.

Ltac py_eval :=
  unfold PyFloat.const;
  repeat first
    [ rewrite py_add_ok | rewrite py_sub_ok | rewrite py_mul_ok
    | rewrite py_neg_ok
    | rewrite py_div_ok by py_side
    | rewrite py_pow_ok by py_side
    | rewrite py_arccosh_ok by py_side ].

(* ================================================================== *)
(** ** The Eshelby tensor *)

(** one assignment [S[...] = <expression>] of [_get_eshelby], whose
    value is the closed form [c] *)
Ltac eshelby_component c :=
  match goal with
  | |- bind ?e _ = _ =>
      let E := fresh "E" in
      assert (E : e = Ok c)
        by (py_eval; f_equal;
            unfold Spec.S1111, Spec.S2222, Spec.S2233, Spec.S2211,
              Spec.S1122, Spec.S2323, Spec.S1212;
            field; lra);
      rewrite E; cbn [bind]; clear E
  end.

(** Where the closed form is defined, [_get_eshelby] builds the tensor
    [Spec.eshelby3333] and returns it in the form asked for. *)
Lemma get_eshelby_eval (matrix : Material) (a : R) (return_dim : string) :
  1 < a -> nu matrix <> 1 ->
  MoriTanaka._get_eshelby matrix a return_dim
  = Ok (if String.eqb return_dim "66"
        then Some (Arr66 (Spec.eshelby66 (nu matrix) a))
        else if String.eqb return_dim "3333"
             then Some (Arr3333 (Spec.eshelby3333 (nu matrix) a))
             else None).
Proof.
  intros Ha Hnu.
  assert (HA2 : 0 < a ^ 2 - 1) by nra.
  assert (Hnu' : 1 - nu matrix <> 0) by (intro; apply Hnu; lra).
  unfold MoriTanaka._get_eshelby. cbv zeta.
  assert (Hg : (a / (a ^ 2 - 1) ** (3 / 2)
                * (a * (a ^ 2 - 1) ** (1 / 2) - PyFloat.np_arccosh a))%py
               = Ok (Spec.g a)).
  { py_eval. unfold Spec.g. rewrite Rpower_half by assumption. reflexivity. }
  rewrite Hg; cbn [bind]. clear Hg.
  set (n := nu matrix) in *.
  eshelby_component (Spec.S1111 n a).
  eshelby_component (Spec.S2222 n a).
  eshelby_component (Spec.S2233 n a).
  eshelby_component (Spec.S2211 n a).
  eshelby_component (Spec.S1122 n a).
  eshelby_component (Spec.S2323 n a).
  eshelby_component (Spec.S1212 n a).
  assert (ES : forall S : T3333, S = Spec.eshelby3333 n a ->
     (if (return_dim =? "66")%string
      then Ok (Some (Arr66 (Tensor.tensor2mandel S)))
      else if (return_dim =? "3333")%string
           then Ok (Some (Arr3333 S)) else Ok None)
     = Ok (if (return_dim =? "66")%string
           then Some (Arr66 (Spec.eshelby66 n a))
           else if (return_dim =? "3333")%string
                then Some (Arr3333 (Spec.eshelby3333 n a)) else None)).
  { intros S ->. unfold Spec.eshelby66.
    destruct (return_dim =? "66")%string; [reflexivity |].
    destruct (return_dim =? "3333")%string; reflexivity. }
  apply ES. clear ES.
  unfold Spec.eshelby3333.
  generalize (Spec.S1111 n a) (Spec.S2222 n a) (Spec.S2233 n a)
    (Spec.S2211 n a) (Spec.S1122 n a) (Spec.S2323 n a) (Spec.S1212 n a).
  intros x1 x2 x3 x4 x5 x6 x7.
  apply ten_ext; intros i j k l.
  destruct i, j, k, l; reflexivity.
Qed.

Lemma shape_function_closed_form (a : R) :
  1 < a ->
  Spec.g a
  = a / ((a ^ 2 - 1) * sqrt (a ^ 2 - 1))
    * (a * sqrt (a ^ 2 - 1) - ln (a + sqrt (a * a - 1))).
Proof.
  intro Ha. unfold Spec.g, PyFloat.arccosh.
  rewrite Rpower_three_halves by nra. reflexivity.
Qed.

(** C4, as amended. For a Poisson ratio in [0, 1/2) and an aspect
    ratio above 1 the full-form Eshelby tensor of [_get_eshelby] carries
    the closed forms of the seven families S1111, S2222 = S3333,
    S2233 = S3322, S2211 = S3311, S1122 = S1133, S2323 = S3232 and
    S1212 = S1313 in a^2, nu and the shape function g(a) at the thirteen
    listed positions, and zero at every other position. Nothing is said
    on whether a listed component is zero. *)
Theorem eshelby_components :
  forall (matrix : Material) (a : R),
    0 <= nu matrix < 1 / 2 -> 1 < a ->
    exists S : T3333,
      MoriTanaka._get_eshelby matrix a "3333" = Ok (Some (Arr3333 S))
      /\ S i0 i0 i0 i0 = Spec.S1111 (nu matrix) a
      /\ (S i1 i1 i1 i1 = Spec.S2222 (nu matrix) a
          /\ S i2 i2 i2 i2 = S i1 i1 i1 i1)
      /\ (S i1 i1 i2 i2 = Spec.S2233 (nu matrix) a
          /\ S i2 i2 i1 i1 = S i1 i1 i2 i2)
      /\ (S i1 i1 i0 i0 = Spec.S2211 (nu matrix) a
          /\ S i2 i2 i0 i0 = S i1 i1 i0 i0)
      /\ (S i0 i0 i1 i1 = Spec.S1122 (nu matrix) a
          /\ S i0 i0 i2 i2 = S i0 i0 i1 i1)
      /\ (S i1 i2 i1 i2 = Spec.S2323 (nu matrix) a
          /\ S i2 i1 i2 i1 = S i1 i2 i1 i2)
      /\ (S i0 i1 i0 i1 = Spec.S1212 (nu matrix) a
          /\ S i0 i2 i0 i2 = S i0 i1 i0 i1)
      /\ (forall i j k l,
             ~ In (i, j, k, l) Spec.eshelby_support -> S i j k l = 0)
      /\ Spec.g a
         = a / ((a ^ 2 - 1) * sqrt (a ^ 2 - 1))
           * (a * sqrt (a ^ 2 - 1) - ln (a + sqrt (a * a - 1))).
Proof.
  intros matrix a Hnu Ha.
  exists (Spec.eshelby3333 (nu matrix) a).
  split.
  { rewrite get_eshelby_eval by lra. reflexivity. }
  repeat (split; [first [reflexivity | split; reflexivity] |]).
  split; [| now apply shape_function_closed_form].
  intros i j k l Hout.
  destruct i, j, k, l; try reflexivity;
    exfalso; apply Hout; simpl; tauto.
Qed.

Lemma eshelby_components_witness :
  0 <= nu Sample.unit_matrix < 1 / 2
  /\ 1 < 2
  /\ exists S : T3333,
      MoriTanaka._get_eshelby Sample.unit_matrix 2 "3333"
      = Ok (Some (Arr3333 S))
      /\ S i0 i0 i0 i0 = Spec.S1111 0 2
      /\ S i0 i1 i1 i0 = 0.
Proof.
  assert (Hnu : 0 <= nu Sample.unit_matrix < 1 / 2) by (simpl; lra).
  assert (Ha : 1 < 2) by lra.
  split; [exact Hnu |]. split; [exact Ha |].
  destruct (@eshelby_components Sample.unit_matrix 2 Hnu Ha)
    as (S & HS & H1111 & _ & _ & _ & _ & _ & _ & Hzero & _).
  exists S. split; [exact HS |]. split; [exact H1111 |].
  apply Hzero. simpl. intuition congruence.
Defined.

(* ================================================================== *)
(** ** The [return_dim] flag *)

(** C10, as amended. For an aspect ratio above 1 (and a Poisson ratio
    other than 1), [_get_eshelby] with a flag other than "66" and "3333"
    returns [None] without raising; with "3333" it returns the full
    array and with "66" the reduced form of that same array. *)
Theorem eshelby_return_dim :
  forall (matrix : Material) (a : R) (return_dim : string),
    1 < a -> nu matrix <> 1 ->
    (return_dim <> "66"%string -> return_dim <> "3333"%string ->
     MoriTanaka._get_eshelby matrix a return_dim = Ok None)
    /\ exists S : T3333,
        MoriTanaka._get_eshelby matrix a "3333" = Ok (Some (Arr3333 S))
        /\ MoriTanaka._get_eshelby matrix a "66"
           = Ok (Some (Arr66 (Tensor.tensor2mandel S))).
Proof.
  intros matrix a return_dim Ha Hnu. split.
  - intros H66 H3333. rewrite get_eshelby_eval by assumption.
    apply String.eqb_neq in H66, H3333. now rewrite H66, H3333.
  - exists (Spec.eshelby3333 (nu matrix) a).
    split; rewrite get_eshelby_eval by assumption; reflexivity.
Qed.

Lemma eshelby_return_dim_witness :
  1 < 20
  /\ nu Sample.unit_matrix <> 1
  /\ MoriTanaka._get_eshelby Sample.unit_matrix 20 "6x6" = Ok None.
Proof.
  assert (Ha : 1 < 20) by lra.
  assert (Hnu : nu Sample.unit_matrix <> 1) by (simpl; lra).
  split; [exact Ha |]. split; [exact Hnu |].
  apply (proj1 (@eshelby_return_dim Sample.unit_matrix 20 "6x6" Ha Hnu));
    discriminate.
Defined.

(** C10 as stated fails for the sphere: with aspect ratio 1 the shape
    function divides by (a^2 - 1)^(3/2) = 0, so the call raises
    [ZeroDivisionError] whatever the flag, and [None] is not returned. *)
Lemma eshelby_sphere_raises :
  MoriTanaka._get_eshelby Sample.unit_matrix 1 "6x6"
  = Raise ZeroDivisionError
  /\ MoriTanaka._get_eshelby Sample.unit_matrix 1 "6x6" <> Ok None.
Proof.
  assert (E : MoriTanaka._get_eshelby Sample.unit_matrix 1 "6x6"
              = Raise ZeroDivisionError).
  { unfold MoriTanaka._get_eshelby. cbv zeta. unfold PyFloat.const.
    rewrite !py_sub_ok. replace (1 ^ 2 - 1) with 0 by ring.
    rewrite (@py_div_ok 3 2) by lra.
    rewrite py_pow_zero by lra.
    rewrite py_div_zero. reflexivity. }
  split; [exact E | rewrite E; discriminate].
Qed.

(* ================================================================== *)
(** ** Orientation averaging *)

(** the tensor [get_orientation_average] builds, entry by entry, for any
    3x3 array [N2] *)
Lemma orientation_average_entries (C : T3333) (N2 : M33) (N4 : T3333)
  (i j k l : I3) :
  MoriTanaka.get_orientation_average C N2 (Arr3333 N4) i j k l
  = Spec.b1 C * N4 i j k l
    + Spec.b2 C * (N2 i j * Spec.delta k l + Spec.delta i j * N2 k l)
    + Spec.b3 C * (N2 i k * Spec.delta j l + N2 i l * Spec.delta j k
                   + Spec.delta i k * N2 j l + Spec.delta i l * N2 k j)
    + Spec.b4 C * (Spec.delta i j * Spec.delta k l)
    + Spec.b5 C * (Spec.delta i k * Spec.delta j l
                   + Spec.delta i l * Spec.delta j k).
Proof.
  unfold MoriTanaka.get_orientation_average, Ten.add, Ten.scal,
    Einsum.ij_kl__ijkl, Einsum.ik_lj__ijkl, Einsum.ik_lj__ijlk,
    Einsum.ik_lj__klij, Spec.b1, Spec.b2, Spec.b3, Spec.b4, Spec.b5.
  cbv beta zeta. change eye3 with Spec.delta.
  assert (D : forall x y, Spec.delta x y = Spec.delta y x)
    by (intros x y; destruct x, y; reflexivity).
  rewrite (D l j), (D k j), (D k i). field.
Qed.

(** C5. For a stiffness tensor C, an orientation tensor N2 (symmetric,
    as every second-order orientation tensor is) and a fourth-order
    orientation tensor N4 in full form, [get_orientation_average]
    returns b1 N4 + b2 (N2 x I + I x N2)
    + b3 (N2_ik d_jl + N2_il d_jk + d_ik N2_jl + d_il N2_jk)
    + b4 (I x I) + b5 (d_ik d_jl + d_il d_jk), with b1..b5 read from C. *)
Theorem orientation_average_formula :
  forall (C : T3333) (N2 : M33) (N4 : T3333),
    Spec.symmetric2 N2 ->
    MoriTanaka.get_orientation_average C N2 (Arr3333 N4)
    = Spec.orientation_average C N2 N4.
Proof.
  intros C N2 N4 Hsym. apply ten_ext; intros i j k l.
  rewrite orientation_average_entries. unfold Spec.orientation_average.
  rewrite (Hsym k j). reflexivity.
Qed.

Lemma N2_aligned_symmetric : Spec.symmetric2 Spec.N2_aligned.
Proof. intros i j; destruct i, j; reflexivity. Qed.

Lemma orientation_average_formula_witness :
  Spec.symmetric2 Spec.N2_aligned
  /\ MoriTanaka.get_orientation_average
       (Spec.ti_form 5 3 1 1 1) Spec.N2_aligned (Arr3333 Spec.N4_aligned)
     = Spec.orientation_average
         (Spec.ti_form 5 3 1 1 1) Spec.N2_aligned Spec.N4_aligned.
Proof.
  split; [exact N2_aligned_symmetric |].
  apply (@orientation_average_formula
           (Spec.ti_form 5 3 1 1 1) Spec.N2_aligned Spec.N4_aligned).
  exact N2_aligned_symmetric.
Defined.

(** *** Transverse isotropy *)

Ltac unpaired :=
  unfold Spec.paired; intros [[? ?] | [[? ?] | [? ?]]]; discriminate.

Lemma ti_form_transversely_isotropic (c1111 c2222 c1122 c2233 c1212 : R) :
  Spec.transversely_isotropic_e1
    (Spec.ti_form c1111 c2222 c1122 c2233 c1212).
Proof.
  constructor; try reflexivity.
  - intros i j k l; destruct i, j, k, l; reflexivity.
  - intros i j k l; destruct i, j, k, l; reflexivity.
  - intros i j k l; destruct i, j, k, l; reflexivity.
  - intros i j k l H.
    destruct i, j, k, l; try reflexivity;
      exfalso; apply H; unfold Spec.paired; intuition congruence.
Qed.

(** a transversely isotropic tensor is determined by its five
    constants *)
Lemma transversely_isotropic_form (C : T3333) :
  Spec.transversely_isotropic_e1 C ->
  C = Spec.ti_form (C i0 i0 i0 i0) (C i1 i1 i1 i1) (C i0 i0 i1 i1)
        (C i1 i1 i2 i2) (C i0 i1 i0 i1).
Proof.
  intros [HL HR HM H2222 H1133 H1313 H2323 Hzero].
  apply ten_ext; intros i j k l.
  assert (tail : forall x y z w v,
             C x y z w = v ->
             (C x y z w = v) /\ (C y x z w = v) /\ (C x y w z = v)
             /\ (C y x w z = v) /\ (C z w x y = v) /\ (C z w y x = v)
             /\ (C w z x y = v) /\ (C w z y x = v)).
  { intros x y z w v E.
    assert (E1 : C y x z w = v) by (rewrite <- HL; exact E).
    assert (E2 : C x y w z = v) by (rewrite <- HR; exact E).
    assert (E3 : C y x w z = v) by (rewrite <- HR; exact E1).
    repeat split; try assumption; rewrite HM; assumption. }
  pose proof (tail i0 i0 i1 i1 _ eq_refl) as T1.
  pose proof (tail i0 i0 i2 i2 _ H1133) as T2.
  pose proof (tail i1 i1 i2 i2 _ eq_refl) as T3.
  pose proof (tail i0 i1 i0 i1 _ eq_refl) as T4.
  pose proof (tail i0 i2 i0 i2 _ H1313) as T5.
  pose proof (tail i1 i2 i1 i2 _ H2323) as T6.
  destruct i, j, k, l; simpl;
    try reflexivity; try exact H2222;
    try (apply Hzero; unpaired); intuition.
Qed.

(** C6. Averaging a tensor that is transversely isotropic about e1 over
    the perfectly aligned distribution N2 = diag(1,0,0), N4 = e1^4
    returns the tensor unchanged. *)
Theorem aligned_average_identity :
  forall C : T3333,
    Spec.transversely_isotropic_e1 C ->
    MoriTanaka.get_orientation_average
      C Spec.N2_aligned (Arr3333 Spec.N4_aligned)
    = C.
Proof.
  intros C HC.
  rewrite (transversely_isotropic_form HC) at 2.
  apply ten_ext; intros i j k l.
  rewrite orientation_average_entries.
  unfold Spec.b1, Spec.b2, Spec.b3, Spec.b4, Spec.b5.
  generalize (C i0 i0 i0 i0) (C i1 i1 i1 i1) (C i0 i0 i1 i1)
    (C i1 i1 i2 i2) (C i0 i1 i0 i1).
  intros c1111 c2222 c1122 c2233 c1212.
  destruct i, j, k, l; cbn; field.
Qed.

Lemma aligned_average_identity_witness :
  Spec.transversely_isotropic_e1 (Spec.ti_form 5 3 1 1 1)
  /\ MoriTanaka.get_orientation_average
       (Spec.ti_form 5 3 1 1 1) Spec.N2_aligned (Arr3333 Spec.N4_aligned)
     = Spec.ti_form 5 3 1 1 1.
Proof.
  split; [apply ti_form_transversely_isotropic |].
  apply (@aligned_average_identity (Spec.ti_form 5 3 1 1 1)).
  apply ti_form_transversely_isotropic.
Defined.

(* ================================================================== *)
(** ** Which exceptions a call can raise *)

Lemma no_assertion_ok {A} (a : A) : no_assertion (Ok a).
Proof. intros msg; discriminate. Qed.

Lemma no_assertion_raise {A} (e : exn) :
  (forall msg, e <> AssertionError msg) -> no_assertion (@Raise A e).
Proof. intros H msg E. injection E as E. exact (H msg E). Qed.

Lemma no_assertion_bind {A B} (c : result A) (k : A -> result B) :
  no_assertion c -> (forall a, no_assertion (k a)) -> no_assertion (bind c k).
Proof.
  intros Hc Hk. destruct c as [a | e]; simpl.
  - apply Hk.
  - intros msg E. injection E as E. apply (Hc msg). now rewrite E.
Qed.

Lemma no_assertion_lift2 (f : R -> R -> PyFloat.t) (x y : PyFloat.t) :
  (forall u v, no_assertion (f u v)) ->
  no_assertion x -> no_assertion y -> no_assertion (PyFloat.lift2 f x y).
Proof.
  intros Hf Hx Hy. unfold PyFloat.lift2.
  apply no_assertion_bind; [exact Hx | intro u].
  apply no_assertion_bind; [exact Hy | intro v]. apply Hf.
Qed.

Lemma no_assertion_truediv (x y : R) : no_assertion (PyFloat.truediv x y).
Proof.
  unfold PyFloat.truediv. destruct (Req_dec_T y 0).
  - apply no_assertion_raise; discriminate.
  - apply no_assertion_ok.
Qed.

Lemma no_assertion_float_pow (x y : R) : no_assertion (PyFloat.float_pow x y).
Proof.
  unfold PyFloat.float_pow.
  repeat match goal with
         | |- no_assertion (if ?c then _ else _) => destruct c
         end;
    first [apply no_assertion_ok | apply no_assertion_raise; discriminate].
Qed.

Lemma no_assertion_arccosh (x : PyFloat.t) :
  no_assertion x -> no_assertion (PyFloat.np_arccosh x).
Proof.
  intro Hx. unfold PyFloat.np_arccosh.
  apply no_assertion_bind; [exact Hx | intro u].
  destruct (Rle_dec 1 u);
    [apply no_assertion_ok | apply no_assertion_raise; discriminate].
Qed.

Lemma no_assertion_neg (x : PyFloat.t) :
  no_assertion x -> no_assertion (PyFloat.neg x).
Proof.
  intro Hx. unfold PyFloat.neg.
  apply no_assertion_bind; [exact Hx | intro u; apply no_assertion_ok].
Qed.

Lemma no_assertion_inv (A : M66) : no_assertion (inv A).
Proof.
  unfold inv. destruct (excluded_middle_informative (invertible A)).
  - apply no_assertion_ok.
  - apply no_assertion_raise; discriminate.
Qed.

Lemma no_assertion_getitem {A} (l : list A) (i : nat) :
  no_assertion (getitem l i).
Proof.
  unfold getitem. destruct (nth_error l i).
  - apply no_assertion_ok.
  - apply no_assertion_raise; discriminate.
Qed.

Lemma no_assertion_as_array66 (v : option ndarray) :
  no_assertion (MoriTanaka.as_array66 v).
Proof.
  destruct v as [[M | T] |]; simpl;
    first [apply no_assertion_ok | apply no_assertion_raise; discriminate].
Qed.

Lemma no_assertion_for_each {St} (range : list nat)
  (body : nat -> St -> result St) (s : St) :
  (forall i s', no_assertion (body i s')) ->
  no_assertion (for_each range body s).
Proof.
  intro Hb. revert s. induction range as [| i rest IH]; intro s; simpl.
  - apply no_assertion_ok.
  - apply no_assertion_bind; [apply Hb | exact IH].
Qed.

Ltac no_assertion_float :=
  repeat first
    [ apply no_assertion_ok
    | apply no_assertion_arccosh
    | apply no_assertion_neg
    | apply no_assertion_lift2;
      [ first [ intros; apply no_assertion_ok
              | exact no_assertion_truediv
              | exact no_assertion_float_pow ] | | ] ].

Lemma no_assertion_get_eshelby (matrix : Material) (a : R) (rd : string) :
  no_assertion (MoriTanaka._get_eshelby matrix a rd).
Proof.
  unfold MoriTanaka._get_eshelby. cbv zeta.
  repeat (apply no_assertion_bind;
          [ unfold PyFloat.const, PyFloat.add, PyFloat.sub, PyFloat.mul,
              PyFloat.div, PyFloat.pow; no_assertion_float
          | intro ]).
  destruct (rd =? "66")%string; [apply no_assertion_ok |].
  destruct (rd =? "3333")%string; apply no_assertion_ok.
Qed.

Lemma no_assertion_get_effective_stiffness (self : MoriTanaka.attrs) :
  no_assertion (MoriTanaka.get_effective_stiffness self).
Proof.
  unfold MoriTanaka.get_effective_stiffness.
  destruct (MoriTanaka.inclusions self).
  - apply no_assertion_bind; [apply no_assertion_inv | intro].
    apply no_assertion_bind; [apply no_assertion_inv | intro].
    apply no_assertion_ok.
  - apply no_assertion_bind.
    + apply no_assertion_for_each. intros i [p q].
      repeat (apply no_assertion_bind;
              [apply no_assertion_getitem | intro]).
      apply no_assertion_ok.
    + intros [p q].
      apply no_assertion_bind; [apply no_assertion_inv | intro].
      apply no_assertion_ok.
Qed.

(* ================================================================== *)
(** ** The dimension check of the constructor *)

(** C7. In multi-inclusion mode, lists that do not all have the same
    length make the constructor fail with the dimension-mismatch
    assertion and produce no object; for lists of equal length that
    error is not raised. *)
Theorem dimension_mismatch :
  forall (matrix : Material) (fiber : list Material)
         (v_frac a_ratio : list R),
    (~ (List.length fiber = List.length v_frac
        /\ List.length v_frac = List.length a_ratio) ->
     MoriTanaka.__init__ matrix (MoriTanaka.Multi fiber v_frac a_ratio)
     = Raise (AssertionError MoriTanaka.dimension_message)
     /\ no_value
          (MoriTanaka.__init__ matrix (MoriTanaka.Multi fiber v_frac a_ratio)))
    /\ (List.length fiber = List.length v_frac ->
        List.length v_frac = List.length a_ratio ->
        no_assertion
          (MoriTanaka.__init__ matrix (MoriTanaka.Multi fiber v_frac a_ratio))).
Proof.
  intros matrix fiber v_frac a_ratio. split.
  - intro Hne.
    assert (E : MoriTanaka.__init__ matrix
                  (MoriTanaka.Multi fiber v_frac a_ratio)
                = Raise (AssertionError MoriTanaka.dimension_message)).
    { unfold MoriTanaka.__init__.
      destruct (Nat.eqb (List.length fiber) (List.length v_frac)) eqn:E1;
        [| reflexivity].
      destruct (Nat.eqb (List.length v_frac) (List.length a_ratio)) eqn:E2;
        [| reflexivity].
      exfalso. apply Hne.
      split; now apply Nat.eqb_eq. }
    split; [exact E | intros o; rewrite E; discriminate].
  - intros H1 H2. unfold MoriTanaka.__init__.
    rewrite H1, H2, !Nat.eqb_refl. cbn [andb].
    apply no_assertion_bind.
    + apply no_assertion_bind; [apply no_assertion_inv | intro Cm_inv].
      apply no_assertion_bind; [| intros [[p q] r]; apply no_assertion_ok].
      apply no_assertion_for_each. intros i [[p q] r].
      apply no_assertion_bind; [apply no_assertion_getitem | intro].
      apply no_assertion_bind; [apply no_assertion_getitem | intro].
      apply no_assertion_bind; [apply no_assertion_get_eshelby | intro].
      apply no_assertion_bind; [apply no_assertion_as_array66 | intro].
      apply no_assertion_bind; [apply no_assertion_inv | intro].
      apply no_assertion_bind; [apply no_assertion_getitem | intro].
      apply no_assertion_bind; [apply no_assertion_truediv | intro].
      apply no_assertion_ok.
    + intro incl.
      apply no_assertion_bind;
        [apply no_assertion_get_effective_stiffness | intro].
      apply no_assertion_ok.
Qed.

Lemma dimension_mismatch_witness :
  (~ (List.length Sample.fibers1 = List.length Sample.v_fracs2
      /\ List.length Sample.v_fracs2 = List.length Sample.a_ratios1))
  /\ MoriTanaka.__init__ Sample.unit_matrix
       (MoriTanaka.Multi Sample.fibers1 Sample.v_fracs2 Sample.a_ratios1)
     = Raise (AssertionError MoriTanaka.dimension_message)
  /\ List.length Sample.fibers1 = List.length Sample.v_fracs1
  /\ List.length Sample.v_fracs1 = List.length Sample.a_ratios1
  /\ no_assertion
       (MoriTanaka.__init__ Sample.unit_matrix
          (MoriTanaka.Multi Sample.fibers1 Sample.v_fracs1 Sample.a_ratios1)).
Proof.
  assert (Hne : ~ (List.length Sample.fibers1 = List.length Sample.v_fracs2
                   /\ List.length Sample.v_fracs2
                      = List.length Sample.a_ratios1))
    by (simpl; lia).
  split; [exact Hne |].
  split.
  { exact (proj1 (proj1 (@dimension_mismatch Sample.unit_matrix
                           Sample.fibers1 Sample.v_fracs2 Sample.a_ratios1)
                        Hne)). }
  split; [reflexivity |]. split; [reflexivity |].
  exact (proj2 (@dimension_mismatch Sample.unit_matrix
                  Sample.fibers1 Sample.v_fracs1 Sample.a_ratios1)
               eq_refl eq_refl).
Defined.

(* ================================================================== *)
(** ** The symmetry check *)

Lemma norm_left_minor (T : T3333) :
  Ten.norm (T - Einsum.ijkl__jikl T)%T = Spec.left_minor_residual T.
Proof.
  unfold Ten.norm, Spec.left_minor_residual, Ten.sum_all, sum3, Ten.sub,
    Einsum.ijkl__jikl.
  f_equal. ring.
Qed.

Lemma norm_right_minor (T : T3333) :
  Ten.norm (T - Einsum.ijkl__ijlk T)%T = Spec.right_minor_residual T.
Proof.
  unfold Ten.norm, Spec.right_minor_residual, Ten.sum_all, sum3, Ten.sub,
    Einsum.ijkl__ijlk.
  f_equal. ring.
Qed.

Lemma norm_major (T : T3333) :
  Ten.norm (T - Einsum.ijkl__klij T)%T = Spec.major_residual T.
Proof.
  unfold Ten.norm, Spec.major_residual, Ten.sum_all, sum3, Ten.sub,
    Einsum.ijkl__klij.
  f_equal. ring.
Qed.

(** C9. [is_symmetric] takes the stored full-form effective stiffness T,
    computes the Frobenius norm of T - swap(T) for the swap inside the
    first index pair, inside the second pair and of the two pairs,
    prints for each "passed" exactly when that norm is below 1e-3 (and
    otherwise "failed" with the norm), and then ends normally: it is a
    total function of the object, with no exceptional outcome. *)
Theorem symmetry_check_report :
  forall o : MoriTanaka.t,
    MoriTanaka.is_symmetric o
    = (Spec.verdict "Left minor symmetry"
         (Spec.left_minor_residual (MoriTanaka.effective_stiffness3333 o))
       ++ Spec.verdict "Right minor symmetry"
            (Spec.right_minor_residual (MoriTanaka.effective_stiffness3333 o))
       ++ Spec.verdict "Major symmetry"
            (Spec.major_residual (MoriTanaka.effective_stiffness3333 o))
       ++ [MoriTanaka.Line MoriTanaka.newline])%list
    /\ (In (MoriTanaka.Line "Left minor symmetry: passed")
           (MoriTanaka.is_symmetric o)
        <-> Spec.left_minor_residual (MoriTanaka.effective_stiffness3333 o)
            < 1 / 1000)
    /\ (In (MoriTanaka.Line "Right minor symmetry: passed")
           (MoriTanaka.is_symmetric o)
        <-> Spec.right_minor_residual (MoriTanaka.effective_stiffness3333 o)
            < 1 / 1000)
    /\ (In (MoriTanaka.Line "Major symmetry: passed")
           (MoriTanaka.is_symmetric o)
        <-> Spec.major_residual (MoriTanaka.effective_stiffness3333 o)
            < 1 / 1000).
Proof.
  intro o.
  assert (E : MoriTanaka.is_symmetric o
    = (Spec.verdict "Left minor symmetry"
         (Spec.left_minor_residual (MoriTanaka.effective_stiffness3333 o))
       ++ Spec.verdict "Right minor symmetry"
            (Spec.right_minor_residual (MoriTanaka.effective_stiffness3333 o))
       ++ Spec.verdict "Major symmetry"
            (Spec.major_residual (MoriTanaka.effective_stiffness3333 o))
       ++ [MoriTanaka.Line MoriTanaka.newline])%list).
  { unfold MoriTanaka.is_symmetric, Spec.verdict, MoriTanaka.tolerance.
    rewrite norm_left_minor, norm_right_minor, norm_major. reflexivity. }
  split; [exact E |].
  rewrite E. unfold Spec.verdict.
  generalize (Spec.left_minor_residual (MoriTanaka.effective_stiffness3333 o))
    (Spec.right_minor_residual (MoriTanaka.effective_stiffness3333 o))
    (Spec.major_residual (MoriTanaka.effective_stiffness3333 o)).
  intros rl rr rm.
  destruct (Rlt_dec rl (1 / 1000)), (Rlt_dec rr (1 / 1000)),
    (Rlt_dec rm (1 / 1000)); simpl;
    repeat split; intro H; try assumption; try tauto;
    repeat (destruct H as [H | H]; try discriminate H); try contradiction.
Qed.

(* ================================================================== *)
(** ** Loops over [range(n)] and list items *)

Lemma bind_ret {A} (c : result A) : (x <- c ;; Ok x) = c.
Proof. destruct c; reflexivity. Qed.

Lemma for_each_app {St} (r1 r2 : list nat) (body : nat -> St -> result St)
  (s : St) :
  for_each (r1 ++ r2) body s = (s' <- for_each r1 body s ;; for_each r2 body s').
Proof.
  revert s. induction r1 as [| i r1 IH]; intro s; simpl; [reflexivity |].
  destruct (body i s); simpl; [apply IH | reflexivity].
Qed.

Lemma fold_steps_app {X St} (step : X -> St -> result St) (l1 l2 : list X)
  (s : St) :
  fold_steps step (l1 ++ l2) s
  = (s' <- fold_steps step l1 s ;; fold_steps step l2 s').
Proof.
  revert s. induction l1 as [| x l1 IH]; intro s; simpl; [reflexivity |].
  destruct (step x s); simpl; [apply IH | reflexivity].
Qed.

(** a loop over the indices of a list whose body reads the item at its
    index is the loop over the items *)
Lemma for_each_seq_fold {X St} (l : list X) (body : nat -> St -> result St)
  (step : X -> St -> result St) :
  (forall i x s, nth_error l i = Some x -> body i s = step x s) ->
  forall s, for_each (seq 0 (List.length l)) body s = fold_steps step l s.
Proof.
  induction l as [| x l IH] using rev_ind; intros Hb s; [reflexivity |].
  rewrite length_app, Nat.add_1_r, seq_S, for_each_app, fold_steps_app.
  rewrite IH.
  - destruct (fold_steps step l s) as [s' |]; simpl; [| reflexivity].
    rewrite (Hb (List.length l) x s'); [reflexivity |].
    rewrite nth_error_app2, Nat.sub_diag by lia. reflexivity.
  - intros i y s' Hi. apply Hb.
    rewrite nth_error_app1; [exact Hi |].
    apply nth_error_Some. congruence.
Qed.

Lemma getitem_map {X Y} (f : X -> Y) (l : list X) (i : nat) (x : X) :
  nth_error l i = Some x -> getitem (map f l) i = Ok (f x).
Proof. intro H. unfold getitem. now rewrite (map_nth_error f _ _ H). Qed.

Lemma getitem_some {X} (l : list X) (i : nat) (x : X) :
  nth_error l i = Some x -> getitem l i = Ok x.
Proof. intro H. unfold getitem. now rewrite H. Qed.

Lemma nth_error_combine_inv {X Y} (l1 : list X) (l2 : list Y) (i : nat)
  (x : X) (y : Y) :
  nth_error (combine l1 l2) i = Some (x, y) ->
  nth_error l1 i = Some x /\ nth_error l2 i = Some y.
Proof.
  revert l2 i. induction l1 as [| a l1 IH]; intros [| b l2] [| i] H;
    simpl in *; try discriminate.
  - injection H as -> ->. now split.
  - now apply IH.
Qed.

Lemma py_sum_sumR (l : list R) : py_sum l = Spec.sumR l.
Proof.
  unfold py_sum.
  assert (G : forall acc, fold_left Rplus l acc = acc + Spec.sumR l).
  { induction l as [| x l IH]; intro acc; simpl; [ring |].
    rewrite IH. ring. }
  rewrite G. ring.
Qed.

(* ================================================================== *)
(** ** Mori-Tanaka with several inclusion types *)

Section MultiInclusion.

Variable matrix : Material.
Variable Cm_inv : M66.
Variable incs : list Spec.inclusion.

Hypothesis nu_ok : nu matrix <> 1.
Hypothesis c_f_ok : Spec.c_f incs <> 0.


Lemma init_loop_steps (l : list Spec.inclusion) (As : list M66) :
  Forall2 (fun inc A => inv (Spec.Ainv_alpha matrix Cm_inv inc) = Ok A) l As ->
  forall A0 P0 C0,
    fold_steps (Loop.init_step matrix Cm_inv incs) l (A0, P0, C0)
    = Ok (A0 ++ As,
          P0 ++ map (Spec.pol_alpha matrix) l,
          C0 ++ map (Spec.c_alpha incs) l).
Proof.
  induction 1 as [| inc A l As HA _ IH]; intros A0 P0 C0; simpl.
  - now rewrite !app_nil_r.
  - rewrite HA; simpl. rewrite IH, <- !app_assoc. reflexivity.
Qed.

Lemma init_loop (As : list M66) :
  Forall (fun inc => 1 < Spec.inc_a inc) incs ->
  Forall2 (fun inc A => inv (Spec.Ainv_alpha matrix Cm_inv inc) = Ok A)
          incs As ->
  for_each (seq 0 (List.length (map Spec.inc_fiber incs)))
    (fun i '(A_f_alpha, pol_alpha, c_alpha) =>
       f <- getitem (map Spec.inc_fiber incs) i ;;
       let Cf_alpha := stiffness66 f in
       let pol := (Cf_alpha - stiffness66 matrix)%M in
       let pol_alpha := pol_alpha ++ [pol] in
       a <- getitem (map Spec.inc_a incs) i ;;
       S <- MoriTanaka._get_eshelby matrix a "66" ;;
       S <- MoriTanaka.as_array66 S ;;
       let A_inv :=
         (Mat.eye + Tensor.tensor_product
                      S (Tensor.tensor_product Cm_inv pol))%M in
       A <- inv A_inv ;;
       let A_f_alpha := A_f_alpha ++ [A] in
       v <- getitem (map Spec.inc_v incs) i ;;
       c <- PyFloat.truediv v (py_sum (map Spec.inc_v incs)) ;;
       let c_alpha := c_alpha ++ [c] in
       Ok (A_f_alpha, pol_alpha, c_alpha))
    ([], [], [])
  = Ok (As, map (Spec.pol_alpha matrix) incs, map (Spec.c_alpha incs) incs).
Proof.
  intros Ha HAs.
  rewrite length_map.
  rewrite (@for_each_seq_fold _ _ incs _ (Loop.init_step matrix Cm_inv incs)).
  - now rewrite (init_loop_steps HAs).
  - intros i inc [[A0 P0] C0] Hi.
    rewrite (getitem_map _ _ _ Hi), (getitem_map _ _ _ Hi),
      (getitem_map _ _ _ Hi). cbn [bind].
    rewrite get_eshelby_eval; [| | exact nu_ok].
    2:{ rewrite Forall_forall in Ha. apply Ha.
        eapply nth_error_In; eassumption. }
    cbn [bind String.eqb Ascii.eqb Bool.eqb MoriTanaka.as_array66].
    unfold Loop.init_step, Tensor.tensor_product.
    rewrite <- mul_assoc.
    change (Mat.eye
            + Spec.eshelby66 (nu matrix) (Spec.inc_a inc) * Cm_inv
              * (stiffness66 (Spec.inc_fiber inc) - stiffness66 matrix))%M
      with (Spec.Ainv_alpha matrix Cm_inv inc).
    destruct (inv (Spec.Ainv_alpha matrix Cm_inv inc)) as [A |];
      [| reflexivity]. cbn [bind].
    rewrite py_sum_sumR. rewrite truediv_ok by exact c_f_ok.
    reflexivity.
Qed.

Lemma ave_loop_steps (l : list (Spec.inclusion * M66)) :
  forall P0 A0,
    fold_steps (Loop.ave_step matrix incs) l (P0, A0)
    = Ok ((P0 + Spec.sumM
                  (map (fun p => (Spec.c_alpha incs (fst p)
                                  .* (Spec.pol_alpha matrix (fst p) * snd p))%M)
                       l))%M,
          (A0 + Spec.sumM
                  (map (fun p => (Spec.c_alpha incs (fst p) .* snd p)%M) l))%M).
Proof.
  induction l as [| p l IH]; intros P0 A0; simpl.
  - now rewrite !add_zeros_r.
  - rewrite IH, !add_assoc. reflexivity.
Qed.

Lemma ave_loop (As : list M66) :
  List.length incs = List.length As ->
  for_each (seq 0 (List.length (map Spec.inc_fiber incs)))
    (fun i '(pol_A_ave, A_ave) =>
       c <- getitem (map (Spec.c_alpha incs) incs) i ;;
       A <- getitem As i ;;
       let A_ave := (A_ave + c .* A)%M in
       c <- getitem (map (Spec.c_alpha incs) incs) i ;;
       pol <- getitem (map (Spec.pol_alpha matrix) incs) i ;;
       A <- getitem As i ;;
       let pol_A_ave :=
         (pol_A_ave + c .* Tensor.tensor_product pol A)%M in
       Ok (pol_A_ave, A_ave))
    (Mat.zeros, Mat.zeros)
  = Ok (Spec.polA_ave matrix incs As, Spec.A_ave incs As).
Proof.
  intro Hlen.
  rewrite length_map.
  replace (List.length incs) with (List.length (combine incs As))
    by (rewrite length_combine; lia).
  rewrite (@for_each_seq_fold _ _ (combine incs As) _ (Loop.ave_step matrix incs)).
  - rewrite ave_loop_steps, !add_zeros_l. reflexivity.
  - intros i [inc A] [P0 A0] Hi.
    apply nth_error_combine_inv in Hi. destruct Hi as [Hi HA].
    rewrite !(getitem_map _ _ _ Hi), (getitem_some _ _ HA). reflexivity.
Qed.

(** the constructor in multi-inclusion mode *)
Lemma init_multi (As : list M66) (X : M66) :
  Forall (fun inc => 1 < Spec.inc_a inc) incs ->
  inv (stiffness66 matrix) = Ok Cm_inv ->
  Forall2 (fun inc A => inv (Spec.Ainv_alpha matrix Cm_inv inc) = Ok A)
          incs As ->
  inv (Spec.c_f incs .* Spec.A_ave incs As
       + (1 - Spec.c_f incs) .* Mat.eye)%M = Ok X ->
  exists o,
    MoriTanaka.__init__ matrix
      (MoriTanaka.Multi (map Spec.inc_fiber incs) (map Spec.inc_v incs)
                        (map Spec.inc_a incs)) = Ok o
    /\ MoriTanaka.effective_stiffness66 o = Spec.Ceff_multi matrix incs As X
    /\ MoriTanaka.effective_stiffness3333 o
       = Tensor.mandel2tensor (Spec.Ceff_multi matrix incs As X).
Proof.
  intros Ha HCm HAs HX.
  pose proof (init_loop Ha HAs) as Einit. cbv zeta in Einit.
  pose proof (ave_loop As (Forall2_length HAs)) as Eave. cbv zeta in Eave.
  assert (Hchk :
    (Nat.eqb (List.length (map Spec.inc_fiber incs))
             (List.length (map Spec.inc_v incs))
     && Nat.eqb (List.length (map Spec.inc_v incs))
                (List.length (map Spec.inc_a incs)))%bool = true)
    by (rewrite !length_map, !Nat.eqb_refl; reflexivity).
  unfold MoriTanaka.__init__. cbv zeta.
  rewrite Hchk, HCm. cbn [bind].
  rewrite Einit. cbn [bind].
  unfold MoriTanaka.get_effective_stiffness.
  cbn [MoriTanaka.inclusions MoriTanaka.Cm MoriTanaka.eye]. cbv zeta.
  rewrite Eave. cbn [bind].
  rewrite py_sum_sumR. fold (Spec.c_f incs).
  rewrite HX. cbn [bind].
  eexists. split; [reflexivity |].
  split; reflexivity.
Qed.

End MultiInclusion.

(** C2. With N inclusion types, given as lists of N materials, volume
    fractions and aspect ratios, the effective stiffness of the
    constructed object is Cm + c_f polA_ave X, where pol_alpha =
    Cf_alpha - Cm, A_alpha is the inverse of I + S_alpha Cm^-1
    pol_alpha for the Eshelby tensor S_alpha of that type's aspect ratio,
    c_f is the sum of the volume fractions, c_alpha = v_alpha / c_f,
    A_ave and polA_ave are the c_alpha-weighted sums of A_alpha and of
    pol_alpha A_alpha, and X is the inverse of c_f A_ave + (1 - c_f) I;
    whenever these inverses exist and the formula is defined (aspect
    ratios above 1, c_f not zero). *)
Theorem multi_inclusion_effective_stiffness :
  forall (matrix : Material) (incs : list Spec.inclusion)
         (Cm_inv : M66) (As : list M66) (X : M66),
    nu matrix <> 1 ->
    Forall (fun inc => 1 < Spec.inc_a inc) incs ->
    Spec.c_f incs <> 0 ->
    inv (stiffness66 matrix) = Ok Cm_inv ->
    Forall2 (fun inc A => inv (Spec.Ainv_alpha matrix Cm_inv inc) = Ok A)
            incs As ->
    inv (Spec.c_f incs .* Spec.A_ave incs As
         + (1 - Spec.c_f incs) .* Mat.eye)%M = Ok X ->
    exists o,
      MoriTanaka.__init__ matrix
        (MoriTanaka.Multi (map Spec.inc_fiber incs) (map Spec.inc_v incs)
                          (map Spec.inc_a incs)) = Ok o
      /\ MoriTanaka.effective_stiffness66 o
         = Spec.Ceff_multi matrix incs As X.
Proof.
  intros matrix incs Cm_inv As X Hnu Ha Hcf HCm HAs HX.
  destruct (@init_multi matrix Cm_inv incs Hnu Hcf As X Ha HCm HAs HX)
    as (o & Ho & E & _).
  exists o. now split.
Qed.

Lemma same_fiber_Ainv_alpha (Cm_inv : M66) (inc : Spec.inclusion) :
  stiffness66 (Spec.inc_fiber inc) = Mat.eye ->
  Spec.Ainv_alpha Sample.unit_matrix Cm_inv inc = Mat.eye.
Proof.
  intro E. unfold Spec.Ainv_alpha, Spec.pol_alpha, Spec.pol. rewrite E. simpl.
  now rewrite sub_self, mul_zeros_r, add_zeros_r.
Qed.

Lemma multi_inclusion_effective_stiffness_witness :
  nu Sample.unit_matrix <> 1
  /\ Forall (fun inc => 1 < Spec.inc_a inc) Sample.two_inclusions
  /\ Spec.c_f Sample.two_inclusions <> 0
  /\ inv (stiffness66 Sample.unit_matrix) = Ok Mat.eye
  /\ Forall2 (fun inc A =>
                inv (Spec.Ainv_alpha Sample.unit_matrix Mat.eye inc) = Ok A)
             Sample.two_inclusions [Mat.eye; Mat.eye]
  /\ inv (Spec.c_f Sample.two_inclusions
          .* Spec.A_ave Sample.two_inclusions [Mat.eye; Mat.eye]
          + (1 - Spec.c_f Sample.two_inclusions) .* Mat.eye)%M = Ok Mat.eye
  /\ exists o,
      MoriTanaka.__init__ Sample.unit_matrix
        (MoriTanaka.Multi (map Spec.inc_fiber Sample.two_inclusions)
                          (map Spec.inc_v Sample.two_inclusions)
                          (map Spec.inc_a Sample.two_inclusions)) = Ok o
      /\ MoriTanaka.effective_stiffness66 o
         = Spec.Ceff_multi Sample.unit_matrix Sample.two_inclusions
             [Mat.eye; Mat.eye] Mat.eye.
Proof.
  assert (H1 : nu Sample.unit_matrix <> 1) by (simpl; lra).
  assert (H2 : Forall (fun inc => 1 < Spec.inc_a inc) Sample.two_inclusions)
    by (repeat constructor; simpl; lra).
  assert (H3 : Spec.c_f Sample.two_inclusions <> 0)
    by (unfold Spec.c_f; simpl; lra).
  assert (H4 : inv (stiffness66 Sample.unit_matrix) = Ok Mat.eye)
    by exact inv_eye.
  assert (H5 : Forall2 (fun inc A =>
                inv (Spec.Ainv_alpha Sample.unit_matrix Mat.eye inc) = Ok A)
             Sample.two_inclusions [Mat.eye; Mat.eye]).
  { repeat constructor;
      (rewrite same_fiber_Ainv_alpha by reflexivity; exact inv_eye). }
  assert (H6 : inv (Spec.c_f Sample.two_inclusions
          .* Spec.A_ave Sample.two_inclusions [Mat.eye; Mat.eye]
          + (1 - Spec.c_f Sample.two_inclusions) .* Mat.eye)%M = Ok Mat.eye).
  { replace (Spec.c_f Sample.two_inclusions
          .* Spec.A_ave Sample.two_inclusions [Mat.eye; Mat.eye]
          + (1 - Spec.c_f Sample.two_inclusions) .* Mat.eye)%M
      with Mat.eye; [exact inv_eye |].
    apply mat_ext; intros i j.
    unfold Spec.A_ave, Spec.c_alpha, Spec.c_f. simpl. mat_unfold. field. }
  repeat (split; [assumption |]).
  exact (@multi_inclusion_effective_stiffness
           Sample.unit_matrix Sample.two_inclusions Mat.eye
           [Mat.eye; Mat.eye] Mat.eye H1 H2 H3 H4 H5 H6).
Defined.

(* ================================================================== *)
(** ** One inclusion type, passed directly or as singleton lists *)

(** the constructor in single-inclusion mode *)
Lemma init_single (matrix fiber : Material) (v a : R) (Cm_inv X : M66) :
  1 < a -> nu matrix <> 1 ->
  inv (stiffness66 matrix) = Ok Cm_inv ->
  inv (v .* Mat.eye
       + (1 - v) .* Spec.Ainv (Spec.eshelby66 (nu matrix) a) Cm_inv
                      (Spec.pol (stiffness66 matrix) (stiffness66 fiber)))%M
  = Ok X ->
  exists o,
    MoriTanaka.__init__ matrix (MoriTanaka.Single fiber v a) = Ok o
    /\ MoriTanaka.effective_stiffness66 o
       = Spec.Ceff_single (stiffness66 matrix) v
           (Spec.pol (stiffness66 matrix) (stiffness66 fiber)) X
    /\ MoriTanaka.effective_stiffness3333 o
       = Tensor.mandel2tensor (MoriTanaka.effective_stiffness66 o).
Proof.
  intros Ha Hnu HCm HX.
  unfold MoriTanaka.__init__. cbv zeta.
  rewrite get_eshelby_eval by assumption.
  cbn [bind String.eqb Ascii.eqb Bool.eqb MoriTanaka.as_array66].
  unfold MoriTanaka.get_effective_stiffness.
  cbn [MoriTanaka.inclusions MoriTanaka.Cm MoriTanaka.eye]. cbv zeta.
  rewrite HCm. cbn [bind].
  unfold Spec.Ainv, Spec.pol, Tensor.tensor_product in *.
  rewrite HX. cbn [bind].
  eexists. split; [reflexivity |]. cbn.
  split; [| reflexivity].
  unfold Spec.Ceff_single. now rewrite mul_scal_l.
Qed.

(** a matrix that commutes with M commutes with the inverse of M *)
Lemma inverse_commutes (M X B : M66) :
  is_inverse M X -> (B * M)%M = (M * B)%M -> (B * X)%M = (X * B)%M.
Proof.
  intros [HMX HXM] Hc.
  rewrite <- (mul_eye_l (B * X)%M), <- HXM.
  rewrite (mul_assoc X M), <- (mul_assoc M B X), <- Hc.
  rewrite (mul_assoc B M X), HMX, mul_eye_r. reflexivity.
Qed.

(** the inverse the multi-inclusion path needs exists as soon as the
    inverses of the single-inclusion path and of Ainv do *)
Lemma singleton_inverse (v : R) (Ainv A X : M66) :
  is_inverse Ainv A ->
  is_inverse (v .* Mat.eye + (1 - v) .* Ainv)%M X ->
  is_inverse (v .* A + (1 - v) .* Mat.eye)%M (Ainv * X)%M.
Proof.
  intros [HAinvA HAAinv] HX.
  assert (Hc : (Ainv * X)%M = (X * Ainv)%M).
  { apply (inverse_commutes HX).
    now rewrite mul_add_l, mul_add_r, !mul_scal_l, !mul_scal_r,
      mul_eye_l, mul_eye_r. }
  destruct HX as [HMX HXM]. split.
  - rewrite <- mul_assoc, mul_add_r, !mul_scal_l, HAAinv, mul_eye_l.
    exact HMX.
  - rewrite Hc, mul_assoc, mul_add_l, !mul_scal_r, HAinvA, mul_eye_r.
    exact HXM.
Qed.

(** C3, as amended. For a volume fraction other than zero, an aspect
    ratio above 1 and materials for which the inverses of Cm, of Ainv and
    of v I + (1 - v) Ainv exist, the constructor called with the singleton
    lists [fiber], [v], [a] and the constructor called with fiber, v, a
    both succeed and yield the same effective stiffness, in the reduced
    and in the full form. The equality is one of exact arithmetic: the
    two constructions invert different matrices, and no bound on the
    difference of their double-precision results follows from it. *)
Theorem single_multi_consistency :
  forall (matrix fiber : Material) (v a : R) (Cm_inv A X : M66),
    1 < a -> nu matrix <> 1 -> v <> 0 ->
    inv (stiffness66 matrix) = Ok Cm_inv ->
    inv (Spec.Ainv (Spec.eshelby66 (nu matrix) a) Cm_inv
           (Spec.pol (stiffness66 matrix) (stiffness66 fiber))) = Ok A ->
    inv (v .* Mat.eye
         + (1 - v) .* Spec.Ainv (Spec.eshelby66 (nu matrix) a) Cm_inv
                        (Spec.pol (stiffness66 matrix) (stiffness66 fiber)))%M
    = Ok X ->
    exists o1 o2,
      MoriTanaka.__init__ matrix (MoriTanaka.Single fiber v a) = Ok o1
      /\ MoriTanaka.__init__ matrix (MoriTanaka.Multi [fiber] [v] [a]) = Ok o2
      /\ MoriTanaka.effective_stiffness66 o1
         = MoriTanaka.effective_stiffness66 o2
      /\ MoriTanaka.effective_stiffness3333 o1
         = MoriTanaka.effective_stiffness3333 o2.
Proof.
  intros matrix fiber v a Cm_inv A X Ha Hnu Hv HCm HA HX.
  destruct (@init_single matrix fiber v a Cm_inv X Ha Hnu HCm HX)
    as (o1 & Ho1 & E1 & T1).
  set (inc := {| Spec.inc_fiber := fiber; Spec.inc_v := v; Spec.inc_a := a |}).
  set (Ai := Spec.Ainv (Spec.eshelby66 (nu matrix) a) Cm_inv
               (Spec.pol (stiffness66 matrix) (stiffness66 fiber))) in *.
  assert (EAi : Spec.Ainv_alpha matrix Cm_inv inc = Ai).
  { unfold Spec.Ainv_alpha, Ai, Spec.Ainv, Spec.pol_alpha. simpl.
    now rewrite mul_assoc. }
  assert (Hcf : Spec.c_f [inc] = v) by (unfold Spec.c_f; simpl; ring).
  assert (Hc : Spec.c_alpha [inc] inc = 1).
  { unfold Spec.c_alpha. rewrite Hcf. simpl. now field. }
  assert (HAave : Spec.A_ave [inc] [A] = A).
  { unfold Spec.A_ave. simpl. now rewrite Hc, scal_one, add_zeros_r. }
  assert (HpolA : Spec.polA_ave matrix [inc] [A]
                  = (Spec.pol (stiffness66 matrix) (stiffness66 fiber) * A)%M).
  { unfold Spec.polA_ave. simpl.
    now rewrite Hc, scal_one, add_zeros_r. }
  pose proof (@singleton_inverse v Ai A X (@inv_Ok _ _ HA) (@inv_Ok _ _ HX)) as Hinv.
  destruct (@init_multi matrix Cm_inv [inc] Hnu) with (As := [A])
    (X := (Ai * X)%M) as (o2 & Ho2 & E2 & T2).
  - rewrite Hcf. exact Hv.
  - repeat constructor. exact Ha.
  - exact HCm.
  - repeat constructor. rewrite EAi. exact HA.
  - rewrite Hcf, HAave. apply inv_intro. exact Hinv.
  - assert (E : MoriTanaka.effective_stiffness66 o1
                = MoriTanaka.effective_stiffness66 o2).
    { rewrite E1, E2. unfold Spec.Ceff_multi, Spec.Ceff_single.
      rewrite Hcf, HpolA. f_equal.
      rewrite !mul_scal_l. f_equal.
      rewrite mul_assoc, <- (mul_assoc A Ai X).
      destruct (@inv_Ok _ _ HA) as [_ HAAi]. now rewrite HAAi, mul_eye_l. }
    exists o1, o2. repeat split; try assumption.
    rewrite T1, T2, <- E2, E. reflexivity.
Qed.

Lemma same_fiber_Ainv (S Cm_inv : M66) :
  Spec.Ainv S Cm_inv (Spec.pol Mat.eye Mat.eye) = Mat.eye.
Proof.
  unfold Spec.Ainv, Spec.pol.
  now rewrite sub_self, !mul_zeros_r, add_zeros_r.
Qed.

Lemma single_multi_consistency_witness :
  1 < 20
  /\ nu Sample.unit_matrix <> 1
  /\ 1 / 2 <> 0
  /\ inv (stiffness66 Sample.unit_matrix) = Ok Mat.eye
  /\ inv (Spec.Ainv (Spec.eshelby66 (nu Sample.unit_matrix) 20) Mat.eye
            (Spec.pol (stiffness66 Sample.unit_matrix)
                      (stiffness66 Sample.same_fiber))) = Ok Mat.eye
  /\ inv ((1 / 2) .* Mat.eye
          + (1 - 1 / 2)
            .* Spec.Ainv (Spec.eshelby66 (nu Sample.unit_matrix) 20) Mat.eye
                 (Spec.pol (stiffness66 Sample.unit_matrix)
                           (stiffness66 Sample.same_fiber)))%M = Ok Mat.eye
  /\ exists o1 o2,
      MoriTanaka.__init__ Sample.unit_matrix
        (MoriTanaka.Single Sample.same_fiber (1 / 2) 20) = Ok o1
      /\ MoriTanaka.__init__ Sample.unit_matrix
           (MoriTanaka.Multi [Sample.same_fiber] [1 / 2] [20]) = Ok o2
      /\ MoriTanaka.effective_stiffness66 o1
         = MoriTanaka.effective_stiffness66 o2.
Proof.
  assert (H1 : 1 < 20) by lra.
  assert (H2 : nu Sample.unit_matrix <> 1) by (simpl; lra).
  assert (H3 : 1 / 2 <> 0) by lra.
  assert (H4 : inv (stiffness66 Sample.unit_matrix) = Ok Mat.eye)
    by exact inv_eye.
  assert (H5 : inv (Spec.Ainv (Spec.eshelby66 (nu Sample.unit_matrix) 20)
                      Mat.eye
                      (Spec.pol (stiffness66 Sample.unit_matrix)
                                (stiffness66 Sample.same_fiber)))
               = Ok Mat.eye).
  { simpl. rewrite same_fiber_Ainv. exact inv_eye. }
  assert (H6 : inv ((1 / 2) .* Mat.eye
          + (1 - 1 / 2)
            .* Spec.Ainv (Spec.eshelby66 (nu Sample.unit_matrix) 20) Mat.eye
                 (Spec.pol (stiffness66 Sample.unit_matrix)
                           (stiffness66 Sample.same_fiber)))%M = Ok Mat.eye).
  { simpl. rewrite same_fiber_Ainv.
    replace ((1 / 2) .* Mat.eye + (1 - 1 / 2) .* Mat.eye)%M with Mat.eye
      by (apply mat_ext; intros; mat_unfold; field).
    exact inv_eye. }
  repeat (split; [assumption |]).
  destruct (@single_multi_consistency Sample.unit_matrix Sample.same_fiber
              (1 / 2) 20 Mat.eye Mat.eye Mat.eye H1 H2 H3 H4 H5 H6)
    as (o1 & o2 & Ho1 & Ho2 & E & _).
  exists o1, o2. repeat split; assumption.
Defined.

(** C3 as stated fails at volume fraction zero: every inverse the two
    paths need exists, the single-inclusion constructor returns Cm, and
    the constructor called with singleton lists raises
    [ZeroDivisionError] in c_alpha = v / c_f. *)
Lemma single_multi_zero_fraction :
  inv (stiffness66 Sample.unit_matrix) = Ok Mat.eye
  /\ inv (Spec.Ainv (Spec.eshelby66 (nu Sample.unit_matrix) 20) Mat.eye
            (Spec.pol (stiffness66 Sample.unit_matrix)
                      (stiffness66 Sample.same_fiber))) = Ok Mat.eye
  /\ inv (0 .* Mat.eye
          + (1 - 0)
            .* Spec.Ainv (Spec.eshelby66 (nu Sample.unit_matrix) 20) Mat.eye
                 (Spec.pol (stiffness66 Sample.unit_matrix)
                           (stiffness66 Sample.same_fiber)))%M = Ok Mat.eye
  /\ (exists o1,
        MoriTanaka.__init__ Sample.unit_matrix
          (MoriTanaka.Single Sample.same_fiber 0 20) = Ok o1
        /\ MoriTanaka.effective_stiffness66 o1 = stiffness66 Sample.unit_matrix)
  /\ MoriTanaka.__init__ Sample.unit_matrix
       (MoriTanaka.Multi [Sample.same_fiber] [0] [20])
     = Raise ZeroDivisionError.
Proof.
  assert (Hnu : nu Sample.unit_matrix <> 1) by (simpl; lra).
  assert (H6 : inv (0 .* Mat.eye
          + (1 - 0)
            .* Spec.Ainv (Spec.eshelby66 (nu Sample.unit_matrix) 20) Mat.eye
                 (Spec.pol (stiffness66 Sample.unit_matrix)
                           (stiffness66 Sample.same_fiber)))%M = Ok Mat.eye).
  { simpl. rewrite same_fiber_Ainv.
    replace (0 .* Mat.eye + (1 - 0) .* Mat.eye)%M with Mat.eye
      by (apply mat_ext; intros; mat_unfold; ring).
    exact inv_eye. }
  split; [exact inv_eye |].
  split; [simpl; rewrite same_fiber_Ainv; exact inv_eye |].
  split; [exact H6 |].
  split.
  - destruct (@init_single Sample.unit_matrix Sample.same_fiber 0 20
                Mat.eye Mat.eye ltac:(lra) Hnu inv_eye H6)
      as (o1 & Ho1 & E1 & _).
    exists o1. split; [exact Ho1 |].
    rewrite E1. unfold Spec.Ceff_single. simpl.
    now rewrite scal_zero, mul_zeros_l, add_zeros_r.
  - unfold MoriTanaka.__init__. cbv zeta.
    cbn [List.length Nat.eqb andb stiffness66 Sample.unit_matrix].
    rewrite inv_eye.
    cbn [bind seq for_each getitem nth_error Sample.same_fiber stiffness66].
    rewrite get_eshelby_eval by (simpl; lra).
    cbn [bind String.eqb Ascii.eqb Bool.eqb MoriTanaka.as_array66].
    unfold Tensor.tensor_product.
    rewrite sub_self, !mul_zeros_r, add_zeros_r, inv_eye.
    cbn [bind].
    replace (py_sum [0]) with 0 by (unfold py_sum; simpl; ring).
    rewrite truediv_zero. reflexivity.
Qed.

(* ================================================================== *)
(** ** What a successful multi-inclusion construction has computed *)

(** the first loop of the multi-inclusion constructor, as a fold over
    the inclusion types, whether or not it succeeds *)
Lemma init_loop_fold (matrix : Material) (Cm_inv : M66)
  (incs : list Spec.inclusion) :
  nu matrix <> 1 -> Spec.c_f incs <> 0 ->
  Forall (fun inc => 1 < Spec.inc_a inc) incs ->
  for_each (seq 0 (List.length (map Spec.inc_fiber incs)))
    (fun i '(A_f_alpha, pol_alpha, c_alpha) =>
       f <- getitem (map Spec.inc_fiber incs) i ;;
       a <- getitem (map Spec.inc_a incs) i ;;
       S <- MoriTanaka._get_eshelby matrix a "66" ;;
       S <- MoriTanaka.as_array66 S ;;
       A <- inv (Mat.eye + Tensor.tensor_product
                   S (Tensor.tensor_product Cm_inv
                        (stiffness66 f - stiffness66 matrix)))%M ;;
       v <- getitem (map Spec.inc_v incs) i ;;
       c <- PyFloat.truediv v (py_sum (map Spec.inc_v incs)) ;;
       Ok (A_f_alpha ++ [A],
           pol_alpha ++ [(stiffness66 f - stiffness66 matrix)%M],
           c_alpha ++ [c]))
    ([], [], [])
  = fold_steps (Loop.init_step matrix Cm_inv incs) incs ([], [], []).
Proof.
  intros Hnu Hcf Ha.
  rewrite length_map.
  apply (@for_each_seq_fold _ _ incs _ (Loop.init_step matrix Cm_inv incs)).
  intros i inc [[A0 P0] C0] Hi.
  rewrite (getitem_map _ _ _ Hi), (getitem_map _ _ _ Hi),
    (getitem_map _ _ _ Hi). cbn [bind].
  rewrite get_eshelby_eval; [| | exact Hnu].
  2:{ rewrite Forall_forall in Ha. apply Ha.
      eapply nth_error_In; eassumption. }
  cbn [bind String.eqb Ascii.eqb Bool.eqb MoriTanaka.as_array66].
  unfold Loop.init_step, Tensor.tensor_product.
  rewrite <- mul_assoc.
  change (Mat.eye
          + Spec.eshelby66 (nu matrix) (Spec.inc_a inc) * Cm_inv
            * (stiffness66 (Spec.inc_fiber inc) - stiffness66 matrix))%M
    with (Spec.Ainv_alpha matrix Cm_inv inc).
  destruct (inv (Spec.Ainv_alpha matrix Cm_inv inc)) as [A |];
    [| reflexivity]. cbn [bind].
  rewrite py_sum_sumR. rewrite truediv_ok by exact Hcf.
  reflexivity.
Qed.

(** a successful first loop has inverted every Ainv_alpha *)
Lemma init_steps_inv (matrix : Material) (Cm_inv : M66)
  (incs l : list Spec.inclusion) :
  forall s s',
    fold_steps (Loop.init_step matrix Cm_inv incs) l s = Ok s' ->
    exists As,
      Forall2 (fun inc A => inv (Spec.Ainv_alpha matrix Cm_inv inc) = Ok A)
              l As.
Proof.
  induction l as [| inc l IH]; intros [[A0 P0] C0] s' H.
  - exists []. constructor.
  - simpl in H.
    destruct (inv (Spec.Ainv_alpha matrix Cm_inv inc)) as [A |] eqn:E;
      [| discriminate].
    simpl in H. destruct (IH _ _ H) as [As HAs].
    exists (A :: As). now constructor.
Qed.

(** what a successful multi-inclusion construction has computed *)
Lemma init_multi_inv (matrix : Material) (incs : list Spec.inclusion)
  (o : MoriTanaka.t) :
  nu matrix <> 1 -> Spec.c_f incs <> 0 ->
  Forall (fun inc => 1 < Spec.inc_a inc) incs ->
  MoriTanaka.__init__ matrix
    (MoriTanaka.Multi (map Spec.inc_fiber incs) (map Spec.inc_v incs)
                      (map Spec.inc_a incs)) = Ok o ->
  exists Cm_inv As X,
    inv (stiffness66 matrix) = Ok Cm_inv
    /\ Forall2 (fun inc A => inv (Spec.Ainv_alpha matrix Cm_inv inc) = Ok A)
               incs As
    /\ inv (Spec.c_f incs .* Spec.A_ave incs As
            + (1 - Spec.c_f incs) .* Mat.eye)%M = Ok X
    /\ MoriTanaka.effective_stiffness66 o = Spec.Ceff_multi matrix incs As X.
Proof.
  intros Hnu Hcf Ha Ho.
  destruct (inv (stiffness66 matrix)) as [Cm_inv | e] eqn:HCm.
  2:{ exfalso. revert Ho. unfold MoriTanaka.__init__. cbv zeta.
      rewrite !length_map, !Nat.eqb_refl. cbn [andb].
      rewrite HCm. discriminate. }
  assert (HAs : exists As,
             Forall2 (fun inc A =>
                        inv (Spec.Ainv_alpha matrix Cm_inv inc) = Ok A)
                     incs As).
  { pose proof (@init_loop_fold matrix Cm_inv incs Hnu Hcf Ha) as Efold.
    cbv zeta in Efold.
    destruct (fold_steps (Loop.init_step matrix Cm_inv incs) incs
                ([], [], [])) as [s' | e] eqn:Es.
    - exact (@init_steps_inv matrix Cm_inv incs incs _ _ Es).
    - exfalso. revert Ho. unfold MoriTanaka.__init__. cbv zeta.
      rewrite !length_map, !Nat.eqb_refl. cbn [andb].
      rewrite HCm. cbn [bind].
      rewrite <- (length_map Spec.inc_fiber incs).
      rewrite Efold. discriminate. }
  destruct HAs as [As HAs].
  destruct (inv (Spec.c_f incs .* Spec.A_ave incs As
                 + (1 - Spec.c_f incs) .* Mat.eye)%M) as [X | e] eqn:HX.
  - destruct (@init_multi matrix Cm_inv incs Hnu Hcf As X Ha HCm HAs HX)
      as (o' & Ho' & E & _).
    rewrite Ho in Ho'. injection Ho' as <-.
    exists Cm_inv, As, X. repeat split; assumption.
  - exfalso. revert Ho.
    pose proof (@init_loop matrix Cm_inv incs Hnu Hcf As Ha HAs) as Einit.
    cbv zeta in Einit.
    pose proof (@ave_loop matrix incs As (Forall2_length HAs)) as Eave.
    cbv zeta in Eave.
    unfold MoriTanaka.__init__. cbv zeta.
    rewrite !length_map, !Nat.eqb_refl. cbn [andb].
    rewrite HCm. cbn [bind].
    rewrite <- (length_map Spec.inc_fiber incs).
    rewrite Einit. cbn [bind].
    unfold MoriTanaka.get_effective_stiffness.
    cbn [MoriTanaka.inclusions MoriTanaka.Cm MoriTanaka.eye]. cbv zeta.
    rewrite Eave. cbn [bind].
    rewrite py_sum_sumR. fold (Spec.c_f incs).
    rewrite HX. discriminate.
Qed.

(* ================================================================== *)
(** ** Elastic symmetries of the results *)











(** *** Major symmetry of the single-inclusion result *)


(** *** The orientation average *)




(** for Poisson ratio 0 the reduced Eshelby tensor is a symmetric
    matrix *)
Lemma eshelby66_symmetric_nu0 (a : R) :
  1 < a -> Mat.symmetric (Spec.eshelby66 0 a).
Proof.
  intro Ha.
  assert (E : Spec.S1122 0 a = Spec.S2211 0 a).
  { unfold Spec.S1122, Spec.S2211. field. nra. }
  intros i j. unfold Spec.eshelby66, Tensor.tensor2mandel, Spec.eshelby3333.
  destruct i, j; cbn [Tensor.pair_of fst snd Tensor.factor Tensor.is_shear];
    rewrite ?E; reflexivity.
Qed.


(* ================================================================== *)
(** ** Isotropic matrix materials *)












(* ================================================================== *)
(** ** Major symmetry with one aspect ratio for all inclusion types *)








(* ================================================================== *)
(** ** The shape function at the aspect ratio 13/5 *)

Lemma shape_function_13_5 :
  Spec.g (13 / 5) = 325 / 1728 * (156 / 25 - ln 5).
Proof.
  assert (Hs : sqrt (144 / 25) = 12 / 5).
  { replace (144 / 25) with ((12 / 5) * (12 / 5)) by lra.
    apply sqrt_square. lra. }
  unfold Spec.g, PyFloat.arccosh.
  replace ((13 / 5) ^ 2 - 1) with (144 / 25) by lra.
  replace (13 / 5 * (13 / 5) - 1) with (144 / 25) by lra.
  rewrite Rpower_three_halves by lra. rewrite Hs.
  replace (13 / 5 + 12 / 5) with 5 by lra.
  field.
Qed.




Lemma lt_div (a n d : R) : 0 < d -> a * d < n -> a < n / d.
Proof.
  intros Hd H. apply Rmult_lt_reg_r with d; [exact Hd |].
  unfold Rdiv. rewrite Rmult_assoc, Rinv_l, Rmult_1_r by lra. exact H.
Qed.


(* ================================================================== *)
(** ** Numerical bounds *)

Lemma exp_square (x : R) : exp (x + x) = exp x * exp x.
Proof. apply exp_plus. Qed.

Lemma ln_5_fine_bounds : 3 / 2 < ln 5 < 9 / 5.
Proof.
  split.
  - (* exp (3/2) < 5, from exp (3/32) < 32/29 *)
    rewrite <- (ln_exp (3 / 2)).
    apply ln_increasing; [apply exp_pos |].
    assert (H0 : 0 < exp (3 / 32) < 32 / 29).
    { split; [apply exp_pos |].
      assert (H : 1 + - (3 / 32) < exp (- (3 / 32)))
        by (apply exp_ineq1; lra).
      rewrite exp_Ropp in H.
      pose proof (exp_pos (3 / 32)) as Hp.
      assert (Hi : / exp (3 / 32) * exp (3 / 32) = 1)
        by (apply Rinv_l; lra).
      nra. }
    assert (H1 : 0 < exp (3 / 16) < 12177 / 10000).
    { replace (3 / 16) with (3 / 32 + 3 / 32) by lra.
      rewrite exp_square. split; nra. }
    assert (H2 : 0 < exp (3 / 8) < 14828 / 10000).
    { replace (3 / 8) with (3 / 16 + 3 / 16) by lra.
      rewrite exp_square. split; nra. }
    assert (H3 : 0 < exp (3 / 4) < 21988 / 10000).
    { replace (3 / 4) with (3 / 8 + 3 / 8) by lra.
      rewrite exp_square. split; nra. }
    replace (3 / 2) with (3 / 4 + 3 / 4) by lra.
    rewrite exp_square. nra.
  - (* 5 < exp (9/5), from 1 + 9/80 < exp (9/80) *)
    rewrite <- (ln_exp (9 / 5)).
    apply ln_increasing; [lra |].
    assert (H0 : 89 / 80 < exp (9 / 80))
      by (assert (H : 1 + 9 / 80 < exp (9 / 80))
            by (apply exp_ineq1; lra); lra).
    assert (H1 : 12376 / 10000 < exp (9 / 40)).
    { replace (9 / 40) with (9 / 80 + 9 / 80) by lra.
      rewrite exp_square. nra. }
    assert (H2 : 15316 / 10000 < exp (9 / 20)).
    { replace (9 / 20) with (9 / 40 + 9 / 40) by lra.
      rewrite exp_square. nra. }
    assert (H3 : 23457 / 10000 < exp (9 / 10)).
    { replace (9 / 10) with (9 / 20 + 9 / 20) by lra.
      rewrite exp_square. nra. }
    replace (9 / 5) with (9 / 10 + 9 / 10) by lra.
    rewrite exp_square. nra.
Qed.

Lemma shape_function_13_5_fine_bounds :
  835 / 1000 < Spec.g (13 / 5) < 892 / 1000.
Proof.
  rewrite shape_function_13_5. pose proof ln_5_fine_bounds. lra.
Qed.



(* ================================================================== *)
(** ** A listed component that vanishes *)

Lemma vanishing_nu_bounds : 1 / 20 < Sample.vanishing_nu < 3 / 20.
Proof.
  pose proof shape_function_13_5_fine_bounds as [Hl Hu].
  unfold Sample.vanishing_nu.
  assert (Hq : 2 * (169 / 144) / (892 / 1000)
               < 2 * (169 / 144) / Spec.g (13 / 5)
               < 2 * (169 / 144) / (835 / 1000)).
  { unfold Rdiv. split; apply Rmult_lt_compat_l; try lra;
      apply Rinv_lt_contravar; try lra; apply Rmult_lt_0_compat; lra. }
  lra.
Qed.

Lemma vanishing_matrix_consistent :
  Spec.consistent_isotropic Sample.vanishing_matrix
    (Sample.vanishing_nu / (1 - 2 * Sample.vanishing_nu)) (1 / 2).
Proof.
  pose proof vanishing_nu_bounds as [H0' H1].
  assert (H0 : 0 <= Sample.vanishing_nu) by lra.
  assert (Hl : 0 <= Sample.vanishing_nu / (1 - 2 * Sample.vanishing_nu)).
  { apply Rmult_le_pos; [exact H0 |].
    apply Rlt_le, Rinv_0_lt_compat. lra. }
  split; [reflexivity |]. split; [| split; lra].
  unfold Spec.poisson. simpl. field. lra.
Qed.

(** C4 as stated fails in the word non-zero: for the aspect ratio 13/5
    there is a Poisson ratio between 0.05 and 0.15, so in [0, 1/2), of
    an isotropic matrix, at which the listed components S2211 = S3311
    of the tensor that [_get_eshelby] returns are zero. *)
Lemma eshelby_vanishing_component :
  0 <= nu Sample.vanishing_matrix < 1 / 2
  /\ 1 < 13 / 5
  /\ 1 / 20 < nu Sample.vanishing_matrix < 3 / 20
  /\ exists S : T3333,
      MoriTanaka._get_eshelby Sample.vanishing_matrix (13 / 5) "3333"
      = Ok (Some (Arr3333 S))
      /\ In (i1, i1, i0, i0) Spec.eshelby_support
      /\ S i1 i1 i0 i0 = 0
      /\ S i2 i2 i0 i0 = 0.
Proof.
  pose proof vanishing_nu_bounds as Hnu.
  split; [simpl; lra |]. split; [lra |].
  split; [exact Hnu |].
  exists (Spec.eshelby3333 (nu Sample.vanishing_matrix) (13 / 5)).
  split.
  { rewrite get_eshelby_eval by (simpl; lra). reflexivity. }
  split; [simpl; tauto |].
  assert (E : Spec.S2211 Sample.vanishing_nu (13 / 5) = 0).
  { pose proof shape_function_13_5_fine_bounds as [Hl Hu].
    unfold Spec.S2211, Sample.vanishing_nu.
    generalize dependent (Spec.g (13 / 5)). intros g Hl Hu.
    field. repeat split; lra. }
  split; exact E.
Qed.

(* ================================================================== *)
(** ** An asymmetric effective stiffness from admissible inputs *)
















(* ================================================================== *)
(** * Further properties of the code *)

(** ** The Eshelby tensor *)

(** X1. For an aspect ratio above 1 and a Poisson ratio other than 1 the
    tensor built by [_get_eshelby] satisfies the two trace identities of
    an Eshelby tensor: the sum of all S[i,i,j,j] is (1 + nu)/(1 - nu),
    and S1111 + S2222 + S3333 + 2 (S2323 + S1313 + S1212) is 3; the
    shape function cancels in both. *)
Theorem eshelby_trace_identities :
  forall (matrix : Material) (a : R),
    1 < a -> nu matrix <> 1 ->
    exists S : T3333,
      MoriTanaka._get_eshelby matrix a "3333" = Ok (Some (Arr3333 S))
      /\ sum3 (fun i => sum3 (fun j => S i i j j))
         = (1 + nu matrix) / (1 - nu matrix)
      /\ S i0 i0 i0 i0 + S i1 i1 i1 i1 + S i2 i2 i2 i2
         + 2 * (S i1 i2 i1 i2 + S i0 i2 i0 i2 + S i0 i1 i0 i1) = 3.
Proof.
  intros matrix a Ha Hnu.
  exists (Spec.eshelby3333 (nu matrix) a).
  split; [rewrite get_eshelby_eval by assumption; reflexivity |].
  assert (H1 : 1 - nu matrix <> 0) by (intro; apply Hnu; lra).
  assert (H2 : a ^ 2 - 1 <> 0) by nra.
  unfold sum3, Spec.eshelby3333, Spec.S1111, Spec.S2222, Spec.S2233,
    Spec.S2211, Spec.S1122, Spec.S2323, Spec.S1212.
  split; field; split; assumption.
Qed.

Lemma eshelby_trace_identities_witness :
  1 < 20
  /\ nu Sample.soft_matrix <> 1
  /\ exists S : T3333,
      MoriTanaka._get_eshelby Sample.soft_matrix 20 "3333"
      = Ok (Some (Arr3333 S))
      /\ sum3 (fun i => sum3 (fun j => S i i j j)) = (1 + 1 / 4) / (1 - 1 / 4).
Proof.
  assert (Ha : 1 < 20) by lra.
  assert (Hnu : nu Sample.soft_matrix <> 1) by (simpl; lra).
  split; [exact Ha |]. split; [exact Hnu |].
  destruct (@eshelby_trace_identities Sample.soft_matrix 20 Ha Hnu)
    as (S & HS & Htr & _).
  exists S. split; [exact HS | exact Htr].
Defined.

(** X2. [_get_eshelby] raises [ZeroDivisionError], whatever the flag,
    when the aspect ratio is 1 or -1 (the shape function divides by
    (a^2 - 1)^(3/2) = 0), and when the aspect ratio is above 1 and the
    Poisson ratio of the matrix is 1 (the first component divides by
    2 (1 - nu)). *)
Theorem eshelby_division_by_zero :
  forall (matrix : Material) (a : R) (return_dim : string),
    a = 1 \/ a = -1 \/ (1 < a /\ nu matrix = 1) ->
    MoriTanaka._get_eshelby matrix a return_dim = Raise ZeroDivisionError.
Proof.
  intros matrix a rd H.
  unfold MoriTanaka._get_eshelby. cbv zeta. unfold PyFloat.const.
  destruct H as [-> | [-> | [Ha Hnu]]].
  - rewrite !py_sub_ok. replace (1 ^ 2 - 1) with 0 by ring.
    rewrite (@py_div_ok 3 2) by lra.
    rewrite py_pow_zero by lra. rewrite py_div_zero. reflexivity.
  - rewrite !py_sub_ok. replace ((-1) ^ 2 - 1) with 0 by ring.
    rewrite (@py_div_ok 3 2) by lra.
    rewrite py_pow_zero by lra. rewrite py_div_zero. reflexivity.
  - assert (HA2 : 0 < a ^ 2 - 1) by nra.
    assert (Hg : (Ok a / (Ok (a ^ 2) - Ok 1) ** (Ok 3 / Ok 2)
                  * (Ok a * (Ok (a ^ 2) - Ok 1) ** (Ok 1 / Ok 2)
                     - PyFloat.np_arccosh (Ok a)))%py
                 = Ok (Spec.g a)).
    { py_eval. unfold Spec.g. rewrite Rpower_half by assumption.
      reflexivity. }
    rewrite Hg. cbn [bind]. rewrite Hnu.
    rewrite !py_sub_ok. replace (1 - 1) with 0 by ring.
    rewrite py_mul_ok. replace (2 * 0) with 0 by ring.
    rewrite py_div_zero. reflexivity.
Qed.

Lemma eshelby_division_by_zero_witness :
  (1 = 1 \/ 1 = -1 \/ (1 < 1 /\ nu Sample.unit_matrix = 1))
  /\ MoriTanaka._get_eshelby Sample.unit_matrix 1 "66"
     = Raise ZeroDivisionError.
Proof.
  assert (H : 1 = 1 \/ 1 = -1 \/ (1 < 1 /\ nu Sample.unit_matrix = 1))
    by (left; reflexivity).
  split; [exact H |].
  exact (@eshelby_division_by_zero Sample.unit_matrix 1 "66" H).
Defined.

(* ================================================================== *)
(** ** Limits and errors of the Mori-Tanaka constructor *)

(** the constructor in single-inclusion mode, once the Eshelby tensor
    is evaluated *)
Lemma init_single_eval (matrix fiber : Material) (v a : R) :
  1 < a -> nu matrix <> 1 ->
  MoriTanaka.__init__ matrix (MoriTanaka.Single fiber v a)
  = (Cm_inv <- inv (stiffness66 matrix) ;;
     X <- inv (v .* Mat.eye
               + (1 - v) .* Spec.Ainv (Spec.eshelby66 (nu matrix) a) Cm_inv
                              (Spec.pol (stiffness66 matrix)
                                        (stiffness66 fiber)))%M ;;
     let C := (stiffness66 matrix
               + v .* (Spec.pol (stiffness66 matrix) (stiffness66 fiber)
                       * X))%M in
     Ok {| MoriTanaka.self :=
             {| MoriTanaka.matrix := matrix;
                MoriTanaka.Cm := stiffness66 matrix;
                MoriTanaka.eye := Mat.eye;
                MoriTanaka.inclusions :=
                  MoriTanaka.SingleAttrs fiber (stiffness66 fiber) v a
                    (Spec.eshelby66 (nu matrix) a) |};
           MoriTanaka.effective_stiffness66 := C;
           MoriTanaka.effective_stiffness3333 := Tensor.mandel2tensor C |}).
Proof.
  intros Ha Hnu.
  unfold MoriTanaka.__init__. cbv zeta.
  rewrite get_eshelby_eval by assumption.
  cbn [bind String.eqb Ascii.eqb Bool.eqb MoriTanaka.as_array66].
  unfold MoriTanaka.get_effective_stiffness.
  cbn [MoriTanaka.inclusions MoriTanaka.Cm MoriTanaka.eye]. cbv zeta.
  destruct (inv (stiffness66 matrix)) as [Cm_inv |]; [| reflexivity].
  cbn [bind]. unfold Spec.Ainv, Spec.pol, Tensor.tensor_product.
  match goal with
  | |- context [inv ?M] => destruct (inv M) as [X |]; reflexivity
  end.
Qed.

(** X3. In single-inclusion mode a volume fraction of 1 gives the fiber
    stiffness: whenever the Eshelby tensor exists and Cm has an inverse,
    construction succeeds and the effective stiffness is Cf. *)
Theorem single_full_fraction :
  forall (matrix fiber : Material) (a : R),
    1 < a -> nu matrix <> 1 -> invertible (stiffness66 matrix) ->
    exists o,
      MoriTanaka.__init__ matrix (MoriTanaka.Single fiber 1 a) = Ok o
      /\ MoriTanaka.effective_stiffness66 o = stiffness66 fiber.
Proof.
  intros matrix fiber a Ha Hnu [Cm_inv HCm].
  rewrite init_single_eval by assumption.
  rewrite (inv_intro HCm). cbn [bind].
  match goal with
  | |- context [inv ?M] => replace M with Mat.eye
  end.
  2:{ apply mat_ext; intros; mat_unfold; ring. }
  rewrite inv_eye. cbn [bind]. eexists. split; [reflexivity |].
  cbn. unfold Spec.pol. rewrite mul_eye_r.
  apply mat_ext; intros; mat_unfold; ring.
Qed.

Lemma single_full_fraction_witness :
  1 < 20
  /\ nu Sample.unit_matrix <> 1
  /\ invertible (stiffness66 Sample.unit_matrix)
  /\ exists o,
      MoriTanaka.__init__ Sample.unit_matrix
        (MoriTanaka.Single Sample.stiff_fiber 1 20) = Ok o
      /\ MoriTanaka.effective_stiffness66 o = stiffness66 Sample.stiff_fiber.
Proof.
  assert (Ha : 1 < 20) by lra.
  assert (Hnu : nu Sample.unit_matrix <> 1) by (simpl; lra).
  assert (Hinv : invertible (stiffness66 Sample.unit_matrix))
    by (exists Mat.eye; split; apply mul_eye_l).
  repeat (split; [assumption |]).
  exact (@single_full_fraction Sample.unit_matrix Sample.stiff_fiber 20
           Ha Hnu Hinv).
Defined.

(** X4. In single-inclusion mode a volume fraction of 0 gives the matrix
    stiffness when Ainv = I + S (Cm^-1 pol) has an inverse, and raises
    [LinAlgError] when Ainv is singular, although the result would not
    depend on it. *)
Theorem single_zero_fraction :
  forall (matrix fiber : Material) (a : R) (Cm_inv : M66),
    1 < a -> nu matrix <> 1 ->
    inv (stiffness66 matrix) = Ok Cm_inv ->
    (invertible (Spec.Ainv (Spec.eshelby66 (nu matrix) a) Cm_inv
                   (Spec.pol (stiffness66 matrix) (stiffness66 fiber))) ->
     exists o,
       MoriTanaka.__init__ matrix (MoriTanaka.Single fiber 0 a) = Ok o
       /\ MoriTanaka.effective_stiffness66 o = stiffness66 matrix)
    /\ (~ invertible (Spec.Ainv (Spec.eshelby66 (nu matrix) a) Cm_inv
                        (Spec.pol (stiffness66 matrix) (stiffness66 fiber))) ->
        MoriTanaka.__init__ matrix (MoriTanaka.Single fiber 0 a)
        = Raise LinAlgError).
Proof.
  intros matrix fiber a Cm_inv Ha Hnu HCm.
  rewrite init_single_eval by assumption.
  rewrite HCm. cbn [bind].
  match goal with
  | |- context [inv (0 .* Mat.eye + (1 - 0) .* ?A)%M] =>
      replace (0 .* Mat.eye + (1 - 0) .* A)%M with A
        by (apply mat_ext; intros; mat_unfold; ring)
  end.
  split.
  - intros [X HX]. rewrite (inv_intro HX). cbn [bind].
    eexists. split; [reflexivity |]. cbn.
    apply mat_ext; intros; mat_unfold; ring.
  - intro Hsing. rewrite (inv_singular Hsing). reflexivity.
Qed.

Lemma single_zero_fraction_witness :
  1 < 20
  /\ nu Sample.unit_matrix <> 1
  /\ inv (stiffness66 Sample.unit_matrix) = Ok Mat.eye
  /\ invertible (Spec.Ainv (Spec.eshelby66 (nu Sample.unit_matrix) 20)
                   Mat.eye
                   (Spec.pol (stiffness66 Sample.unit_matrix)
                             (stiffness66 Sample.same_fiber)))
  /\ exists o,
      MoriTanaka.__init__ Sample.unit_matrix
        (MoriTanaka.Single Sample.same_fiber 0 20) = Ok o
      /\ MoriTanaka.effective_stiffness66 o = stiffness66 Sample.unit_matrix.
Proof.
  assert (Ha : 1 < 20) by lra.
  assert (Hnu : nu Sample.unit_matrix <> 1) by (simpl; lra).
  assert (HA : invertible
                 (Spec.Ainv (Spec.eshelby66 (nu Sample.unit_matrix) 20)
                    Mat.eye
                    (Spec.pol (stiffness66 Sample.unit_matrix)
                              (stiffness66 Sample.same_fiber)))).
  { simpl. rewrite same_fiber_Ainv. exists Mat.eye. split; apply mul_eye_l. }
  split; [exact Ha |]. split; [exact Hnu |]. split; [exact inv_eye |].
  split; [exact HA |].
  exact (proj1 (@single_zero_fraction Sample.unit_matrix Sample.same_fiber
                  20 Mat.eye Ha Hnu inv_eye) HA).
Defined.

(** X5. A fiber with the stiffness of the matrix changes nothing: in
    single-inclusion mode the effective stiffness is Cm for every
    volume fraction. *)
Theorem single_no_contrast :
  forall (matrix fiber : Material) (v a : R),
    1 < a -> nu matrix <> 1 -> invertible (stiffness66 matrix) ->
    stiffness66 fiber = stiffness66 matrix ->
    exists o,
      MoriTanaka.__init__ matrix (MoriTanaka.Single fiber v a) = Ok o
      /\ MoriTanaka.effective_stiffness66 o = stiffness66 matrix.
Proof.
  intros matrix fiber v a Ha Hnu [Cm_inv HCm] Hsame.
  rewrite init_single_eval by assumption.
  rewrite (inv_intro HCm). cbn [bind].
  unfold Spec.Ainv, Spec.pol. rewrite Hsame, sub_self, !mul_zeros_r,
    add_zeros_r.
  replace (v .* Mat.eye + (1 - v) .* Mat.eye)%M with Mat.eye
    by (apply mat_ext; intros; mat_unfold; ring).
  rewrite inv_eye. cbn [bind]. eexists. split; [reflexivity |]. cbn.
  rewrite mul_zeros_l. apply mat_ext; intros; mat_unfold; ring.
Qed.

Lemma single_no_contrast_witness :
  1 < 20
  /\ nu Sample.unit_matrix <> 1
  /\ invertible (stiffness66 Sample.unit_matrix)
  /\ stiffness66 Sample.same_fiber = stiffness66 Sample.unit_matrix
  /\ exists o,
      MoriTanaka.__init__ Sample.unit_matrix
        (MoriTanaka.Single Sample.same_fiber (1 / 3) 20) = Ok o
      /\ MoriTanaka.effective_stiffness66 o = stiffness66 Sample.unit_matrix.
Proof.
  assert (Ha : 1 < 20) by lra.
  assert (Hnu : nu Sample.unit_matrix <> 1) by (simpl; lra).
  assert (Hinv : invertible (stiffness66 Sample.unit_matrix))
    by (exists Mat.eye; split; apply mul_eye_l).
  repeat (split; [first [assumption | reflexivity] |]).
  exact (@single_no_contrast Sample.unit_matrix Sample.same_fiber (1 / 3) 20
           Ha Hnu Hinv eq_refl).
Defined.

(** X6. A singular matrix stiffness makes construction fail with
    [LinAlgError]: in multi-inclusion mode for all lists of equal
    length, whatever they hold, since Cm is inverted before the loop;
    in single-inclusion mode once the Eshelby tensor has been
    computed. *)
Theorem singular_matrix_stiffness :
  forall (matrix : Material),
    ~ invertible (stiffness66 matrix) ->
    (forall (fiber : list Material) (v_frac a_ratio : list R),
        List.length fiber = List.length v_frac ->
        List.length v_frac = List.length a_ratio ->
        MoriTanaka.__init__ matrix (MoriTanaka.Multi fiber v_frac a_ratio)
        = Raise LinAlgError)
    /\ (forall (fiber : Material) (v a : R),
           1 < a -> nu matrix <> 1 ->
           MoriTanaka.__init__ matrix (MoriTanaka.Single fiber v a)
           = Raise LinAlgError).
Proof.
  intros matrix Hsing. split.
  - intros fiber v_frac a_ratio H1 H2.
    unfold MoriTanaka.__init__. cbv zeta.
    rewrite H1, H2, !Nat.eqb_refl. cbn [andb].
    rewrite (inv_singular Hsing). reflexivity.
  - intros fiber v a Ha Hnu.
    rewrite init_single_eval by assumption.
    rewrite (inv_singular Hsing). reflexivity.
Qed.

Lemma zeros_not_invertible : ~ invertible Mat.zeros.
Proof.
  intros [B [H _]]. rewrite mul_zeros_l in H.
  assert (E : Mat.zeros m0 m0 = Mat.eye m0 m0) by now rewrite H.
  unfold Mat.zeros, Mat.eye in E. simpl in E. lra.
Qed.

Lemma singular_matrix_stiffness_witness :
  ~ invertible (stiffness66 {| stiffness66 := Mat.zeros; nu := 0 |})
  /\ MoriTanaka.__init__ {| stiffness66 := Mat.zeros; nu := 0 |}
       (MoriTanaka.Multi Sample.fibers1 Sample.v_fracs1 Sample.a_ratios1)
     = Raise LinAlgError.
Proof.
  assert (H : ~ invertible
                (stiffness66 {| stiffness66 := Mat.zeros; nu := 0 |}))
    by exact zeros_not_invertible.
  split; [exact H |].
  exact (proj1 (@singular_matrix_stiffness
                  {| stiffness66 := Mat.zeros; nu := 0 |} H)
           Sample.fibers1 Sample.v_fracs1 Sample.a_ratios1
           eq_refl eq_refl).
Defined.

(** X7. With empty lists the multi-inclusion constructor succeeds,
    provided Cm has an inverse, and the effective stiffness is Cm. *)
Theorem multi_empty_lists :
  forall (matrix : Material),
    invertible (stiffness66 matrix) ->
    exists o,
      MoriTanaka.__init__ matrix (MoriTanaka.Multi [] [] []) = Ok o
      /\ MoriTanaka.effective_stiffness66 o = stiffness66 matrix.
Proof.
  intros matrix [Cm_inv HCm].
  unfold MoriTanaka.__init__. cbv zeta.
  cbn [List.length Nat.eqb andb]. rewrite (inv_intro HCm).
  cbn [bind seq for_each].
  unfold MoriTanaka.get_effective_stiffness.
  cbn [MoriTanaka.inclusions MoriTanaka.Cm MoriTanaka.eye]. cbv zeta.
  cbn [bind seq for_each].
  replace (py_sum []) with 0 by reflexivity.
  replace (0 .* Mat.zeros + (1 - 0) .* Mat.eye)%M with Mat.eye
    by (apply mat_ext; intros; mat_unfold; ring).
  rewrite inv_eye. cbn [bind]. eexists. split; [reflexivity |]. cbn.
  unfold Tensor.tensor_product. rewrite scal_zeros, mul_zeros_l.
  apply add_zeros_r.
Qed.

Lemma multi_empty_lists_witness :
  invertible (stiffness66 Sample.unit_matrix)
  /\ exists o,
      MoriTanaka.__init__ Sample.unit_matrix (MoriTanaka.Multi [] [] [])
      = Ok o
      /\ MoriTanaka.effective_stiffness66 o = stiffness66 Sample.unit_matrix.
Proof.
  assert (Hinv : invertible (stiffness66 Sample.unit_matrix))
    by (exists Mat.eye; split; apply mul_eye_l).
  split; [exact Hinv |].
  exact (@multi_empty_lists Sample.unit_matrix Hinv).
Defined.

(* ================================================================== *)
(** ** The order and the grouping of inclusion types *)

Lemma sumR_perm (l l' : list R) :
  Permutation l l' -> Spec.sumR l = Spec.sumR l'.
Proof.
  induction 1; simpl; lra || congruence.
Qed.

Lemma sumM_perm (l l' : list M66) :
  Permutation l l' -> Spec.sumM l = Spec.sumM l'.
Proof.
  induction 1; simpl.
  - reflexivity.
  - now rewrite IHPermutation.
  - rewrite <- !add_assoc. f_equal. apply add_comm.
  - congruence.
Qed.

Lemma c_f_perm (incs incs' : list Spec.inclusion) :
  Permutation incs incs' -> Spec.c_f incs = Spec.c_f incs'.
Proof.
  intro H. unfold Spec.c_f. apply sumR_perm. now apply Permutation_map.
Qed.

(** the weighted sums over the inclusion types, with each strain
    concentration tensor read off its type *)
Lemma map_combine_inverses (matrix : Material) (Cm_inv : M66)
  (h : Spec.inclusion * M66 -> M66) (l : list Spec.inclusion)
  (As : list M66) :
  Forall2 (fun inc A => inv (Spec.Ainv_alpha matrix Cm_inv inc) = Ok A)
          l As ->
  map h (combine l As)
  = map (fun inc =>
           h (inc, match inv (Spec.Ainv_alpha matrix Cm_inv inc) with
                   | Ok A => A
                   | Raise _ => Mat.zeros
                   end)) l.
Proof.
  induction 1 as [| inc A l As HA _ IH]; simpl; [reflexivity |].
  now rewrite HA, IH.
Qed.

Lemma inverses_exist_perm (matrix : Material) (Cm_inv : M66)
  (l l' : list Spec.inclusion) (As : list M66) :
  Permutation l l' ->
  Forall2 (fun inc A => inv (Spec.Ainv_alpha matrix Cm_inv inc) = Ok A)
          l As ->
  exists As',
    Forall2 (fun inc A => inv (Spec.Ainv_alpha matrix Cm_inv inc) = Ok A)
            l' As'.
Proof.
  intros Hp HAs.
  assert (Hall : Forall (fun inc =>
                   exists A, inv (Spec.Ainv_alpha matrix Cm_inv inc) = Ok A)
                        l).
  { clear Hp. induction HAs as [| inc A l0 As0 HA _ IH]; constructor;
      [exists A; exact HA | exact IH]. }
  apply (Permutation_Forall Hp) in Hall.
  clear Hp HAs. induction Hall as [| inc l0 [A HA] _ [As' IH]].
  - exists []. constructor.
  - exists (A :: As'). now constructor.
Qed.

(** X8. The order of the inclusion types does not matter: if the
    multi-inclusion constructor succeeds, it also succeeds when the
    three lists are reordered by one common permutation, with the same
    effective stiffness. *)
Theorem inclusion_order_irrelevant :
  forall (matrix : Material) (incs incs' : list Spec.inclusion)
         (o : MoriTanaka.t),
    Permutation incs incs' ->
    nu matrix <> 1 -> Spec.c_f incs <> 0 ->
    Forall (fun inc => 1 < Spec.inc_a inc) incs ->
    MoriTanaka.__init__ matrix
      (MoriTanaka.Multi (map Spec.inc_fiber incs) (map Spec.inc_v incs)
                        (map Spec.inc_a incs)) = Ok o ->
    exists o',
      MoriTanaka.__init__ matrix
        (MoriTanaka.Multi (map Spec.inc_fiber incs') (map Spec.inc_v incs')
                          (map Spec.inc_a incs')) = Ok o'
      /\ MoriTanaka.effective_stiffness66 o'
         = MoriTanaka.effective_stiffness66 o.
Proof.
  intros matrix incs incs' o Hp Hnu Hcf Ha Ho.
  destruct (@init_multi_inv matrix incs o Hnu Hcf Ha Ho)
    as (Cm_inv & As & X & HCm & HAs & HX & E).
  destruct (@inverses_exist_perm matrix Cm_inv incs incs' As Hp HAs)
    as [As' HAs'].
  pose proof (@c_f_perm incs incs' Hp) as Ecf.
  assert (Hcf' : Spec.c_f incs' <> 0) by now rewrite <- Ecf.
  assert (Ha' : Forall (fun inc => 1 < Spec.inc_a inc) incs')
    by exact (Permutation_Forall Hp Ha).
  assert (EA : Spec.A_ave incs' As' = Spec.A_ave incs As).
  { unfold Spec.A_ave.
    rewrite (@map_combine_inverses matrix Cm_inv _ incs As HAs),
      (@map_combine_inverses matrix Cm_inv _ incs' As' HAs').
    unfold Spec.c_alpha. rewrite Ecf. cbn [fst snd].
    apply sumM_perm, Permutation_map, Permutation_sym, Hp. }
  assert (EP : Spec.polA_ave matrix incs' As' = Spec.polA_ave matrix incs As).
  { unfold Spec.polA_ave.
    rewrite (@map_combine_inverses matrix Cm_inv _ incs As HAs),
      (@map_combine_inverses matrix Cm_inv _ incs' As' HAs').
    unfold Spec.c_alpha. rewrite Ecf. cbn [fst snd].
    apply sumM_perm, Permutation_map, Permutation_sym, Hp. }
  assert (HX' : inv (Spec.c_f incs' .* Spec.A_ave incs' As'
                     + (1 - Spec.c_f incs') .* Mat.eye)%M = Ok X)
    by now rewrite EA, <- Ecf.
  destruct (@init_multi matrix Cm_inv incs' Hnu Hcf' As' X Ha' HCm HAs' HX')
    as (o' & Ho' & E' & _).
  exists o'. split; [exact Ho' |].
  rewrite E, E'. unfold Spec.Ceff_multi. now rewrite EP, Ecf.
Qed.

Lemma two_inclusions_constructed :
  exists o,
    MoriTanaka.__init__ Sample.unit_matrix
      (MoriTanaka.Multi (map Spec.inc_fiber Sample.two_inclusions)
                        (map Spec.inc_v Sample.two_inclusions)
                        (map Spec.inc_a Sample.two_inclusions)) = Ok o.
Proof.
  assert (H1 : nu Sample.unit_matrix <> 1) by (simpl; lra).
  assert (H2 : Forall (fun inc => 1 < Spec.inc_a inc) Sample.two_inclusions)
    by (repeat constructor; simpl; lra).
  assert (H3 : Spec.c_f Sample.two_inclusions <> 0)
    by (unfold Spec.c_f; simpl; lra).
  assert (H5 : Forall2 (fun inc A =>
                inv (Spec.Ainv_alpha Sample.unit_matrix Mat.eye inc) = Ok A)
             Sample.two_inclusions [Mat.eye; Mat.eye]).
  { repeat constructor;
      (rewrite same_fiber_Ainv_alpha by reflexivity; exact inv_eye). }
  assert (H6 : inv (Spec.c_f Sample.two_inclusions
          .* Spec.A_ave Sample.two_inclusions [Mat.eye; Mat.eye]
          + (1 - Spec.c_f Sample.two_inclusions) .* Mat.eye)%M = Ok Mat.eye).
  { replace (Spec.c_f Sample.two_inclusions
          .* Spec.A_ave Sample.two_inclusions [Mat.eye; Mat.eye]
          + (1 - Spec.c_f Sample.two_inclusions) .* Mat.eye)%M
      with Mat.eye; [exact inv_eye |].
    apply mat_ext; intros i j.
    unfold Spec.A_ave, Spec.c_alpha, Spec.c_f. simpl. mat_unfold. field. }
  destruct (@init_multi Sample.unit_matrix Mat.eye Sample.two_inclusions
              H1 H3 [Mat.eye; Mat.eye] Mat.eye H2 inv_eye H5 H6)
    as (o & Ho & _).
  now exists o.
Qed.

Lemma inclusion_order_irrelevant_witness :
  Permutation Sample.two_inclusions (rev Sample.two_inclusions)
  /\ nu Sample.unit_matrix <> 1
  /\ Spec.c_f Sample.two_inclusions <> 0
  /\ Forall (fun inc => 1 < Spec.inc_a inc) Sample.two_inclusions
  /\ exists o o',
      MoriTanaka.__init__ Sample.unit_matrix
        (MoriTanaka.Multi (map Spec.inc_fiber Sample.two_inclusions)
                          (map Spec.inc_v Sample.two_inclusions)
                          (map Spec.inc_a Sample.two_inclusions)) = Ok o
      /\ MoriTanaka.__init__ Sample.unit_matrix
           (MoriTanaka.Multi
              (map Spec.inc_fiber (rev Sample.two_inclusions))
              (map Spec.inc_v (rev Sample.two_inclusions))
              (map Spec.inc_a (rev Sample.two_inclusions))) = Ok o'
      /\ MoriTanaka.effective_stiffness66 o'
         = MoriTanaka.effective_stiffness66 o.
Proof.
  assert (Hp : Permutation Sample.two_inclusions
                 (rev Sample.two_inclusions))
    by apply Permutation_rev.
  assert (H1 : nu Sample.unit_matrix <> 1) by (simpl; lra).
  assert (H2 : Spec.c_f Sample.two_inclusions <> 0)
    by (unfold Spec.c_f; simpl; lra).
  assert (H3 : Forall (fun inc => 1 < Spec.inc_a inc) Sample.two_inclusions)
    by (repeat constructor; simpl; lra).
  repeat (split; [assumption |]).
  destruct two_inclusions_constructed as [o Ho].
  destruct (@inclusion_order_irrelevant Sample.unit_matrix
              Sample.two_inclusions (rev Sample.two_inclusions) o
              Hp H1 H2 H3 Ho) as (o' & Ho' & E).
  exists o, o'. repeat split; assumption.
Defined.

(** a weighted sum over copies of one inclusion type *)
Lemma sumM_same_type (fiber : Material) (a c : R)
  (g : Spec.inclusion * M66 -> M66) (B B' : M66) (vs : list R) :
  (forall v, g ({| Spec.inc_fiber := fiber; Spec.inc_v := v;
                   Spec.inc_a := a |}, B) = ((v / c) .* B')%M) ->
  Spec.sumM
    (map g
       (combine
          (map (fun v => {| Spec.inc_fiber := fiber; Spec.inc_v := v;
                            Spec.inc_a := a |}) vs)
          (map (fun _ : R => B) vs)))
  = ((Spec.sumR vs / c) .* B')%M.
Proof.
  intro Hg. induction vs as [| v vs IH]; simpl.
  - apply mat_ext; intros; mat_unfold; unfold Rdiv; ring.
  - rewrite IH, Hg. apply mat_ext; intros; mat_unfold; unfold Rdiv; ring.
Qed.

(** X9. Splitting one inclusion type into several entries with the
    same material and aspect ratio changes nothing: when the volume
    fractions vs do not sum to zero and the inverses of the
    single-inclusion path exist, the multi-inclusion constructor called
    with len(vs) copies of the fiber succeeds with the effective
    stiffness of the single-inclusion constructor called with sum(vs). *)
Theorem equal_inclusions_merge :
  forall (matrix fiber : Material) (vs : list R) (a : R)
         (Cm_inv A X : M66),
    1 < a -> nu matrix <> 1 -> Spec.sumR vs <> 0 ->
    inv (stiffness66 matrix) = Ok Cm_inv ->
    inv (Spec.Ainv (Spec.eshelby66 (nu matrix) a) Cm_inv
           (Spec.pol (stiffness66 matrix) (stiffness66 fiber))) = Ok A ->
    inv (Spec.sumR vs .* Mat.eye
         + (1 - Spec.sumR vs)
           .* Spec.Ainv (Spec.eshelby66 (nu matrix) a) Cm_inv
                (Spec.pol (stiffness66 matrix) (stiffness66 fiber)))%M
    = Ok X ->
    exists o1 o2,
      MoriTanaka.__init__ matrix (MoriTanaka.Single fiber (py_sum vs) a)
      = Ok o1
      /\ MoriTanaka.__init__ matrix
           (MoriTanaka.Multi (map (fun _ => fiber) vs) vs
                             (map (fun _ => a) vs)) = Ok o2
      /\ MoriTanaka.effective_stiffness66 o1
         = MoriTanaka.effective_stiffness66 o2.
Proof.
  intros matrix fiber vs a Cm_inv A X Ha Hnu Hv HCm HA HX.
  rewrite py_sum_sumR.
  destruct (@init_single matrix fiber (Spec.sumR vs) a Cm_inv X Ha Hnu HCm HX)
    as (o1 & Ho1 & E1 & _).
  set (mk := fun v => {| Spec.inc_fiber := fiber; Spec.inc_v := v;
                         Spec.inc_a := a |}).
  set (incs := map mk vs).
  set (Ai := Spec.Ainv (Spec.eshelby66 (nu matrix) a) Cm_inv
               (Spec.pol (stiffness66 matrix) (stiffness66 fiber))) in *.
  assert (EAi : forall v, Spec.Ainv_alpha matrix Cm_inv (mk v) = Ai).
  { intro v. unfold Spec.Ainv_alpha, Ai, Spec.Ainv, Spec.pol_alpha. simpl.
    now rewrite mul_assoc. }
  assert (Ef : map Spec.inc_fiber incs = map (fun _ => fiber) vs)
    by (unfold incs; rewrite map_map; reflexivity).
  assert (Ev : map Spec.inc_v incs = vs)
    by (unfold incs; rewrite map_map; apply map_id).
  assert (Ea : map Spec.inc_a incs = map (fun _ => a) vs)
    by (unfold incs; rewrite map_map; reflexivity).
  assert (Hcf : Spec.c_f incs = Spec.sumR vs)
    by (unfold Spec.c_f; now rewrite Ev).
  assert (Hone : Spec.sumR vs / Spec.sumR vs = 1) by now field.
  assert (HAave : Spec.A_ave incs (map (fun _ => A) vs) = A).
  { unfold Spec.A_ave, incs.
    rewrite (@sumM_same_type fiber a (Spec.sumR vs) _ A A vs).
    - now rewrite Hone, scal_one.
    - intro v. unfold Spec.c_alpha. fold mk. fold incs.
      now rewrite Hcf. }
  assert (HpolA : Spec.polA_ave matrix incs (map (fun _ => A) vs)
                  = (Spec.pol (stiffness66 matrix) (stiffness66 fiber) * A)%M).
  { unfold Spec.polA_ave, incs.
    rewrite (@sumM_same_type fiber a (Spec.sumR vs) _ A
               (Spec.pol (stiffness66 matrix) (stiffness66 fiber) * A)%M vs).
    - now rewrite Hone, scal_one.
    - intro v. unfold Spec.c_alpha. fold mk. fold incs.
      now rewrite Hcf. }
  pose proof (@singleton_inverse (Spec.sumR vs) Ai A X
                (@inv_Ok _ _ HA) (@inv_Ok _ _ HX)) as Hinv.
  destruct (@init_multi matrix Cm_inv incs Hnu) with
    (As := map (fun _ : R => A) vs) (X := (Ai * X)%M)
    as (o2 & Ho2 & E2 & _).
  - now rewrite Hcf.
  - unfold incs. apply Forall_forall. intros inc Hin.
    apply in_map_iff in Hin. destruct Hin as [v [<- _]]. exact Ha.
  - exact HCm.
  - unfold incs. clear - EAi HA. induction vs as [| v vs IH]; simpl;
      constructor; [rewrite EAi; exact HA | exact IH].
  - rewrite Hcf, HAave. apply inv_intro. exact Hinv.
  - rewrite Ef, Ev, Ea in Ho2.
    exists o1, o2. repeat split; try assumption.
    rewrite E1, E2. unfold Spec.Ceff_multi, Spec.Ceff_single.
    rewrite Hcf, HpolA. f_equal.
    rewrite !mul_scal_l. f_equal.
    rewrite mul_assoc, <- (mul_assoc A Ai X).
    destruct (@inv_Ok _ _ HA) as [_ HAAi]. now rewrite HAAi, mul_eye_l.
Qed.

Lemma equal_inclusions_merge_witness :
  1 < 20
  /\ nu Sample.unit_matrix <> 1
  /\ Spec.sumR Sample.v_fracs2 <> 0
  /\ exists o1 o2,
      MoriTanaka.__init__ Sample.unit_matrix
        (MoriTanaka.Single Sample.same_fiber (py_sum Sample.v_fracs2) 20)
      = Ok o1
      /\ MoriTanaka.__init__ Sample.unit_matrix
           (MoriTanaka.Multi [Sample.same_fiber; Sample.same_fiber]
                             Sample.v_fracs2 [20; 20]) = Ok o2
      /\ MoriTanaka.effective_stiffness66 o1
         = MoriTanaka.effective_stiffness66 o2.
Proof.
  assert (H1 : 1 < 20) by lra.
  assert (H2 : nu Sample.unit_matrix <> 1) by (simpl; lra).
  assert (H3 : Spec.sumR Sample.v_fracs2 <> 0) by (simpl; lra).
  assert (H5 : inv (Spec.Ainv (Spec.eshelby66 (nu Sample.unit_matrix) 20)
                      Mat.eye
                      (Spec.pol (stiffness66 Sample.unit_matrix)
                                (stiffness66 Sample.same_fiber)))
               = Ok Mat.eye).
  { simpl. rewrite same_fiber_Ainv. exact inv_eye. }
  assert (H6 : inv (Spec.sumR Sample.v_fracs2 .* Mat.eye
          + (1 - Spec.sumR Sample.v_fracs2)
            .* Spec.Ainv (Spec.eshelby66 (nu Sample.unit_matrix) 20) Mat.eye
                 (Spec.pol (stiffness66 Sample.unit_matrix)
                           (stiffness66 Sample.same_fiber)))%M = Ok Mat.eye).
  { simpl. rewrite same_fiber_Ainv.
    match goal with
    | |- inv ?M = _ => replace M with Mat.eye
    end; [exact inv_eye |].
    apply mat_ext; intros; mat_unfold; field. }
  repeat (split; [assumption |]).
  exact (@equal_inclusions_merge Sample.unit_matrix Sample.same_fiber
           Sample.v_fracs2 20 Mat.eye Mat.eye Mat.eye
           H1 H2 H3 inv_eye H5 H6).
Defined.

(** X10. Volume fractions that sum to zero cannot be used in
    multi-inclusion mode: with lists of equal length that are not
    empty, the first pass of the loop raises [ZeroDivisionError] in
    c_alpha = v / c_f, once Cm and the first Ainv have been inverted. *)
Theorem multi_zero_total_fraction :
  forall (matrix : Material) (inc : Spec.inclusion)
         (incs : list Spec.inclusion) (Cm_inv A : M66),
    1 < Spec.inc_a inc -> nu matrix <> 1 ->
    Spec.c_f (inc :: incs) = 0 ->
    inv (stiffness66 matrix) = Ok Cm_inv ->
    inv (Spec.Ainv_alpha matrix Cm_inv inc) = Ok A ->
    MoriTanaka.__init__ matrix
      (MoriTanaka.Multi (map Spec.inc_fiber (inc :: incs))
                        (map Spec.inc_v (inc :: incs))
                        (map Spec.inc_a (inc :: incs)))
    = Raise ZeroDivisionError.
Proof.
  intros matrix inc incs Cm_inv A Ha Hnu Hcf HCm HA.
  unfold MoriTanaka.__init__. cbv zeta.
  rewrite !length_map, !Nat.eqb_refl. cbn [andb].
  rewrite HCm.
  cbn [bind List.length map seq for_each getitem nth_error].
  rewrite get_eshelby_eval by assumption.
  cbn [bind String.eqb Ascii.eqb Bool.eqb MoriTanaka.as_array66].
  unfold Tensor.tensor_product. rewrite <- mul_assoc.
  change (Mat.eye
          + Spec.eshelby66 (nu matrix) (Spec.inc_a inc) * Cm_inv
            * (stiffness66 (Spec.inc_fiber inc) - stiffness66 matrix))%M
    with (Spec.Ainv_alpha matrix Cm_inv inc).
  rewrite HA. cbn [bind].
  change (Spec.inc_v inc :: map Spec.inc_v incs)
    with (map Spec.inc_v (inc :: incs)).
  rewrite py_sum_sumR. fold (Spec.c_f (inc :: incs)). rewrite Hcf.
  rewrite truediv_zero. reflexivity.
Qed.

Lemma multi_zero_total_fraction_witness :
  1 < 20
  /\ nu Sample.unit_matrix <> 1
  /\ Spec.c_f
       [ {| Spec.inc_fiber := Sample.same_fiber; Spec.inc_v := 0;
            Spec.inc_a := 20 |};
         {| Spec.inc_fiber := Sample.same_fiber; Spec.inc_v := 0;
            Spec.inc_a := 5 |} ] = 0
  /\ MoriTanaka.__init__ Sample.unit_matrix
       (MoriTanaka.Multi [Sample.same_fiber; Sample.same_fiber]
                         [0; 0] [20; 5])
     = Raise ZeroDivisionError.
Proof.
  assert (H1 : 1 < 20) by lra.
  assert (H2 : nu Sample.unit_matrix <> 1) by (simpl; lra).
  assert (H3 : Spec.c_f
       [ {| Spec.inc_fiber := Sample.same_fiber; Spec.inc_v := 0;
            Spec.inc_a := 20 |};
         {| Spec.inc_fiber := Sample.same_fiber; Spec.inc_v := 0;
            Spec.inc_a := 5 |} ] = 0)
    by (unfold Spec.c_f; simpl; lra).
  repeat (split; [assumption |]).
  refine (@multi_zero_total_fraction Sample.unit_matrix
           {| Spec.inc_fiber := Sample.same_fiber; Spec.inc_v := 0;
              Spec.inc_a := 20 |}
           [ {| Spec.inc_fiber := Sample.same_fiber;
                Spec.inc_v := 0; Spec.inc_a := 5 |} ]
           Mat.eye Mat.eye H1 H2 H3 inv_eye _).
  rewrite same_fiber_Ainv_alpha by reflexivity. exact inv_eye.
Defined.

(* ================================================================== *)
(** ** Further properties of the orientation average *)

(** X11. Over the perfectly aligned distribution the orientation
    average of any tensor C is the transversely isotropic tensor built
    from the five entries C[0,0,0,0], C[1,1,1,1], C[0,0,1,1],
    C[1,1,2,2] and C[0,1,0,1] that the function reads; so the result is
    transversely isotropic about e1 whatever C is, and averaging a
    second time changes nothing. *)
Theorem aligned_average_projection :
  forall C : T3333,
    MoriTanaka.get_orientation_average
      C Spec.N2_aligned (Arr3333 Spec.N4_aligned)
    = Spec.ti_form (C i0 i0 i0 i0) (C i1 i1 i1 i1) (C i0 i0 i1 i1)
        (C i1 i1 i2 i2) (C i0 i1 i0 i1)
    /\ Spec.transversely_isotropic_e1
         (MoriTanaka.get_orientation_average
            C Spec.N2_aligned (Arr3333 Spec.N4_aligned))
    /\ MoriTanaka.get_orientation_average
         (MoriTanaka.get_orientation_average
            C Spec.N2_aligned (Arr3333 Spec.N4_aligned))
         Spec.N2_aligned (Arr3333 Spec.N4_aligned)
       = MoriTanaka.get_orientation_average
           C Spec.N2_aligned (Arr3333 Spec.N4_aligned).
Proof.
  assert (P : forall C : T3333,
             MoriTanaka.get_orientation_average
               C Spec.N2_aligned (Arr3333 Spec.N4_aligned)
             = Spec.ti_form (C i0 i0 i0 i0) (C i1 i1 i1 i1) (C i0 i0 i1 i1)
                 (C i1 i1 i2 i2) (C i0 i1 i0 i1)).
  { intro C. apply ten_ext; intros i j k l.
    rewrite orientation_average_entries.
    unfold Spec.b1, Spec.b2, Spec.b3, Spec.b4, Spec.b5.
    generalize (C i0 i0 i0 i0) (C i1 i1 i1 i1) (C i0 i0 i1 i1)
      (C i1 i1 i2 i2) (C i0 i1 i0 i1).
    intros c1111 c2222 c1122 c2233 c1212.
    destruct i, j, k, l; cbn; lra. }
  intro C. split; [apply P |]. split.
  - rewrite P. apply ti_form_transversely_isotropic.
  - rewrite (P C), P. reflexivity.
Qed.

(** X12. An isotropic tensor lambda (I x I) + mu (d_ik d_jl + d_il d_jk)
    is returned unchanged by the orientation average, for every N2 and
    every N4 in either notation. *)
Theorem isotropic_tensor_unchanged :
  forall (lambda mu : R) (N2 : M33) (N4 : ndarray),
    MoriTanaka.get_orientation_average
      (Props.isotropic_form lambda mu) N2 N4
    = Props.isotropic_form lambda mu.
Proof.
  intros lambda mu N2 N4.
  assert (P : forall T : T3333,
             MoriTanaka.get_orientation_average
               (Props.isotropic_form lambda mu) N2 (Arr3333 T)
             = Props.isotropic_form lambda mu).
  { intro T. apply ten_ext; intros i j k l.
    rewrite orientation_average_entries.
    unfold Spec.b1, Spec.b2, Spec.b3, Spec.b4, Spec.b5,
      Props.isotropic_form.
    generalize (T i j k l) (N2 i j) (N2 k l) (N2 i k) (N2 i l) (N2 j l)
      (N2 k j).
    intros t n1 n2 n3 n4 n5 n6.
    destruct i, j, k, l; cbn; lra. }
  destruct N4 as [M | T]; [| apply P].
  exact (P (Tensor.mandel2tensor M)).
Qed.

(** X13. Over the isotropic distribution N2 = I/3,
    N4 = (d_ij d_kl + d_ik d_jl + d_il d_jk)/15 the orientation average
    of any tensor is isotropic, with lambda = b1/15 + 2 b2/3 + b4 and
    mu = b1/15 + 2 b3/3 + b5. *)
Theorem isotropic_average :
  forall C : T3333,
    MoriTanaka.get_orientation_average
      C Props.N2_isotropic (Arr3333 Props.N4_isotropic)
    = Props.isotropic_form
        (Spec.b1 C / 15 + 2 * Spec.b2 C / 3 + Spec.b4 C)
        (Spec.b1 C / 15 + 2 * Spec.b3 C / 3 + Spec.b5 C).
Proof.
  intro C. apply ten_ext; intros i j k l.
  rewrite orientation_average_entries.
  unfold Props.isotropic_form, Props.N2_isotropic, Props.N4_isotropic.
  generalize (Spec.b1 C) (Spec.b2 C) (Spec.b3 C) (Spec.b4 C) (Spec.b5 C).
  intros b1 b2 b3 b4 b5.
  destruct i, j, k, l; cbn; lra.
Qed.

(** X14. The orientation average is linear in the tensor that is
    averaged. *)
Theorem orientation_average_linear :
  forall (x y : R) (C D : T3333) (N2 : M33) (N4 : ndarray),
    MoriTanaka.get_orientation_average (x .* C + y .* D)%T N2 N4
    = (x .* MoriTanaka.get_orientation_average C N2 N4
       + y .* MoriTanaka.get_orientation_average D N2 N4)%T.
Proof.
  intros x y C D N2 N4.
  assert (P : forall T : T3333,
             MoriTanaka.get_orientation_average (x .* C + y .* D)%T N2
               (Arr3333 T)
             = (x .* MoriTanaka.get_orientation_average C N2 (Arr3333 T)
                + y .* MoriTanaka.get_orientation_average D N2 (Arr3333 T))%T).
  { intro T. apply ten_ext; intros i j k l.
    rewrite orientation_average_entries. unfold Ten.add, Ten.scal.
    rewrite !orientation_average_entries.
    unfold Spec.b1, Spec.b2, Spec.b3, Spec.b4, Spec.b5. field. }
  destruct N4 as [M | T]; [| apply P].
  exact (P (Tensor.mandel2tensor M)).
Qed.

(* ================================================================== *)
(** ** Rotating a planar stiffness *)

Lemma cos2_sin2_one (angle : R) : (cos angle ^ 2 + sin angle ^ 2) ^ 2 = 1.
Proof.
  pose proof (sin2_cos2 angle) as H. unfold Rsqr in H.
  replace (cos angle ^ 2 + sin angle ^ 2)
    with (sin angle * sin angle + cos angle * cos angle) by ring.
  rewrite H. ring.
Qed.

Lemma rotation_invariants_eq (Q : M33) (angle : R) :
  Props.invariant1 (Laminate.rotate_stiffness Q angle)
  = Props.planar_invariant1 Q
  /\ Props.invariant2 (Laminate.rotate_stiffness Q angle)
     = Props.planar_invariant2 Q.
Proof.
  pose proof (cos2_sin2_one angle) as H.
  unfold Props.invariant1, Props.invariant2, Props.planar_invariant1,
    Props.planar_invariant2, Laminate.rotate_stiffness, sum4.
  cbv zeta. revert H.
  generalize (cos angle) (sin angle). intros m n H.
  split.
  - match goal with
    | |- ?L = ?R =>
        replace L with (R + ((m ^ 2 + n ^ 2) ^ 2 - 1)
                            * (Q i0 i0 + Q i1 i1 + 2 * Q i0 i1)) by ring
    end.
    rewrite H. ring.
  - match goal with
    | |- ?L = ?R =>
        replace L with (R + ((m ^ 2 + n ^ 2) ^ 2 - 1)
                            * (Q i2 i2 - Q i0 i1)) by ring
    end.
    rewrite H. ring.
Qed.

(** X15. Rotating a lamina by any angle keeps Q11 + Q22 + 2 Q12 and
    Q66 - Q12. *)
Theorem rotation_invariants :
  forall (Q : M33) (angle : R),
    Props.invariant1 (Laminate.rotate_stiffness Q angle)
    = Props.planar_invariant1 Q
    /\ Props.invariant2 (Laminate.rotate_stiffness Q angle)
       = Props.planar_invariant2 Q.
Proof. exact rotation_invariants_eq. Qed.

(** X16. Rotating by 0 returns the components Q11, Q22, Q12, Q66 of the
    lamina with no coupling terms; rotating by pi/2 exchanges Q11 and
    Q22. *)
Theorem rotation_by_right_angles :
  forall (Q : M33),
    (forall k,
        Laminate.rotate_stiffness Q 0 k
        = match k with
          | m0 => Q i0 i0 | m1 => Q i1 i1 | m2 => Q i0 i1 | m3 => Q i2 i2
          | m4 | m5 => 0
          end)
    /\ (forall k,
           Laminate.rotate_stiffness Q (PI / 2) k
           = match k with
             | m0 => Q i1 i1 | m1 => Q i0 i0 | m2 => Q i0 i1 | m3 => Q i2 i2
             | m4 | m5 => 0
             end).
Proof.
  intro Q. split; intro k; unfold Laminate.rotate_stiffness, sum4;
    cbv zeta.
  - rewrite cos_0, sin_0. destruct k; ring.
  - rewrite cos_PI2, sin_PI2. destruct k; ring.
Qed.

Lemma rotate_stiffness_opposite (Q : M33) (angle : R) (k : I6) :
  Laminate.rotate_stiffness Q (- angle) k
  = match k with
    | m4 | m5 => - Laminate.rotate_stiffness Q angle k
    | _ => Laminate.rotate_stiffness Q angle k
    end.
Proof.
  unfold Laminate.rotate_stiffness, sum4. cbv zeta.
  rewrite cos_neg, sin_neg.
  generalize (cos angle) (sin angle). intros m n.
  destruct k; ring.
Qed.

(** X17. The rotated stiffness has period pi in the angle, and the
    opposite angle gives the same Q11, Q22, Q12, Q66 and the opposite
    coupling terms Q16, Q26. *)
Theorem rotation_angle_symmetries :
  forall (Q : M33) (angle : R) (k : I6),
    Laminate.rotate_stiffness Q (angle + PI) k
    = Laminate.rotate_stiffness Q angle k
    /\ Laminate.rotate_stiffness Q (- angle) k
       = match k with
         | m4 | m5 => - Laminate.rotate_stiffness Q angle k
         | _ => Laminate.rotate_stiffness Q angle k
         end.
Proof.
  intros Q angle k. split; [| apply rotate_stiffness_opposite].
  unfold Laminate.rotate_stiffness, sum4. cbv zeta.
  rewrite neg_cos, neg_sin.
  generalize (cos angle) (sin angle). intros m n.
  destruct k; ring.
Qed.

(* ================================================================== *)
(** ** Constructing a laminate *)

Lemma sumR_repeat (w : R) (n : nat) :
  Spec.sumR (map (fun one => w * one) (repeat 1 n)) = w * INR n.
Proof.
  induction n as [| n IH].
  - simpl. ring.
  - cbn [repeat map Spec.sumR fold_right].
    change (fold_right Rplus 0 (map (fun one => w * one) (repeat 1 n)))
      with (Spec.sumR (map (fun one => w * one) (repeat 1 n))).
    rewrite IH, S_INR. ring.
Qed.

(** X18. Without volume fractions the constructor weighs the laminas
    equally: for a list of n > 0 laminas it succeeds, whatever the
    length of the list of angles, with n weights 1/n that sum to 1.
    For an empty list it raises [ZeroDivisionError]. *)
Theorem default_volume_fractions :
  forall (lamina_stiffnesses : list M33) (angles : list R),
    (lamina_stiffnesses <> [] ->
     exists o,
       Laminate.__init__ lamina_stiffnesses angles None = Ok o
       /\ Laminate.lamina_stiffnesses o = lamina_stiffnesses
       /\ Laminate.angles o = angles
       /\ List.length (Laminate.vol_fracs o)
          = List.length lamina_stiffnesses
       /\ Forall (fun w => w = 1 / INR (List.length lamina_stiffnesses))
                 (Laminate.vol_fracs o)
       /\ Spec.sumR (Laminate.vol_fracs o) = 1)
    /\ (lamina_stiffnesses = [] ->
        Laminate.__init__ lamina_stiffnesses angles None
        = Raise ZeroDivisionError).
Proof.
  intros ls angles. split.
  - intro Hne.
    assert (Hn : INR (List.length ls) <> 0).
    { apply not_0_INR. destruct ls; [congruence | discriminate]. }
    unfold Laminate.__init__. rewrite truediv_ok by exact Hn.
    cbn [bind]. eexists. split; [reflexivity |].
    cbn [Laminate.lamina_stiffnesses Laminate.angles Laminate.vol_fracs].
    repeat split.
    + now rewrite length_map, repeat_length.
    + apply Forall_forall. intros w Hw.
      apply in_map_iff in Hw. destruct Hw as [one [<- Hone]].
      apply repeat_spec in Hone. subst one. ring.
    + rewrite sumR_repeat. now field.
  - intros ->. unfold Laminate.__init__. cbn [List.length INR].
    rewrite truediv_zero. reflexivity.
Qed.

Lemma default_volume_fractions_witness :
  (exists o,
      Laminate.__init__ [Props.ply; Props.ply] [0; PI / 2] None = Ok o
      /\ List.length (Laminate.vol_fracs o) = 2%nat
      /\ Spec.sumR (Laminate.vol_fracs o) = 1)
  /\ Laminate.__init__ [] [0; PI / 2] None = Raise ZeroDivisionError.
Proof.
  split.
  - destruct (proj1 (@default_volume_fractions [Props.ply; Props.ply]
                       [0; PI / 2]))
      as (o & Ho & _ & _ & Hlen & _ & Hsum); [discriminate |].
    exists o. repeat split; assumption.
  - exact (proj2 (@default_volume_fractions [] [0; PI / 2]) eq_refl).
Defined.

(* ================================================================== *)
(** ** The stiffness of a laminate *)

(** the loop of [get_effective_stiffness] as a fold over the laminas
    with their angles and volume fractions *)
Lemma laminate_loop_fold (ls : list M33) (angles ws : list R) (s : V6) :
  List.length ls = List.length angles ->
  List.length angles = List.length ws ->
  for_each (seq 0 (List.length ls))
    (fun i (C_eff_temp : V6) =>
       Q <- getitem ls i ;;
       a <- getitem angles i ;;
       w <- getitem ws i ;;
       Ok (fun k => C_eff_temp k + w * Laminate.rotate_stiffness Q a k))
    s
  = fold_steps Props.laminate_step (combine ls (combine angles ws)) s.
Proof.
  intros H1 H2.
  replace (List.length ls)
    with (List.length (combine ls (combine angles ws)))
    by (rewrite !length_combine; lia).
  apply for_each_seq_fold.
  intros i [Q [a w]] s' Hi.
  apply nth_error_combine_inv in Hi. destruct Hi as [HQ Hi].
  apply nth_error_combine_inv in Hi. destruct Hi as [Ha Hw].
  now rewrite (getitem_some _ _ HQ), (getitem_some _ _ Ha),
    (getitem_some _ _ Hw).
Qed.

(** the two invariants accumulate as weighted sums *)
Lemma laminate_steps_invariants (ls : list M33) :
  forall (angles ws : list R) (s : V6),
    List.length ls = List.length angles ->
    List.length angles = List.length ws ->
    exists s',
      fold_steps Props.laminate_step (combine ls (combine angles ws)) s
      = Ok s'
      /\ Props.invariant1 s'
         = Props.invariant1 s
           + Props.weighted_sum Props.planar_invariant1 ws ls
      /\ Props.invariant2 s'
         = Props.invariant2 s
           + Props.weighted_sum Props.planar_invariant2 ws ls.
Proof.
  induction ls as [| Q ls IH]; intros [| a angles] [| w ws] s H1 H2;
    try discriminate.
  - exists s. unfold Props.weighted_sum. simpl.
    repeat split; ring.
  - cbn [combine fold_steps Props.laminate_step bind fst snd].
    destruct (IH angles ws
                (fun k => s k + w * Laminate.rotate_stiffness Q a k))
      as (s' & Es & I1 & I2); [simpl in *; lia | simpl in *; lia |].
    exists s'. split; [exact Es |].
    destruct (rotation_invariants_eq Q a) as [R1 R2].
    rewrite I1, I2. unfold Props.weighted_sum.
    cbn [combine map Spec.sumR fold_right fst snd].
    unfold Props.invariant1, Props.invariant2 in *.
    unfold Spec.sumR. split; [rewrite <- R1 | rewrite <- R2]; ring.
Qed.

(** X19. With volume fractions given, the constructor raises
    [AssertionError] unless the three lists have one length; when they
    have, [get_effective_stiffness] returns a symmetric matrix whose
    Q11 + Q22 + 2 Q12 and Q66 - Q12 are the volume-weighted sums of
    those of the laminas, whatever the angles. *)
Theorem laminate_explicit_fractions :
  forall (lamina_stiffnesses : list M33) (angles vol_fracs : list R),
    (List.length lamina_stiffnesses = List.length angles
     /\ List.length angles = List.length vol_fracs ->
     exists o C,
       Laminate.__init__ lamina_stiffnesses angles (Some vol_fracs) = Ok o
       /\ Laminate.get_effective_stiffness o = Ok C
       /\ Spec.symmetric2 C
       /\ Props.planar_invariant1 C
          = Props.weighted_sum Props.planar_invariant1 vol_fracs
              lamina_stiffnesses
       /\ Props.planar_invariant2 C
          = Props.weighted_sum Props.planar_invariant2 vol_fracs
              lamina_stiffnesses)
    /\ (~ (List.length lamina_stiffnesses = List.length angles
           /\ List.length angles = List.length vol_fracs) ->
        Laminate.__init__ lamina_stiffnesses angles (Some vol_fracs)
        = Raise (AssertionError Laminate.dimension_message)).
Proof.
  intros ls angles ws. split.
  - intros [H1 H2]. unfold Laminate.__init__.
    rewrite H1, H2, !Nat.eqb_refl. cbn [andb].
    exists {| Laminate.lamina_stiffnesses := ls; Laminate.angles := angles;
              Laminate.vol_fracs := ws |}.
    unfold Laminate.get_effective_stiffness.
    cbn [Laminate.lamina_stiffnesses Laminate.angles Laminate.vol_fracs].
    cbv zeta.
    rewrite (@laminate_loop_fold ls angles ws _ H1 H2).
    destruct (@laminate_steps_invariants ls angles ws (fun _ => 0) H1 H2)
      as (s' & Es & I1 & I2).
    rewrite Es. cbn [bind]. eexists. split; [reflexivity |].
    split; [reflexivity |]. split.
    + intros i j. destruct i, j; reflexivity.
    + set (W1 := Props.weighted_sum Props.planar_invariant1 ws ls) in *.
      set (W2 := Props.weighted_sum Props.planar_invariant2 ws ls) in *.
      clearbody W1 W2.
      unfold Props.planar_invariant1, Props.planar_invariant2,
        Props.invariant1, Props.invariant2 in *.
      cbv beta iota. split; lra.
  - intro H. unfold Laminate.__init__.
    destruct (Nat.eqb (List.length ls) (List.length angles)) eqn:E1;
      [| reflexivity].
    destruct (Nat.eqb (List.length angles) (List.length ws)) eqn:E2;
      [| reflexivity].
    exfalso. apply H. split; now apply Nat.eqb_eq.
Qed.

Lemma laminate_explicit_fractions_witness :
  (exists o C,
      Laminate.__init__ [Props.ply; Props.ply] [0; PI / 2]
        (Some [1 / 2; 1 / 2]) = Ok o
      /\ Laminate.get_effective_stiffness o = Ok C
      /\ Spec.symmetric2 C
      /\ Props.planar_invariant1 C
         = Props.weighted_sum Props.planar_invariant1 [1 / 2; 1 / 2]
             [Props.ply; Props.ply])
  /\ Laminate.__init__ [Props.ply; Props.ply] [0] (Some [1 / 2; 1 / 2])
     = Raise (AssertionError Laminate.dimension_message).
Proof.
  split.
  - destruct (proj1 (@laminate_explicit_fractions [Props.ply; Props.ply]
                       [0; PI / 2] [1 / 2; 1 / 2])
                (conj eq_refl eq_refl))
      as (o & C & Ho & HC & Hs & H1 & _).
    exists o, C. repeat split; assumption.
  - apply (proj2 (@laminate_explicit_fractions [Props.ply; Props.ply]
                    [0] [1 / 2; 1 / 2])).
    simpl. intros [H _]. discriminate.
Defined.

Lemma for_each_total {St} (range : list nat)
  (body : nat -> St -> result St) :
  (forall i s, In i range -> exists s', body i s = Ok s') ->
  forall s, exists s', for_each range body s = Ok s'.
Proof.
  induction range as [| i range IH]; intros Hb s; simpl.
  - now exists s.
  - destruct (Hb i s (or_introl eq_refl)) as [s1 E1]. rewrite E1. simpl.
    apply IH. intros j s2 Hj. apply Hb. now right.
Qed.

(** a loop whose body raises at index k, after k passes that succeed *)
Lemma for_each_raise {St} (n k : nat) (body : nat -> St -> result St)
  (e : exn) :
  (k < n)%nat ->
  (forall i s, (i < k)%nat -> exists s', body i s = Ok s') ->
  (forall s, body k s = Raise e) ->
  forall s, for_each (seq 0 n) body s = Raise e.
Proof.
  intros Hk Hok Hraise s.
  replace n with (k + S (n - S k))%nat by lia.
  rewrite seq_app, for_each_app.
  destruct (@for_each_total St (seq 0 k) body) with (s := s) as [s1 E1].
  { intros i s2 Hi. apply Hok. apply in_seq in Hi. lia. }
  rewrite E1. cbn [bind Nat.add seq for_each].
  now rewrite Hraise.
Qed.

Lemma getitem_lt {X} (l : list X) (i : nat) :
  (i < List.length l)%nat -> exists x, getitem l i = Ok x.
Proof.
  intro H. unfold getitem.
  destruct (nth_error l i) as [x |] eqn:E; [now exists x |].
  apply nth_error_None in E. lia.
Qed.

Lemma getitem_out_of_range {X} (l : list X) (i : nat) :
  (List.length l <= i)%nat -> getitem l i = Raise IndexError.
Proof.
  intro H. unfold getitem.
  now rewrite (proj2 (nth_error_None l i) H).
Qed.

(** X20. Without volume fractions the lengths are not compared: with
    fewer angles than laminas the constructor succeeds and
    [get_effective_stiffness] raises [IndexError]. *)
Theorem laminate_missing_angles :
  forall (lamina_stiffnesses : list M33) (angles : list R),
    (List.length angles < List.length lamina_stiffnesses)%nat ->
    exists o,
      Laminate.__init__ lamina_stiffnesses angles None = Ok o
      /\ Laminate.get_effective_stiffness o = Raise IndexError.
Proof.
  intros ls angles Hlen.
  assert (Hn : INR (List.length ls) <> 0) by (apply not_0_INR; lia).
  unfold Laminate.__init__. rewrite truediv_ok by exact Hn.
  cbn [bind]. eexists. split; [reflexivity |].
  unfold Laminate.get_effective_stiffness.
  cbn [Laminate.lamina_stiffnesses Laminate.angles Laminate.vol_fracs].
  cbv zeta.
  rewrite (@for_each_raise V6 (List.length ls) (List.length angles) _
             IndexError Hlen); [reflexivity | |].
  - intros i s Hi.
    destruct (@getitem_lt _ ls i) as [Q EQ]; [lia |].
    destruct (@getitem_lt _ angles i) as [a Ea]; [lia |].
    destruct (@getitem_lt _ (map (fun one => 1 / INR (List.length ls) * one)
                               (repeat 1 (List.length ls))) i)
      as [w Ew]; [rewrite length_map, repeat_length; lia |].
    rewrite EQ, Ea, Ew. cbn [bind]. eexists. reflexivity.
  - intro s.
    destruct (@getitem_lt _ ls (List.length angles)) as [Q EQ]; [lia |].
    rewrite EQ. cbn [bind].
    rewrite getitem_out_of_range by lia. reflexivity.
Qed.

Lemma laminate_missing_angles_witness :
  (List.length [0] < List.length [Props.ply; Props.ply])%nat
  /\ exists o,
      Laminate.__init__ [Props.ply; Props.ply] [0] None = Ok o
      /\ Laminate.get_effective_stiffness o = Raise IndexError.
Proof.
  assert (H : (List.length [0] < List.length [Props.ply; Props.ply])%nat)
    by (simpl; lia).
  split; [exact H |].
  exact (@laminate_missing_angles [Props.ply; Props.ply] [0] H).
Defined.

(** X21. A balanced pair of laminas, the same lamina at the angles
    theta and -theta with equal weights, has no coupling terms: the
    entries [0,2] and [1,2] of the effective stiffness are zero. *)
Theorem balanced_laminate_uncoupled :
  forall (Q : M33) (theta : R),
    exists o C,
      Laminate.__init__ [Q; Q] [theta; - theta] None = Ok o
      /\ Laminate.get_effective_stiffness o = Ok C
      /\ C i0 i2 = 0 /\ C i1 i2 = 0 /\ C i2 i0 = 0 /\ C i2 i1 = 0.
Proof.
  intros Q theta.
  assert (Hn : INR (List.length [Q; Q]) <> 0) by (simpl; lra).
  unfold Laminate.__init__. rewrite truediv_ok by exact Hn.
  cbn [bind]. eexists. eexists. split; [reflexivity |].
  unfold Laminate.get_effective_stiffness.
  cbn [Laminate.lamina_stiffnesses Laminate.angles Laminate.vol_fracs
       List.length seq for_each getitem nth_error bind map repeat].
  split; [reflexivity |]. cbv beta iota.
  rewrite (rotate_stiffness_opposite Q theta m4),
    (rotate_stiffness_opposite Q theta m5).
  repeat split; ring.
Qed.

(* ================================================================== *)
(** ** Halpin-Tsai: numpy scalars and the hyperbolic tangent *)

Lemma np_div_ok (x y : R) : y <> 0 -> (Ok x /~ Ok y)%py = Ok (x / y).
Proof.
  intro H. unfold NumPy.div, PyFloat.lift2, NumPy.truediv. cbn [bind].
  destruct (Req_dec_T y 0); [contradiction | reflexivity].
Qed.


Lemma np_log_ok (x : R) : 0 < x -> NumPy.log (Ok x) = Ok (ln x).
Proof.
  intro H. unfold NumPy.log. cbn [bind].
  destruct (Rlt_dec 0 x); [reflexivity | contradiction].
Qed.

Lemma np_sqrt_ok (x : R) : 0 <= x -> NumPy.sqrt (Ok x) = Ok (sqrt x).
Proof.
  intro H. unfold NumPy.sqrt. cbn [bind].
  destruct (Rle_dec 0 x); [reflexivity | contradiction].
Qed.

Lemma np_tanh_ok (x : R) : NumPy.tanh (Ok x) = Ok (tanh x).
Proof. reflexivity. Qed.

Lemma cosh_pos (x : R) : 0 < cosh x.
Proof.
  unfold cosh. pose proof (exp_pos x). pose proof (exp_pos (- x)). lra.
Qed.

Lemma sinh_pos (x : R) : 0 < x -> 0 < sinh x.
Proof. intro H. rewrite <- sinh_0. now apply sinh_lt. Qed.

(** sinh x < x cosh x for x > 0, by the mean value theorem on
    x cosh x - sinh x, whose derivative is x sinh x *)
Lemma sinh_lt_x_cosh (x : R) : 0 < x -> sinh x < x * cosh x.
Proof.
  intro Hx.
  destruct (MVT_cor2 (fun y => y * cosh y - sinh y) (fun y => y * sinh y)
              0 x Hx) as (c & Hc & Hc0 & Hcx).
  - intros c _.
    replace (c * sinh c) with ((1 * cosh c + c * sinh c) - cosh c) by ring.
    apply (derivable_pt_lim_minus (fun y => y * cosh y) sinh).
    + apply (derivable_pt_lim_mult (fun y => y) cosh).
      * apply derivable_pt_lim_id.
      * apply derivable_pt_lim_cosh.
    + apply derivable_pt_lim_sinh.
  - cbv beta in Hc. rewrite sinh_0 in Hc.
    pose proof (sinh_pos Hc0) as Hs.
    assert (0 < c * sinh c * (x - 0)).
    { apply Rmult_lt_0_compat; [apply Rmult_lt_0_compat |]; lra. }
    lra.
Qed.

Lemma tanh_bounds (x : R) : 0 < x -> 0 < tanh x / x < 1.
Proof.
  intro Hx. unfold tanh.
  pose proof (cosh_pos x) as Hc. pose proof (sinh_pos Hx) as Hs.
  pose proof (sinh_lt_x_cosh Hx) as Hlt.
  replace (sinh x / cosh x / x) with (sinh x / (x * cosh x))
    by (field; lra).
  assert (Hd : 0 < x * cosh x) by now apply Rmult_lt_0_compat.
  split.
  - now apply Rdiv_lt_0_compat.
  - apply (Rmult_lt_reg_r (x * cosh x)); [exact Hd |].
    replace (sinh x / (x * cosh x) * (x * cosh x)) with (sinh x)
      by (field; lra).
    lra.
Qed.

Lemma PI_gt_3 : 3 < PI.
Proof. pose proof PI2_3_2. lra. Qed.

Lemma sqrt3_bounds : 0 < sqrt 3 < 2.
Proof.
  split; [apply sqrt_lt_R0; lra |].
  replace 2 with (sqrt 4).
  - apply sqrt_lt_1; lra.
  - replace 4 with (2 * 2) by ring. apply sqrt_square. lra.
Qed.

Lemma ln_pos (x : R) : 1 < x -> 0 < ln x.
Proof. intro H. rewrite <- ln_1. apply ln_increasing; lra. Qed.

(* ================================================================== *)
(** ** Halpin-Tsai: the effective parameters *)

Lemma packing_pos (a : HalpinTsai.args) :
  Props.physical a -> 0 < Props.packing a.
Proof.
  intros [_ _ _ _ _ _ [Hv0 Hv1] Hp].
  pose proof PI_gt_3 as Hpi. pose proof sqrt3_bounds as [Hs0 Hs2].
  unfold Props.packing.
  assert (H : forall x, 1 < x -> 0 < 1 / 2 * ln x).
  { intros x Hx. pose proof (ln_pos Hx). lra. }
  destruct Hp as [E | E]; rewrite E; cbn [String.eqb Ascii.eqb Bool.eqb];
    apply H.
  - assert (Hd : 0 < sqrt 3 * HalpinTsai.vol_f a)
      by now apply Rmult_lt_0_compat.
    apply lt_div; [exact Hd |]. nra.
  - apply lt_div; [exact Hv0 |]. lra.
Qed.

Lemma shear_lag_pos (a : HalpinTsai.args) :
  Props.physical a -> 0 < Props.shear_lag a.
Proof.
  intro Hph. pose proof (packing_pos Hph) as Hp.
  destruct Hph as [HEf _ _ HGm Hl Hr _ _].
  pose proof PI_RGT_0 as Hpi.
  unfold Props.shear_lag.
  assert (Hden : 0 < HalpinTsai.E_f a * (PI * HalpinTsai.r_f a ^ 2)
                     * Props.packing a).
  { apply Rmult_lt_0_compat; [| exact Hp].
    apply Rmult_lt_0_compat; [exact HEf |].
    apply Rmult_lt_0_compat; [exact Hpi | apply pow_lt; exact Hr]. }
  assert (Hnum : 0 < 2 * PI * HalpinTsai.G_m a)
    by (apply Rmult_lt_0_compat; [lra | exact HGm]).
  pose proof (sqrt_lt_R0 _ (Rdiv_lt_0_compat _ _ Hnum Hden)) as Hs.
  apply Rdiv_lt_0_compat; [| lra].
  now apply Rmult_lt_0_compat.
Qed.

Lemma eta_bounds (xf xm : R) :
  0 < xf -> 0 < xm ->
  forall xi, 1 <= xi ->
  -1 < (xf / xm - 1) / (xf / xm + xi) < 1.
Proof.
  intros Hf Hm xi Hxi.
  assert (Hr : 0 < xf / xm) by now apply Rdiv_lt_0_compat.
  revert Hr. generalize (xf / xm). intros r Hr.
  assert (Hd : 0 < r + xi) by lra.
  split.
  - apply lt_div; [exact Hd |]. lra.
  - apply (Rmult_lt_reg_r (r + xi)); [exact Hd |].
    unfold Rdiv. rewrite Rmult_assoc, Rinv_l by lra. lra.
Qed.

Lemma eta_denominator (eta v : R) :
  eta < 1 -> 0 < v <= 1 -> 0 < 1 - eta * v.
Proof. intros He [Hv0 Hv1]. nra. Qed.

(** the longitudinal modulus of the shear-lag model *)
Lemma longitudinal_positive (a : HalpinTsai.args) :
  Props.physical a ->
  HalpinTsai.E_m a * (1 - HalpinTsai.vol_f a)
  < HalpinTsai.E_f a
    * (1 - tanh (Props.shear_lag a) / Props.shear_lag a)
    * HalpinTsai.vol_f a
    + HalpinTsai.E_m a * (1 - HalpinTsai.vol_f a)
  < Props.rule_of_mixtures (HalpinTsai.E_f a) (HalpinTsai.E_m a)
      (HalpinTsai.vol_f a).
Proof.
  intro Hph. pose proof (tanh_bounds (shear_lag_pos Hph)) as [Ht0 Ht1].
  destruct Hph as [HEf HEm _ _ _ _ [Hv0 Hv1] _].
  unfold Props.rule_of_mixtures.
  revert Ht0 Ht1.
  generalize (tanh (Props.shear_lag a) / Props.shear_lag a). intros t Ht0 Ht1.
  assert (H1 : 0 < HalpinTsai.E_f a * (1 - t) * HalpinTsai.vol_f a)
    by (apply Rmult_lt_0_compat; [apply Rmult_lt_0_compat |]; lra).
  assert (H2 : 0 < HalpinTsai.E_f a * t * HalpinTsai.vol_f a)
    by (apply Rmult_lt_0_compat; [apply Rmult_lt_0_compat |]; lra).
  split; nra.
Qed.

(** under physical inputs every step of [_get_effective_parameters] is
    defined *)
Lemma physical_parameters (a : HalpinTsai.args) :
  Props.physical a ->
  HalpinTsai._get_effective_parameters a
  = HalpinTsai.Done
      {| HalpinTsai.self := a;
         HalpinTsai.E11 :=
           HalpinTsai.E_f a
           * (1 - tanh (Props.shear_lag a) / Props.shear_lag a)
           * HalpinTsai.vol_f a
           + HalpinTsai.E_m a * (1 - HalpinTsai.vol_f a);
         HalpinTsai.E22 :=
           HalpinTsai.E_m a
           * (1 + 2 * Props.eta_E a * HalpinTsai.vol_f a)
           / (1 - Props.eta_E a * HalpinTsai.vol_f a);
         HalpinTsai.G12 :=
           HalpinTsai.G_m a
           * (1 + 2 * Props.eta_G a * HalpinTsai.vol_f a)
           / (1 - Props.eta_G a * HalpinTsai.vol_f a);
         HalpinTsai.nu12 :=
           HalpinTsai.nu_f a * HalpinTsai.vol_f a
           + HalpinTsai.nu_m a * (1 - HalpinTsai.vol_f a);
         HalpinTsai.nu21 :=
           (HalpinTsai.nu_f a * HalpinTsai.vol_f a
            + HalpinTsai.nu_m a * (1 - HalpinTsai.vol_f a))
           * (HalpinTsai.E_m a
              * (1 + 2 * Props.eta_E a * HalpinTsai.vol_f a)
              / (1 - Props.eta_E a * HalpinTsai.vol_f a))
           / (HalpinTsai.E_f a
              * (1 - tanh (Props.shear_lag a) / Props.shear_lag a)
              * HalpinTsai.vol_f a
              + HalpinTsai.E_m a * (1 - HalpinTsai.vol_f a)) |}.
Proof.
  intro Hph.
  pose proof (packing_pos Hph) as Hp.
  pose proof (shear_lag_pos Hph) as Hx.
  pose proof (longitudinal_positive Hph) as [HE11 _].
  destruct Hph as [HEf HEm HGf HGm Hl Hr [Hv0 Hv1] Hpack].
  pose proof PI_RGT_0 as Hpi. pose proof sqrt3_bounds as [Hs0 Hs2].
  pose proof (eta_bounds HEf HEm (xi := 2) ltac:(lra)) as [_ HetaE].
  pose proof (eta_bounds HGf HGm (xi := 1) ltac:(lra)) as [_ HetaG].
  pose proof (eta_denominator HetaE (conj Hv0 Hv1)) as HdE.
  pose proof (eta_denominator HetaG (conj Hv0 Hv1)) as HdG.
  fold (Props.eta_E a) in HetaE, HdE. fold (Props.eta_G a) in HetaG, HdG.
  assert (HE11' : 0 < HalpinTsai.E_f a
                      * (1 - tanh (Props.shear_lag a) / Props.shear_lag a)
                      * HalpinTsai.vol_f a
                      + HalpinTsai.E_m a * (1 - HalpinTsai.vol_f a)).
  { assert (0 <= HalpinTsai.E_m a * (1 - HalpinTsai.vol_f a))
      by (apply Rmult_le_pos; lra).
    lra. }
  assert (Hv : HalpinTsai.vol_f a <> 0) by lra.
  assert (Hs3v : sqrt 3 * HalpinTsai.vol_f a <> 0)
    by (apply Rmult_integral_contrapositive_currified; lra).
  assert (Hden : 0 < HalpinTsai.E_f a * (PI * HalpinTsai.r_f a ^ 2)
                     * Props.packing a).
  { apply Rmult_lt_0_compat; [| exact Hp].
    apply Rmult_lt_0_compat; [exact HEf |].
    apply Rmult_lt_0_compat; [exact Hpi | apply pow_lt; exact Hr]. }
  assert (Hnum : 0 < 2 * PI * HalpinTsai.G_m a)
    by (apply Rmult_lt_0_compat; [lra | exact HGm]).
  pose proof (Rlt_le _ _ (Rdiv_lt_0_compat _ _ Hnum Hden)) as Hrad.
  assert (HrE : 0 < HalpinTsai.E_f a / HalpinTsai.E_m a)
    by now apply Rdiv_lt_0_compat.
  assert (HrG : 0 < HalpinTsai.G_f a / HalpinTsai.G_m a)
    by now apply Rdiv_lt_0_compat.
  unfold HalpinTsai._get_effective_parameters. cbv zeta.
  assert (Evalid : (negb (String.eqb (HalpinTsai.package a) "hex")
                    && negb (String.eqb (HalpinTsai.package a) "square"))%bool
                   = false)
    by (destruct Hpack as [E | E]; rewrite E; reflexivity).
  rewrite Evalid.
  match goal with
  | |- HalpinTsai.of_result (bind ?e _) = _ =>
      assert (Ep : e = Ok (Props.packing a))
  end.
  { unfold Props.packing, PyFloat.const.
    destruct (String.eqb (HalpinTsai.package a) "hex").
    - rewrite np_sqrt_ok by lra. rewrite py_mul_ok, py_mul_ok.
      rewrite np_div_ok by exact Hs3v.
      rewrite np_log_ok.
      + rewrite py_div_ok by lra. reflexivity.
      + apply Rdiv_lt_0_compat; [lra |].
        apply Rmult_lt_0_compat; assumption.
    - rewrite (@py_div_ok PI (HalpinTsai.vol_f a)) by exact Hv.
      rewrite np_log_ok by (apply Rdiv_lt_0_compat; assumption).
      rewrite py_div_ok by lra. reflexivity. }
  rewrite Ep. cbn [bind]. clear Ep.
  assert (Hx' : Props.shear_lag a <> 0) by lra.
  unfold Props.eta_E, Props.eta_G, Props.shear_lag in *.
  unfold PyFloat.const.
  repeat first
    [ rewrite py_add_ok | rewrite py_sub_ok | rewrite py_mul_ok
    | rewrite py_div_ok by lra
    | rewrite np_div_ok by lra
    | rewrite np_sqrt_ok by exact Hrad
    | rewrite np_tanh_ok
    | progress cbn [bind] ].
  reflexivity.
Qed.

Lemma le_div (a n d : R) : 0 < d -> a * d <= n -> a <= n / d.
Proof.
  intros Hd H. apply Rmult_le_reg_r with d; [exact Hd |].
  unfold Rdiv. rewrite Rmult_assoc, Rinv_l, Rmult_1_r by lra. exact H.
Qed.

Lemma div_le (b n d : R) : 0 < d -> n <= b * d -> n / d <= b.
Proof.
  intros Hd H. apply Rmult_le_reg_r with d; [exact Hd |].
  unfold Rdiv. rewrite Rmult_assoc, Rinv_l, Rmult_1_r by lra. exact H.
Qed.

Lemma glass_epoxy_physical : Props.physical Props.glass_epoxy.
Proof.
  constructor; simpl; try lra. now left.
Qed.

Lemma pure_fiber_physical : Props.physical Props.pure_fiber.
Proof.
  constructor; simpl; try lra. now right.
Qed.

(** X22. The package is checked before anything is computed: any other
    string than "hex" and "square" makes the constructor raise
    [ValueError] with the package message, whatever the other
    arguments are, and with one of the two strings it never raises
    [ValueError]. *)
Theorem package_check :
  forall (E_f E_m G_f G_m nu_f nu_m l_f r_f vol_f : R) (package : string),
    (package <> "hex"%string /\ package <> "square"%string ->
     HalpinTsai.__init__ E_f E_m G_f G_m nu_f nu_m l_f r_f vol_f package
     = HalpinTsai.Failed (HalpinTsai.ValueError HalpinTsai.package_message))
    /\ (package = "hex"%string \/ package = "square"%string ->
        forall msg,
          HalpinTsai.__init__ E_f E_m G_f G_m nu_f nu_m l_f r_f vol_f package
          <> HalpinTsai.Failed (HalpinTsai.ValueError msg)).
Proof.
  intros E_f E_m G_f G_m nu_f nu_m l_f r_f vol_f package.
  unfold HalpinTsai.__init__, HalpinTsai._get_effective_parameters.
  cbv zeta. cbn [HalpinTsai.package]. split.
  - intros [H1 H2].
    apply String.eqb_neq in H1. apply String.eqb_neq in H2.
    now rewrite H1, H2.
  - intros Hp msg.
    assert (E : (negb (String.eqb package "hex")
                 && negb (String.eqb package "square"))%bool = false)
      by (destruct Hp as [-> | ->]; reflexivity).
    rewrite E.
    match goal with
    | |- HalpinTsai.of_result ?r <> _ =>
        destruct r as [? | []]; discriminate
    end.
Qed.

Lemma package_check_witness :
  HalpinTsai.__init__ 70 3 30 1 (1 / 5) (7 / 20) 1 (1 / 100) 0 "cubic"
  = HalpinTsai.Failed (HalpinTsai.ValueError HalpinTsai.package_message)
  /\ HalpinTsai.__init__ 70 3 30 1 (1 / 5) (7 / 20) 1 (1 / 100) 0 "square"
     <> HalpinTsai.Failed (HalpinTsai.ValueError HalpinTsai.package_message).
Proof.
  split.
  - apply (proj1 (@package_check 70 3 30 1 (1 / 5) (7 / 20) 1 (1 / 100) 0
                    "cubic")).
    split; discriminate.
  - apply (proj2 (@package_check 70 3 30 1 (1 / 5) (7 / 20) 1 (1 / 100) 0
                    "square")).
    now right.
Defined.

(** X23. For positive moduli, fiber length and radius and a fiber
    volume fraction in (0, 1], with either package, construction
    succeeds: no division by zero, no logarithm or root outside the
    reals. E11 and E22 are positive and nu12 follows the rule of
    mixtures. *)
Theorem physical_inputs_accepted :
  forall a : HalpinTsai.args,
    Props.physical a ->
    exists o,
      HalpinTsai._get_effective_parameters a = HalpinTsai.Done o
      /\ HalpinTsai.self o = a
      /\ 0 < HalpinTsai.E11 o
      /\ 0 < HalpinTsai.E22 o
      /\ HalpinTsai.nu12 o
         = Props.rule_of_mixtures (HalpinTsai.nu_f a) (HalpinTsai.nu_m a)
             (HalpinTsai.vol_f a).
Proof.
  intros a Hph. rewrite (physical_parameters Hph).
  eexists. split; [reflexivity |]. cbn.
  pose proof (longitudinal_positive Hph) as [HE11 _].
  destruct Hph as [HEf HEm _ _ _ _ [Hv0 Hv1] _].
  split; [reflexivity |]. split; [| split; [| reflexivity]].
  - assert (0 <= HalpinTsai.E_m a * (1 - HalpinTsai.vol_f a))
      by (apply Rmult_le_pos; lra).
    lra.
  - pose proof (eta_bounds HEf HEm (xi := 2) ltac:(lra)) as [_ Heta1].
    assert (Heta0 : -1 / 2 < Props.eta_E a).
    { unfold Props.eta_E.
      assert (Hr : 0 < HalpinTsai.E_f a / HalpinTsai.E_m a)
        by now apply Rdiv_lt_0_compat.
      apply lt_div; lra. }
    fold (Props.eta_E a) in Heta1.
    pose proof (eta_denominator Heta1 (conj Hv0 Hv1)) as Hd.
    apply Rdiv_lt_0_compat; [| exact Hd].
    apply Rmult_lt_0_compat; [exact HEm | nra].
Qed.

Lemma physical_inputs_accepted_witness :
  Props.physical Props.glass_epoxy
  /\ exists o,
      HalpinTsai._get_effective_parameters Props.glass_epoxy
      = HalpinTsai.Done o
      /\ 0 < HalpinTsai.E11 o /\ 0 < HalpinTsai.E22 o.
Proof.
  split; [exact glass_epoxy_physical |].
  destruct (@physical_inputs_accepted Props.glass_epoxy
              glass_epoxy_physical) as (o & Ho & _ & H1 & H2 & _).
  exists o. repeat split; assumption.
Defined.

(** X24. For positive moduli, fiber length and radius and a fiber
    volume fraction in (0, 1], the longitudinal modulus E11 lies
    strictly between the matrix share E_m (1 - vol_f) and the rule of
    mixtures E_f vol_f + E_m (1 - vol_f). *)
Theorem longitudinal_modulus_bounds :
  forall a : HalpinTsai.args,
    Props.physical a ->
    exists o,
      HalpinTsai._get_effective_parameters a = HalpinTsai.Done o
      /\ HalpinTsai.E_m a * (1 - HalpinTsai.vol_f a) < HalpinTsai.E11 o
      /\ HalpinTsai.E11 o
         < Props.rule_of_mixtures (HalpinTsai.E_f a) (HalpinTsai.E_m a)
             (HalpinTsai.vol_f a).
Proof.
  intros a Hph. rewrite (physical_parameters Hph).
  eexists. split; [reflexivity |]. cbn.
  exact (longitudinal_positive Hph).
Qed.

Lemma longitudinal_modulus_bounds_witness :
  Props.physical Props.glass_epoxy
  /\ exists o,
      HalpinTsai._get_effective_parameters Props.glass_epoxy
      = HalpinTsai.Done o
      /\ 3 * (1 - 1 / 4) < HalpinTsai.E11 o
      /\ HalpinTsai.E11 o < Props.rule_of_mixtures 70 3 (1 / 4).
Proof.
  split; [exact glass_epoxy_physical |].
  exact (@longitudinal_modulus_bounds Props.glass_epoxy
           glass_epoxy_physical).
Defined.

(** X25. For positive moduli, fiber length and radius and a fiber
    volume fraction in (0, 1]: with a fiber at least as stiff as the
    matrix, the transverse modulus E22 lies between E_m and E_f; with a
    fiber at least as stiff in shear, the shear modulus G12 is at least
    G_m. *)
Theorem transverse_modulus_bounds :
  forall a : HalpinTsai.args,
    Props.physical a ->
    exists o,
      HalpinTsai._get_effective_parameters a = HalpinTsai.Done o
      /\ (HalpinTsai.E_m a <= HalpinTsai.E_f a ->
          HalpinTsai.E_m a <= HalpinTsai.E22 o <= HalpinTsai.E_f a)
      /\ (HalpinTsai.G_m a <= HalpinTsai.G_f a ->
          HalpinTsai.G_m a <= HalpinTsai.G12 o).
Proof.
  intros a Hph. rewrite (physical_parameters Hph).
  eexists. split; [reflexivity |]. cbn.
  destruct Hph as [HEf HEm HGf HGm _ _ [Hv0 Hv1] _].
  assert (Hratio : forall xf xm xi eta,
             0 < xm -> xm <= xf -> 1 <= xi ->
             eta = (xf / xm - 1) / (xf / xm + xi) ->
             0 <= eta < 1).
  { intros xf xm xi eta Hm Hle Hxi ->.
    assert (Hf : 0 < xf) by lra.
    pose proof (eta_bounds Hf Hm Hxi) as [_ H1]. split; [| exact H1].
    assert (Hr : 1 <= xf / xm).
    { apply Rlt_le in Hm as Hm'.
      apply (Rmult_le_reg_r xm); [exact Hm |].
      unfold Rdiv. rewrite Rmult_assoc, Rinv_l by lra. lra. }
    apply Rmult_le_pos; [lra |].
    apply Rlt_le, Rinv_0_lt_compat. lra. }
  split.
  - intro Hle.
    destruct (Hratio _ _ 2 (Props.eta_E a) HEm Hle ltac:(lra) eq_refl)
      as [He0 He1].
    pose proof (eta_denominator He1 (conj Hv0 Hv1)) as Hd.
    assert (Hef : HalpinTsai.E_f a
                  = HalpinTsai.E_m a * (1 + 2 * Props.eta_E a)
                    / (1 - Props.eta_E a)).
    { unfold Props.eta_E. field. split; [| lra].
      intro E. assert (HalpinTsai.E_f a = - 2 * HalpinTsai.E_m a) by lra.
      lra. }
    assert (Hev : 0 <= Props.eta_E a * HalpinTsai.vol_f a)
      by (apply Rmult_le_pos; lra).
    assert (Hmev : 0 <= HalpinTsai.E_m a
                        * (Props.eta_E a * HalpinTsai.vol_f a))
      by (apply Rmult_le_pos; lra).
    split.
    + apply le_div; [exact Hd | lra].
    + apply div_le; [exact Hd |].
      rewrite Hef.
      replace (HalpinTsai.E_m a * (1 + 2 * Props.eta_E a)
               / (1 - Props.eta_E a)
               * (1 - Props.eta_E a * HalpinTsai.vol_f a))
        with (HalpinTsai.E_m a
              * ((1 + 2 * Props.eta_E a)
                 * (1 - Props.eta_E a * HalpinTsai.vol_f a)
                 / (1 - Props.eta_E a)))
        by (field; lra).
      apply Rmult_le_compat_l; [lra |].
      apply le_div; [lra |].
      assert (0 <= Props.eta_E a * (1 - HalpinTsai.vol_f a))
        by (apply Rmult_le_pos; lra).
      lra.
  - intro Hle.
    destruct (Hratio _ _ 1 (Props.eta_G a) HGm Hle ltac:(lra) eq_refl)
      as [He0 He1].
    pose proof (eta_denominator He1 (conj Hv0 Hv1)) as Hd.
    assert (Hmev : 0 <= HalpinTsai.G_m a
                        * (Props.eta_G a * HalpinTsai.vol_f a))
      by (apply Rmult_le_pos; [lra | apply Rmult_le_pos; lra]).
    apply le_div; [exact Hd | lra].
Qed.

Lemma transverse_modulus_bounds_witness :
  Props.physical Props.glass_epoxy
  /\ exists o,
      HalpinTsai._get_effective_parameters Props.glass_epoxy
      = HalpinTsai.Done o
      /\ 3 <= HalpinTsai.E22 o <= 70
      /\ 1 <= HalpinTsai.G12 o.
Proof.
  split; [exact glass_epoxy_physical |].
  destruct (@transverse_modulus_bounds Props.glass_epoxy
              glass_epoxy_physical) as (o & Ho & HE & HG).
  exists o. split; [exact Ho |]. split.
  - apply HE. simpl. lra.
  - apply HG. simpl. lra.
Defined.

(** X26. At fiber volume fraction 1, with positive moduli, fiber
    length and radius, the transverse modulus E22 is E_f and nu12 is
    nu_f, while the shear modulus G12 is (3 G_f - G_m) / 2. *)
Theorem full_fiber_fraction :
  forall a : HalpinTsai.args,
    Props.physical a -> HalpinTsai.vol_f a = 1 ->
    exists o,
      HalpinTsai._get_effective_parameters a = HalpinTsai.Done o
      /\ HalpinTsai.E22 o = HalpinTsai.E_f a
      /\ HalpinTsai.nu12 o = HalpinTsai.nu_f a
      /\ HalpinTsai.G12 o
         = (3 * HalpinTsai.G_f a - HalpinTsai.G_m a) / 2.
Proof.
  intros a Hph Hv. rewrite (physical_parameters Hph).
  eexists. split; [reflexivity |]. cbn.
  destruct Hph as [HEf HEm HGf HGm _ _ _ _].
  rewrite Hv. unfold Props.eta_E, Props.eta_G.
  assert (H1 : HalpinTsai.E_f a + 2 * HalpinTsai.E_m a <> 0) by lra.
  assert (H2 : HalpinTsai.G_f a + HalpinTsai.G_m a <> 0) by lra.
  assert (H3 : HalpinTsai.E_m a <> 0) by lra.
  assert (H4 : HalpinTsai.G_m a <> 0) by lra.
  repeat split; field; repeat split; try assumption; lra.
Qed.

Lemma full_fiber_fraction_witness :
  Props.physical Props.pure_fiber
  /\ HalpinTsai.vol_f Props.pure_fiber = 1
  /\ exists o,
      HalpinTsai._get_effective_parameters Props.pure_fiber
      = HalpinTsai.Done o
      /\ HalpinTsai.E22 o = 70
      /\ HalpinTsai.G12 o = (3 * 30 - 1) / 2.
Proof.
  split; [exact pure_fiber_physical |]. split; [reflexivity |].
  destruct (@full_fiber_fraction Props.pure_fiber pure_fiber_physical
              eq_refl) as (o & Ho & H1 & _ & H2).
  exists o. repeat split; assumption.
Defined.

(* ================================================================== *)
(** ** Halpin-Tsai: the planar stiffness and the laminate *)





